(** * Photobooth: burst capture, composite editing and GIF export

    A shallow embedding of the capture/export pipeline of the photobooth
    (Camera.tsx, page.tsx of the booth route, PhotoEditor.tsx) and the
    properties of its specification.

    Conventions of the embedding:
    - a JavaScript [number] that the code computes with fractions (sticker
      scale, pixel arithmetic, progress) is an IEEE-754 binary64 value, the
      primitive [float]; a number that is only ever an array position or a
      counter (frame index, shot count, Date.now()) is a [Z];
    - [undefined]/[null] are [None];
    - React state is a record, a state setter is a record update, a ref
      ([useRef]) is a field that survives re-renders, a prop is a field the
      parent chooses;
    - a decimal literal such as [0.299] denotes the nearest binary64 value,
      in the source and here alike. *)

From Stdlib Require Import ZArith Floats Lia List String Ascii.
From stdpp Require Import gmap strings list pretty.
Set Warnings "-inexact-float".

(** ** JavaScript numbers *)

Module JS.

Definition number := float.

(** An integer as a number (exact below 2^53). *)
Definition num (z : Z) : number :=
  if (z <? 0)%Z then (- PrimFloat.of_uint63 (Uint63.of_Z (- z)))%float
  else PrimFloat.of_uint63 (Uint63.of_Z z).

Definition is_nan (v : number) : bool := negb (PrimFloat.eqb v v).

Definition is_neg_zero (v : number) : bool :=
  match PrimFloat.classify v with NZero => true | _ => false end.

Definition is_zero (v : number) : bool := PrimFloat.eqb v 0%float.

(** [Math.min(a, b)]: NaN if either is NaN, -0 below +0. *)
Definition Math_min (a b : number) : number :=
  if is_nan a || is_nan b then nan
  else if PrimFloat.ltb b a then b
  else if is_zero a && is_neg_zero b then b
  else a.

(** [Math.max(a, b)]: NaN if either is NaN, +0 above -0. *)
Definition Math_max (a b : number) : number :=
  if is_nan a || is_nan b then nan
  else if PrimFloat.ltb a b then b
  else if is_neg_zero a && is_zero b then b
  else a.

(** Round-half-to-even of the non-negative dyadic [m * 2^e]. *)
Definition round_half_even (m : positive) (e : Z) : Z :=
  if (0 <=? e)%Z then Z.pos m * 2 ^ e
  else
    let d := (2 ^ (- e))%Z in
    let f := (Z.pos m / d)%Z in
    let r := (Z.pos m mod d)%Z in
    match (2 * r ?= d)%Z with
    | Lt => f
    | Gt => f + 1
    | Eq => if Z.even f then f else f + 1
    end.

(** Storing a number into a [Uint8ClampedArray] (ToUint8Clamp): NaN is
    0, the value is clamped to 0..255 and rounded to the nearest integer,
    ties to even. *)
Definition ToUint8Clamp (v : number) : Z :=
  match Prim2SF v with
  | S754_nan => 0
  | S754_zero _ => 0
  | S754_infinity s => if s then 0 else 255
  | S754_finite s m e => if s then 0 else Z.min 255 (round_half_even m e)
  end.

(** [Math.round]: the nearest integer, ties towards +infinity. *)
Definition round_half_up (m : positive) (e : Z) : Z :=
  if (0 <=? e)%Z then Z.pos m * 2 ^ e
  else
    let d := (2 ^ (- e))%Z in
    let f := (Z.pos m / d)%Z in
    let r := (Z.pos m mod d)%Z in
    if (d <=? 2 * r)%Z then f + 1 else f.

Definition round_half_down (m : positive) (e : Z) : Z :=
  if (0 <=? e)%Z then Z.pos m * 2 ^ e
  else
    let d := (2 ^ (- e))%Z in
    let f := (Z.pos m / d)%Z in
    let r := (Z.pos m mod d)%Z in
    if (d <? 2 * r)%Z then f + 1 else f.

Definition Math_round (v : number) : number :=
  match Prim2SF v with
  | S754_finite s m e =>
      if (0 <=? e)%Z then v
      else if s then
        let k := round_half_down m e in
        if (k =? 0)%Z then (- 0)%float else num (- k)
      else num (round_half_up m e)
  | _ => v
  end.

End JS.

(** ** JavaScript strings *)

Module Str.

(** [s.startsWith(p)] *)
Definition startsWith (s p : string) : bool := String.prefix p s.

(** [s.includes(p)] *)
Definition includes (s p : string) : bool :=
  match String.index 0 p s with Some _ => true | None => false end.

(** The longest run of characters other than [c] at the head of [s], and
    what follows it. *)
Fixpoint span_not (c : ascii) (s : string) : string * string :=
  match s with
  | EmptyString => (EmptyString, EmptyString)
  | String a r =>
      if Ascii.eqb a c then (EmptyString, s)
      else let '(h, t) := span_not c r in (String a h, t)
  end.

Fixpoint drop (n : nat) (s : string) : string :=
  match n, s with
  | O, _ => s
  | S k, String _ r => drop k r
  | S _, EmptyString => EmptyString
  end.

(** The capture group of [s.match(/name\(([^)]+)\)/)]: the argument of
    the leftmost [name(...)] whose argument is not empty and is closed by
    a parenthesis; [None] when the pattern does not match. *)
Fixpoint matchCall (name : string) (s : string) : option string :=
  let here :=
    if String.prefix (name +:+ "(") s then
      let '(arg, rest) := span_not ")"%char (drop (String.length name + 1) s) in
      match arg, rest with
      | String _ _, String _ _ => Some arg
      | _, _ => None
      end
    else None in
  match here with
  | Some arg => Some arg
  | None => match s with
            | EmptyString => None
            | String _ r => matchCall name r
            end
  end.

Definition digit_of (a : ascii) : option Z :=
  let n := Z.of_nat (nat_of_ascii a) in
  if ((48 <=? n) && (n <=? 57))%Z then Some (n - 48)%Z else None.

(** Reads decimal digits from the head of [s]: the value so far, how
    many digits were read, and the rest. *)
Fixpoint digits (acc : Z) (cnt : nat) (s : string) : Z * nat * string :=
  match s with
  | EmptyString => (acc, cnt, s)
  | String a r =>
      match digit_of a with
      | Some d => digits (10 * acc + d) (S cnt) r
      | None => (acc, cnt, s)
      end
  end.

(** [parseFloat(s)] for the plain decimal notation [digits[.digits]] with
    an optional sign after leading white space (the only notation the filter
    strings of this program use; exponents and "Infinity" are not read).
    The longest numeric prefix is converted; no digit at all gives NaN.  The quotient of the
    digit string by the power of ten is the correctly rounded value as
    long as both are exact, that is below 2^53 and 10^22. *)
Definition parseUnsigned (s : string) : JS.number :=
  let '(ip, ni, r) := digits 0 0 s in
  match r with
  | String "."%char r' =>
      let '(m, nf, _) := digits ip 0 r' in
      if (Nat.eqb ni 0 && Nat.eqb nf 0)%bool then nan
      else (JS.num m / JS.num (10 ^ Z.of_nat nf))%float
  | _ => if Nat.eqb ni 0 then nan else JS.num ip
  end.

Definition is_space (a : ascii) : bool :=
  let n := nat_of_ascii a in
  (Nat.eqb n 32 || Nat.eqb n 9 || Nat.eqb n 10 || Nat.eqb n 13)%bool.

Fixpoint trimStart (s : string) : string :=
  match s with
  | String a r => if is_space a then trimStart r else s
  | EmptyString => s
  end.

Definition parseFloat (s : string) : JS.number :=
  match trimStart s with
  | String "-"%char r => (- parseUnsigned r)%float
  | String "+"%char r => parseUnsigned r
  | t => parseUnsigned t
  end.

(** No minus sign in the string. *)
Fixpoint dashFree (s : string) : Prop :=
  match s with
  | EmptyString => True
  | String c r => c <> "-"%char /\ dashFree r
  end.

End Str.

(** ** Shared enumerations (LayoutSelector.tsx, Camera.tsx, page.tsx) *)

Inductive LayoutType := Layout4Diagonal | Layout3Diagonal | Layout4Square | Layout6Grid.

Inductive FilterType := normal | bw | soft | vintage.

(** The filter id as it appears inside a template string. *)
Definition filterName (f : FilterType) : string :=
  match f with
  | normal => "normal" | bw => "bw" | soft => "soft" | vintage => "vintage"
  end.

(** [LAYOUT_CONFIG[layout].count] of the booth page. *)
Definition LAYOUT_CONFIG (l : LayoutType) : nat :=
  match l with
  | Layout4Diagonal => 4
  | Layout3Diagonal => 3
  | Layout4Square => 4
  | Layout6Grid => 6
  end.

(** The webcam: what the [k]-th call of [getScreenshot] of the session
    answers ([None]: no frame). *)
Definition Webcam := nat -> option string.

(** [imageSrc && imageSrc.startsWith("data:image/")] *)
Definition validFrame (imageSrc : option string) : bool :=
  match imageSrc with
  | Some s => Str.startsWith s "data:image/"
  | None => false
  end.

Definition pushFrame (burst : list string) (imageSrc : option string) : list string :=
  match imageSrc with
  | Some s => if validFrame imageSrc then burst ++ [s] else burst
  | None => burst
  end.

(** What the component reports to its parent: [onComplete(photos, filter)]. *)
Inductive Signal := OnComplete (photos : list (list string)) (f : FilterType).

(** Every burst of a photo set has a frame. *)
Definition nonEmptyBursts (ps : list (list string)) : Prop :=
  Forall (fun burst => (1 <= length burst)%nat) ps.

(** ** Camera, burst after the countdown (the version with [captureBurst]) *)

Module CameraBurst.

Record State := mkState {
  photos : list (list string);
  isCapturing : bool;
  countdown : option Z;
  flash : bool;
  filter : FilterType;
  (** the countdown interval, when one is running, with the [currentCount]
      of its closure *)
  timer : option Z;
  (** how many screenshots the session has asked for *)
  shots : nat
}.

Definition setPhotos (v : list (list string)) (st : State) : State :=
  mkState v (isCapturing st) (countdown st) (flash st) (filter st) (timer st) (shots st).
Definition setIsCapturing (v : bool) (st : State) : State :=
  mkState (photos st) v (countdown st) (flash st) (filter st) (timer st) (shots st).
Definition setCountdown (v : option Z) (st : State) : State :=
  mkState (photos st) (isCapturing st) v (flash st) (filter st) (timer st) (shots st).
Definition setFlash (v : bool) (st : State) : State :=
  mkState (photos st) (isCapturing st) (countdown st) v (filter st) (timer st) (shots st).
Definition setFilter (v : FilterType) (st : State) : State :=
  mkState (photos st) (isCapturing st) (countdown st) (flash st) v (timer st) (shots st).
Definition setTimer (v : option Z) (st : State) : State :=
  mkState (photos st) (isCapturing st) (countdown st) (flash st) (filter st) v (shots st).
Definition setShots (v : nat) (st : State) : State :=
  mkState (photos st) (isCapturing st) (countdown st) (flash st) (filter st) (timer st) v.

Definition initial : State :=
  {| photos := []; isCapturing := false; countdown := None; flash := false;
     filter := normal; timer := None; shots := 0 |}.

Inductive Event :=
| ClickStart
| ClickFilter (f : FilterType)
| CountdownTick
| FlashTimeout.

Definition BURST_COUNT : nat := 30.

(** The [for] loop of [captureBurst]: [n] more screenshots from call [t]. *)
Fixpoint burstLoop (cam : Webcam) (n : nat) (t : nat) (burst : list string) : list string :=
  match n with
  | O => burst
  | S k => burstLoop cam k (S t) (pushFrame burst (cam t))
  end.

(** [captureBurst]: the burst is committed only when it has a frame.  The
    result says whether [photos] changed. *)
Definition captureBurst (cam : Webcam) (st : State) : State * bool :=
  let burst := burstLoop cam BURST_COUNT (shots st) [] in
  let st1 := setShots (shots st + BURST_COUNT) st in
  if (0 <? length burst)%nat then
    (setPhotos (photos st1 ++ [burst]) (setFlash true st1), true)
  else (st1, false).

Section Component.

(** The props: [photoCount], [timerDuration] (3 when the parent gives
    none, as the booth page does). *)
Variable photoCount : nat.
Variable timerDuration : Z.
Variable cam : Webcam.

(** The effect on [photos, photoCount, isCapturing, onComplete, filter]. *)
Definition completionEffect (st : State) : State * list Signal :=
  if (photoCount <=? length (photos st))%nat && isCapturing st then
    (setIsCapturing false st, [OnComplete (photos st) (filter st)])
  else (st, []).

(** The effect on [isCapturing, photos.length, photoCount, timerDuration]:
    its cleanup clears the interval of the previous run, then a new
    countdown starts while shots are missing. *)
Definition countdownEffect (st : State) : State :=
  if isCapturing st && (length (photos st) <? photoCount)%nat then
    setTimer (Some timerDuration) (setCountdown (Some timerDuration) st)
  else setTimer None st.

(** A render after [photos] or [isCapturing] changed runs both effects, in
    the order of their declaration. *)
Definition render (st : State) : State * list Signal :=
  let '(st1, out) := completionEffect st in (countdownEffect st1, out).

(** The settings and the start button are shown only when
    [!isCapturing && photos.length === 0]. *)
Definition controlsShown (st : State) : bool :=
  negb (isCapturing st) && (length (photos st) =? 0)%nat.

Definition startSession (st : State) : State * list Signal :=
  render (setIsCapturing true (setPhotos [] st)).

(** One firing of the countdown interval whose closure holds
    [currentCount]. *)
Definition tick (currentCount : Z) (st : State) : State * list Signal :=
  let currentCount' := (currentCount - 1)%Z in
  let st1 := setCountdown (Some currentCount') st in
  if (currentCount' <=? 0)%Z then
    let '(st2, committed) := captureBurst cam (setTimer None st1) in
    if committed then render st2 else (st2, [])
  else (setTimer (Some currentCount') st1, []).

Definition step (st : State) (ev : Event) : State * list Signal :=
  match ev with
  | ClickStart => if controlsShown st then startSession st else (st, [])
  | ClickFilter f =>
      if controlsShown st then completionEffect (setFilter f st) else (st, [])
  | CountdownTick =>
      match timer st with
      | Some currentCount => tick currentCount st
      | None => (st, [])
      end
  | FlashTimeout => (setFlash false st, [])
  end.

(** A run of the component over a sequence of events, with everything it
    signalled. *)
Fixpoint run (st : State) (evs : list Event) : State * list Signal :=
  match evs with
  | [] => (st, [])
  | ev :: rest =>
      let '(st1, out1) := step st ev in
      let '(st2, out2) := run st1 rest in
      (st2, out1 ++ out2)
  end.

(** While the session captures, shots are missing; a countdown only runs
    while the session captures. *)
Definition capturing_inv (st : State) : Prop :=
  (isCapturing st = true -> (length (photos st) < photoCount)%nat)
  /\ (forall c, timer st = Some c -> isCapturing st = true).

(** What a step may signal: the photos and the filter of the state it
    leaves, with as many bursts as shots were asked for. *)
Definition complete_signal (st : State) (s : Signal) : Prop :=
  s = OnComplete (photos st) (filter st) /\ length (photos st) = photoCount.

(** The session is over: every shot is taken and nothing runs any more. *)
Definition finished (st : State) : Prop :=
  isCapturing st = false /\ length (photos st) = photoCount /\ timer st = None.

Definition underway (st : State) : Prop :=
  (length (photos st) < photoCount)%nat /\ capturing_inv st.

End Component.

(** *** Sessions *)

Definition counting (c : Z) (st : State) : State :=
  setTimer (Some c) (setCountdown (Some c) st).

Definition ticks (n : nat) : list Event := repeat CountdownTick n.

Definition session (f : FilterType) (shotsWanted ticksPerShot : nat) : list Event :=
  ClickFilter f :: ClickStart :: ticks (shotsWanted * ticksPerShot).

(** In every burst the camera has at least one frame. *)
Definition camReady (cam : Webcam) : Prop :=
  forall t, exists i, (i < BURST_COUNT)%nat /\ validFrame (cam (t + i)) = true.

End CameraBurst.

(** ** Camera, frames sampled during the countdown (the version with
    [burstRef] and the final snap) *)

Module CameraCountdown.

Record State := mkState {
  photos : list (list string);
  isCapturing : bool;
  countdown : option Z;
  flash : bool;
  filter : FilterType;
  (** [burstRef.current] *)
  burstRef : list string;
  (** the countdown interval and the capture interval of the running
      effect, when there is one, with the [currentCount] of its closure *)
  timers : option Z;
  (** how many screenshots the session has asked for *)
  shots : nat
}.

Definition setPhotos (v : list (list string)) (st : State) : State :=
  mkState v (isCapturing st) (countdown st) (flash st) (filter st) (burstRef st) (timers st) (shots st).
Definition setIsCapturing (v : bool) (st : State) : State :=
  mkState (photos st) v (countdown st) (flash st) (filter st) (burstRef st) (timers st) (shots st).
Definition setCountdown (v : option Z) (st : State) : State :=
  mkState (photos st) (isCapturing st) v (flash st) (filter st) (burstRef st) (timers st) (shots st).
Definition setFlash (v : bool) (st : State) : State :=
  mkState (photos st) (isCapturing st) (countdown st) v (filter st) (burstRef st) (timers st) (shots st).
Definition setFilter (v : FilterType) (st : State) : State :=
  mkState (photos st) (isCapturing st) (countdown st) (flash st) v (burstRef st) (timers st) (shots st).
Definition setBurstRef (v : list string) (st : State) : State :=
  mkState (photos st) (isCapturing st) (countdown st) (flash st) (filter st) v (timers st) (shots st).
Definition setTimers (v : option Z) (st : State) : State :=
  mkState (photos st) (isCapturing st) (countdown st) (flash st) (filter st) (burstRef st) v (shots st).
Definition setShots (v : nat) (st : State) : State :=
  mkState (photos st) (isCapturing st) (countdown st) (flash st) (filter st) (burstRef st) (timers st) v.

Definition initial : State :=
  {| photos := []; isCapturing := false; countdown := None; flash := false;
     filter := normal; burstRef := []; timers := None; shots := 0 |}.

Inductive Event :=
| ClickStart
| ClickFilter (f : FilterType)
| CaptureTick
| CountdownTick
| FlashTimeout.

(** [webcamRef.current?.getScreenshot()], pushed on [burstRef] when it is a
    frame. *)
Definition snap (cam : Webcam) (st : State) : State :=
  setShots (S (shots st)) (setBurstRef (pushFrame (burstRef st) (cam (shots st))) st).

Section Component.

Variable photoCount : nat.
Variable timerDuration : Z.
Variable cam : Webcam.

(** The effect on [isCapturing, photos.length, photoCount, timerDuration]:
    the cleanup clears both intervals; while shots are missing the burst
    buffer is reset and both intervals start. *)
Definition countdownEffect (st : State) : State :=
  if isCapturing st && (length (photos st) <? photoCount)%nat then
    setTimers (Some timerDuration)
      (setBurstRef [] (setCountdown (Some timerDuration) st))
  else setTimers None st.

Definition controlsShown (st : State) : bool :=
  negb (isCapturing st) && (length (photos st) =? 0)%nat.

Definition startSession (st : State) : State :=
  countdownEffect (setIsCapturing true (setPhotos [] st)).

(** One firing of the countdown interval: at zero both intervals are
    cleared, the final snap is taken and the burst is saved. *)
Definition tick (currentCount : Z) (st : State) : State :=
  let currentCount' := (currentCount - 1)%Z in
  let st1 := setCountdown (Some currentCount') st in
  if (currentCount' <=? 0)%Z then
    let st2 := snap cam (setTimers None st1) in
    let st3 := setFlash true st2 in
    countdownEffect (setPhotos (photos st3 ++ [burstRef st3]) st3)
  else setTimers (Some currentCount') st1.

Definition step (st : State) (ev : Event) : State :=
  match ev with
  | ClickStart => if controlsShown st then startSession st else st
  | ClickFilter f => if controlsShown st then setFilter f st else st
  | CaptureTick =>
      match timers st with
      | Some _ => snap cam st
      | None => st
      end
  | CountdownTick =>
      match timers st with
      | Some currentCount => tick currentCount st
      | None => st
      end
  | FlashTimeout => setFlash false st
  end.

Definition run (st : State) (evs : list Event) : State := fold_left step evs st.

End Component.

End CameraCountdown.

(** ** PhotoEditor: frame selection, stickers, frame cache, GIF export *)

Module Editor.

Record Sticker := mkSticker {
  id : Z;
  content : string;
  x : JS.number;
  y : JS.number;
  scale : JS.number
}.

Definition getLayoutClassName (l : LayoutType) : string :=
  match l with
  | Layout4Diagonal => "layout4Diagonal"
  | Layout3Diagonal => "layout3Diagonal"
  | Layout4Square => "layout4Square"
  | Layout6Grid => "layout6Grid"
  end.

(** [getFilterStyle(f).filter], [None] for the empty style object. *)
Definition getFilterStyle (f : FilterType) : option string :=
  match f with
  | bw => Some "grayscale(100%) contrast(1.2)"
  | soft => Some "brightness(1.1) contrast(0.9) saturate(0.8) blur(0.5px)"
  | vintage => Some "sepia(0.5) contrast(1.1) saturate(0.8)"
  | normal => None
  end.

(** [getFilterStyle(filter).filter || ''] *)
Definition filterValueOf (f : FilterType) : string :=
  match getFilterStyle f with
  | Some v => v
  | None => EmptyString
  end.

(** *** Which frame of a burst is shown *)

(** [displayFrameIndex === null ? burst.length - 1
     : Math.min(displayFrameIndex, burst.length - 1)] *)
Definition frameIndex (displayFrameIndex : option Z) (burst : list string) : Z :=
  match displayFrameIndex with
  | None => Z.of_nat (length burst) - 1
  | Some i => Z.min i (Z.of_nat (length burst) - 1)
  end.

(** [arr[i]] for an integer [i]: [undefined] outside of the array. *)
Definition at_index {A : Type} (arr : list A) (i : Z) : option A :=
  if (i <? 0)%Z then None else arr !! Z.to_nat i.

(** [burst[frameIndex]], the [src] of the image of that burst. *)
Definition src (displayFrameIndex : option Z) (burst : list string) : option string :=
  at_index burst (frameIndex displayFrameIndex burst).

(** The export container as the state renders it: what a rasterization
    sees. *)
Record Composite := mkComposite {
  backgroundColor : string;
  layoutClass : string;
  images : list (option string);
  imageFilter : option string;
  overlay : list Sticker
}.

Section WithCanvas.

(** A raster ([HTMLCanvasElement]), by its content. *)
Context {Canvas : Type}.

Record State := mkState {
  (** props *)
  photos : list (list string);
  layout : LayoutType;
  filter : FilterType;
  (** state *)
  borderColorState : string;
  stickers : list Sticker;
  isExporting : bool;
  gifProgress : JS.number;
  displayFrameIndex : option Z;
  (** refs: [frameCacheRef.current], and whether [exportRef.current] is
      the mounted export container *)
  frameCache : gmap string Canvas;
  exportMounted : bool
}.

Definition setBorderColorState (v : string) (st : State) : State :=
  mkState (photos st) (layout st) (filter st) v (stickers st) (isExporting st)
    (gifProgress st) (displayFrameIndex st) (frameCache st) (exportMounted st).
Definition setStickers (v : list Sticker) (st : State) : State :=
  mkState (photos st) (layout st) (filter st) (borderColorState st) v (isExporting st)
    (gifProgress st) (displayFrameIndex st) (frameCache st) (exportMounted st).
Definition setIsExporting (v : bool) (st : State) : State :=
  mkState (photos st) (layout st) (filter st) (borderColorState st) (stickers st) v
    (gifProgress st) (displayFrameIndex st) (frameCache st) (exportMounted st).
Definition setGifProgress (v : JS.number) (st : State) : State :=
  mkState (photos st) (layout st) (filter st) (borderColorState st) (stickers st)
    (isExporting st) v (displayFrameIndex st) (frameCache st) (exportMounted st).
Definition setDisplayFrameIndex (v : option Z) (st : State) : State :=
  mkState (photos st) (layout st) (filter st) (borderColorState st) (stickers st)
    (isExporting st) (gifProgress st) v (frameCache st) (exportMounted st).
Definition setFrameCache (v : gmap string Canvas) (st : State) : State :=
  mkState (photos st) (layout st) (filter st) (borderColorState st) (stickers st)
    (isExporting st) (gifProgress st) (displayFrameIndex st) v (exportMounted st).

(** The parent renders the editor again with another [filter] prop: state
    and refs are kept. *)
Definition receiveFilter (f : FilterType) (st : State) : State :=
  mkState (photos st) (layout st) f (borderColorState st) (stickers st)
    (isExporting st) (gifProgress st) (displayFrameIndex st) (frameCache st)
    (exportMounted st).

(** The editor as it mounts on the photos of a finished session. *)
Definition mount (ps : list (list string)) (l : LayoutType) (f : FilterType) : State :=
  {| photos := ps; layout := l; filter := f;
     borderColorState := "#ffffff"; stickers := []; isExporting := false;
     gifProgress := 0%float; displayFrameIndex := None;
     frameCache := ∅; exportMounted := true |}.

(** [frameCacheRef.current.clear()] *)
Definition clearFrameCache (st : State) : State := setFrameCache ∅ st.

(** *** Border colour and stickers *)

Definition setBorderColor (color : string) (st : State) : State :=
  clearFrameCache (setBorderColorState color st).

(** [now] is the value of [Date.now()]. *)
Definition addSticker (now : Z) (c : string) (st : State) : State :=
  clearFrameCache
    (setStickers (stickers st ++ [mkSticker now c 0%float 0%float 1%float]) st).

Definition removeSticker (i : Z) (st : State) : State :=
  clearFrameCache
    (setStickers (List.filter (fun s => negb (id s =? i)%Z) (stickers st)) st).

(** [Math.max(0.5, Math.min(3, s.scale + delta))] *)
Definition newScale (s : JS.number) (delta : JS.number) : JS.number :=
  JS.Math_max 0.5%float (JS.Math_min 3%float (s + delta)%float).

Definition resized (i : Z) (delta : JS.number) (s : Sticker) : Sticker :=
  if (id s =? i)%Z then mkSticker (id s) (content s) (x s) (y s) (newScale (scale s) delta)
  else s.

Definition resizeSticker (i : Z) (delta : JS.number) (st : State) : State :=
  clearFrameCache (setStickers (map (resized i delta) (stickers st)) st).

Definition moved (i : Z) (nx ny : JS.number) (s : Sticker) : Sticker :=
  if (id s =? i)%Z then mkSticker (id s) (content s) nx ny (scale s) else s.

Definition updateStickerPosition (i : Z) (nx ny : JS.number) (st : State) : State :=
  clearFrameCache (setStickers (map (moved i nx ny) (stickers st)) st).

(** What the user can do to the look of the strip.  The controls of a
    sticker resize by a tenth. *)
Inductive Edit :=
| PickBorder (color : string)
| AddSticker (now : Z) (c : string)
| RemoveSticker (i : Z)
| GrowSticker (i : Z)
| ShrinkSticker (i : Z)
| DragSticker (i : Z) (nx ny : JS.number).

Definition edit (e : Edit) (st : State) : State :=
  match e with
  | PickBorder c => setBorderColor c st
  | AddSticker now c => addSticker now c st
  | RemoveSticker i => removeSticker i st
  | GrowSticker i => resizeSticker i 0.1%float st
  | ShrinkSticker i => resizeSticker i (-0.1)%float st
  | DragSticker i nx ny => updateStickerPosition i nx ny st
  end.

(** A sequence of edits, oldest first. *)
Definition editAll (es : list Edit) (st : State) : State :=
  fold_left (fun s e => edit e s) es st.

(** Two states that look the same on the strip, whatever frame is shown
    and whatever is cached. *)
Definition sameLook (st st' : State) : Prop :=
  photos st' = photos st /\ layout st' = layout st /\ filter st' = filter st
  /\ borderColorState st' = borderColorState st /\ stickers st' = stickers st
  /\ exportMounted st' = exportMounted st.

(** *** The export container *)

Definition renderExport (st : State) : Composite :=
  {| backgroundColor := borderColorState st;
     layoutClass := getLayoutClassName (layout st);
     images := map (src (displayFrameIndex st)) (photos st);
     imageFilter := getFilterStyle (filter st);
     overlay := stickers st |}.

(** *** GIF export *)

(** The encoder of gif.js: the raster whose width and height it was
    created with, its background, the frames added so far with their
    delays, and whether [render()] was called. *)
Record Gif := mkGif {
  gifSize : Canvas;
  gifBackground : string;
  gifFrames : list (Canvas * Z);
  gifRendering : bool
}.

(** What an export acts on: the editor, the encoder once it is created,
    every composite handed to [html2canvas] (oldest first), and the files
    given to the browser for download. *)
Record World := mkWorld {
  editor : State;
  encoder : option Gif;
  rasterLog : list Composite;
  downloads : list string
}.

Definition enter (st : State) : World :=
  {| editor := st; encoder := None; rasterLog := []; downloads := [] |}.

(** An action of the export: it may throw ([None]) and it changes the
    world. *)
Definition M (A : Type) : Type := World -> option A * World.

Definition ret {A : Type} (a : A) : M A := fun w => (Some a, w).

Definition throw {A : Type} : M A := fun w => (None, w).

Definition bind {A B : Type} (m : M A) (k : A -> M B) : M B :=
  fun w => match m w with
           | (Some a, w1) => k a w1
           | (None, w1) => (None, w1)
           end.

#[local] Instance M_ret : MRet M := @ret.
#[local] Instance M_bind : MBind M := fun A B k m => bind m k.

(** A state setter. *)
Definition update (f : State -> State) : M unit :=
  fun w => (Some tt, mkWorld (f (editor w)) (encoder w) (rasterLog w) (downloads w)).

(** [for (let i = 0; i < n; i++)] over [seq 0 n], with the local variables
    the body assigns to as the accumulator. *)
Fixpoint foldM {A : Type} (body : A -> nat -> M A) (indices : list nat) (a : A) : M A :=
  match indices with
  | [] => ret a
  | i :: rest => a1 ← body a i; foldM body rest a1
  end.

Section GifExport.

(** [html2canvas(exportRef.current, {scale, onclone: burnInFilter(filterValue)})]:
    the raster of a composite, or [None] when it throws. *)
Variable html2canvas : Composite -> JS.number -> string -> option Canvas.

(** Whether [import("gif.js")] resolves. *)
Variable gifModule : bool.

Definition rasterize (sc : JS.number) (filterValue : string) : M Canvas :=
  fun w =>
    let dom := renderExport (editor w) in
    (html2canvas dom sc filterValue,
     mkWorld (editor w) (encoder w) (rasterLog w ++ [dom]) (downloads w)).

(** [new GIF({width: testCanvas.width, height: testCanvas.height,
     background: borderColor, repeat: 0, ...})] *)
Definition newGIF (testCanvas : Canvas) (background : string) : M unit :=
  fun w => (Some tt,
            mkWorld (editor w) (Some (mkGif testCanvas background [] false))
              (rasterLog w) (downloads w)).

(** [gif.addFrame(canvas, {delay})] *)
Definition addFrame (canvas : Canvas) (delay : Z) : M unit :=
  fun w =>
    match encoder w with
    | Some g =>
        (Some tt,
         mkWorld (editor w)
           (Some (mkGif (gifSize g) (gifBackground g) (gifFrames g ++ [(canvas, delay)])
                    (gifRendering g)))
           (rasterLog w) (downloads w))
    | None => (None, w)
    end.

(** [gif.render()] *)
Definition gifRender : M unit :=
  fun w =>
    match encoder w with
    | Some g =>
        (Some tt,
         mkWorld (editor w) (Some (mkGif (gifSize g) (gifBackground g) (gifFrames g) true))
           (rasterLog w) (downloads w))
    | None => (None, w)
    end.

(** [`${frameIndex}-${filter}-${borderColorState}`] *)
Definition cacheKey (frameIndex : Z) (f : FilterType) (border : string) : string :=
  pretty frameIndex +:+ "-" +:+ filterName f +:+ "-" +:+ border.

(** [getFrame] of [downloadGif]; [f], [border] and [filterValue] are the
    values its closure holds.  A hit returns a copy of the cached raster
    (the same content); a miss shows the frame, rasterizes the export
    container and caches the raster. *)
Definition getFrame (f : FilterType) (border filterValue : string) (frameIndex : Z) : M Canvas :=
  fun w =>
    let key := cacheKey frameIndex f border in
    match frameCache (editor w) !! key with
    | Some cached => (Some cached, w)
    | None =>
        (update (setDisplayFrameIndex (Some frameIndex)) ;;
         canvas ← rasterize 1.5%float filterValue;
         update (fun st => setFrameCache (<[key := canvas]> (frameCache st)) st) ;;
         ret canvas) w
    end.

(** [photos[0]?.length || 1] *)
Definition burstLengthOf (ps : list (list string)) : nat :=
  match ps with
  | [] => 1
  | first :: _ => if (length first =? 0)%nat then 1 else length first
  end.

Definition loops : nat := 3.

(** The body of the inner [for]: one frame into the encoder. *)
Definition exportFrame (f : FilterType) (border filterValue : string) (totalFrames : nat)
    (currentFrame : nat) (i : nat) : M nat :=
  canvas ← getFrame f border filterValue (Z.of_nat i);
  addFrame canvas 100 ;;
  let currentFrame := S currentFrame in
  let captureProgress :=
    JS.Math_round
      ((JS.num (Z.of_nat currentFrame) / JS.num (Z.of_nat totalFrames)) * 80)%float in
  update (setGifProgress captureProgress) ;;
  ret currentFrame.

(** The two nested [for] loops. *)
Definition exportLoops (f : FilterType) (border filterValue : string) (burstLength : nat) : M nat :=
  let totalFrames := loops * burstLength in
  foldM
    (fun currentFrame (_ : nat) =>
       foldM (exportFrame f border filterValue totalFrames) (seq 0 burstLength) currentFrame)
    (seq 0 loops) 0.

(** The [try] block of [downloadGif]; [ps], [f] and [border] are the
    [photos], [filter] and [borderColorState] of the render whose button
    was clicked. *)
Definition downloadGifBody (ps : list (list string)) (f : FilterType) (border : string) : M unit :=
  (if gifModule then ret tt else throw : M unit) ;;
  let burstLength := burstLengthOf ps in
  if (burstLength <=? 1)%nat then update (setIsExporting false)
  else
    let filterValue := filterValueOf f in
    update (setDisplayFrameIndex (Some 0%Z)) ;;
    testCanvas ← rasterize 1.5%float filterValue;
    newGIF testCanvas border ;;
    exportLoops f border filterValue burstLength ;;
    update (setDisplayFrameIndex None) ;;
    gifRender.

(** [downloadGif]: nothing happens without the export container; whatever
    is thrown inside is caught, and the export state is reset. *)
Definition downloadGif (w : World) : World :=
  let st := editor w in
  if negb (exportMounted st) then w
  else
    match (update (setIsExporting true) ;;
           downloadGifBody (photos st) (filter st) (borderColorState st)) w with
    | (Some _, w1) => w1
    | (None, w1) =>
        snd ((update (setIsExporting false) ;; update (setDisplayFrameIndex None)) w1)
    end.

(** The export container with frame position [i] shown. *)
Definition compositeAt (st : State) (i : nat) : Composite :=
  renderExport (setDisplayFrameIndex (Some (Z.of_nat i)) st).

(** Whether the cache of [st] has no raster for position [i] under the
    filter and border colour of [st]. *)
Definition missAt (st : State) (i : nat) : bool :=
  match frameCache st !! cacheKey (Z.of_nat i) (filter st) (borderColorState st) with
  | Some _ => false
  | None => true
  end.

(** The raster the export uses for position [i] from the state [st]: the
    cached one, or else a fresh raster of the export container with [i]
    shown. *)
Definition frameOf (st : State) (i : nat) : option Canvas :=
  match frameCache st !! cacheKey (Z.of_nat i) (filter st) (borderColorState st) with
  | Some cached => Some cached
  | None => html2canvas (compositeAt st i) 1.5%float (filterValueOf (filter st))
  end.

(** The encoder reports progress [p] between 0 and 1. *)
Definition gifProgressed (p : JS.number) (w : World) : World :=
  let renderProgress := JS.Math_round (p * 100)%float in
  let renderProgressScaled := (80 + JS.Math_round (renderProgress * 0.19))%float in
  snd (update (setGifProgress (JS.Math_min 99%float renderProgressScaled)) w).

(** The encoder finished: the file is handed to the browser, and a tenth of
    a second later the export state is reset. *)
Definition gifFinished (now : Z) (w : World) : World :=
  let w1 := snd (update (setGifProgress 100%float) w) in
  mkWorld (editor w1) (encoder w1) (rasterLog w1)
    (downloads w1 ++ ["photobooth-motion-" +:+ pretty now +:+ ".gif"]).

Definition gifFinishedCleanup (w : World) : World :=
  snd ((update (setIsExporting false) ;; update (setGifProgress 0%float)) w).

End GifExport.

End WithCanvas.

(** The length of the shortest burst, as the specification words the
    range of the export. *)
Definition shortestBurstLength (ps : list (list string)) : nat :=
  match ps with
  | [] => 0
  | first :: rest => fold_left Nat.min (map (@length string) rest) (length first)
  end.

Arguments State : clear implicits.
Arguments Gif : clear implicits.
Arguments World : clear implicits.
Arguments M : clear implicits.

End Editor.

(** ** The pixel transform of the filters ([applyFilterToCanvas]) *)

Module Filter.

(** A canvas: whether [getContext('2d')] gives a context, and the RGBA
    bytes of [getImageData(0, 0, width, height).data], four per pixel. *)
Record Canvas := mkCanvas {
  width : Z;
  height : Z;
  context2d : bool;
  data : list Z
}.

(** [for (let i = 0; i < data.length; i += 4)] with a body that assigns
    [data[i]], [data[i + 1]] and [data[i + 2]] from their old values.  (The
    buffer of an [ImageData] is a whole number of pixels; a shorter tail is
    left as it is.) *)
Fixpoint forPixels (body : Z -> Z -> Z -> Z * Z * Z) (d : list Z) : list Z :=
  match d with
  | r :: g :: b :: a :: rest =>
      let '(r1, g1, b1) := body r g b in
      r1 :: g1 :: b1 :: a :: forPixels body rest
  | _ => d
  end.

Definition grayscalePixel (r g b : Z) : Z * Z * Z :=
  let gray := (JS.num r * 0.299 + JS.num g * 0.587 + JS.num b * 0.114)%float in
  (JS.ToUint8Clamp gray, JS.ToUint8Clamp gray, JS.ToUint8Clamp gray).

Definition contrastFactor (contrastValue : JS.number) : JS.number :=
  ((259 * (contrastValue * 255 + 255)) / (255 * (259 - contrastValue * 255)))%float.

Definition contrastChannel (factor : JS.number) (c : Z) : Z :=
  JS.ToUint8Clamp
    (JS.Math_max 0%float (JS.Math_min 255%float (factor * (JS.num c - 128) + 128)%float)).

Definition contrastPixel (factor : JS.number) (r g b : Z) : Z * Z * Z :=
  (contrastChannel factor r, contrastChannel factor g, contrastChannel factor b).

Definition sepiaPixel (sepiaValue : JS.number) (r0 g0 b0 : Z) : Z * Z * Z :=
  let r := JS.num r0 in
  let g := JS.num g0 in
  let b := JS.num b0 in
  (JS.ToUint8Clamp
     (JS.Math_min 255%float
        ((r * (1 - 0.607 * sepiaValue)) + (g * 0.769 * sepiaValue) + (b * 0.189 * sepiaValue))%float),
   JS.ToUint8Clamp
     (JS.Math_min 255%float
        ((r * 0.349 * sepiaValue) + (g * (1 - 0.314 * sepiaValue)) + (b * 0.168 * sepiaValue))%float),
   JS.ToUint8Clamp
     (JS.Math_min 255%float
        ((r * 0.272 * sepiaValue) + (g * 0.534 * sepiaValue) + (b * (1 - 0.869 * sepiaValue)))%float)).

Definition brightnessPixel (brightnessValue : JS.number) (r g b : Z) : Z * Z * Z :=
  (JS.ToUint8Clamp (JS.Math_min 255%float (JS.num r * brightnessValue)%float),
   JS.ToUint8Clamp (JS.Math_min 255%float (JS.num g * brightnessValue)%float),
   JS.ToUint8Clamp (JS.Math_min 255%float (JS.num b * brightnessValue)%float)).

Definition saturatePixel (saturateValue : JS.number) (r0 g0 b0 : Z) : Z * Z * Z :=
  let r := JS.num r0 in
  let g := JS.num g0 in
  let b := JS.num b0 in
  let gray := (r * 0.299 + g * 0.587 + b * 0.114)%float in
  (JS.ToUint8Clamp (JS.Math_min 255%float (gray + (r - gray) * saturateValue)%float),
   JS.ToUint8Clamp (JS.Math_min 255%float (gray + (g - gray) * saturateValue)%float),
   JS.ToUint8Clamp (JS.Math_min 255%float (gray + (b - gray) * saturateValue)%float)).

(** The five passes over the buffer, each guarded as in the source. *)
Definition grayscalePass (filterValue : string) (d : list Z) : list Z :=
  if Str.includes filterValue "grayscale" then forPixels grayscalePixel d else d.

Definition contrastPass (filterValue : string) (d : list Z) : list Z :=
  if Str.includes filterValue "contrast" then
    match Str.matchCall "contrast" filterValue with
    | Some arg => forPixels (contrastPixel (contrastFactor (Str.parseFloat arg))) d
    | None => d
    end
  else d.

Definition sepiaPass (filterValue : string) (d : list Z) : list Z :=
  if Str.includes filterValue "sepia" then
    let sepiaValue :=
      match Str.matchCall "sepia" filterValue with
      | Some arg => Str.parseFloat arg
      | None => 1%float
      end in
    forPixels (sepiaPixel sepiaValue) d
  else d.

Definition brightnessPass (filterValue : string) (d : list Z) : list Z :=
  if Str.includes filterValue "brightness" then
    match Str.matchCall "brightness" filterValue with
    | Some arg => forPixels (brightnessPixel (Str.parseFloat arg)) d
    | None => d
    end
  else d.

Definition saturatePass (filterValue : string) (d : list Z) : list Z :=
  if Str.includes filterValue "saturate" then
    match Str.matchCall "saturate" filterValue with
    | Some arg => forPixels (saturatePixel (Str.parseFloat arg)) d
    | None => d
    end
  else d.

(** [applyFilterToCanvas(canvas, filterValue)]: the canvas after the call
    (the buffer is changed in place and put back). *)
Definition applyFilterToCanvas (canvas : Canvas) (filterValue : string) : Canvas :=
  if String.eqb filterValue EmptyString then canvas
  else if negb (context2d canvas) then canvas
  else
    mkCanvas (width canvas) (height canvas) (context2d canvas)
      (saturatePass filterValue
         (brightnessPass filterValue
            (sepiaPass filterValue
               (contrastPass filterValue
                  (grayscalePass filterValue (data canvas)))))).

(** The transform of a filter id: the filter string of [getFilterStyle]. *)
Definition applyFilter (canvas : Canvas) (f : FilterType) : Canvas :=
  applyFilterToCanvas canvas (Editor.filterValueOf f).

(** *** The bw transform in the words of the specification *)

(** luminance = 0.299R + 0.587G + 0.114B *)
Definition luminance (r g b : Z) : JS.number :=
  (0.299 * JS.num r + 0.587 * JS.num g + 0.114 * JS.num b)%float.

(** factor = (259*(C*255+255)) / (255*(259-C*255)) *)
Definition factorOf (C : JS.number) : JS.number :=
  ((259 * (C * 255 + 255)) / (255 * (259 - C * 255)))%float.

(** clamp(v, lo, hi) *)
Definition clamp (v lo hi : JS.number) : JS.number :=
  if PrimFloat.ltb v lo then lo else if PrimFloat.ltb hi v then hi else v.

(** output = clamp(factor*(in-128)+128, 0, 255), stored as a byte *)
Definition contrastOut (C : JS.number) (c : Z) : Z :=
  JS.ToUint8Clamp (clamp (factorOf C * (JS.num c - 128) + 128)%float 0%float 255%float).

(** The bw pixel: the luminance stored in the three channels, then the
    contrast formula with C = 1.2 on each; alpha is kept. *)
Definition bwChannel (r g b : Z) : Z :=
  contrastOut 1.2%float (JS.ToUint8Clamp (luminance r g b)).

End Filter.

(** ** The scales a sticker can take *)

Module Scales.

Definition mem (v : JS.number) (l : list JS.number) : bool :=
  existsb (PrimFloat.eqb v) l.

Definition addNew (acc : list JS.number * list JS.number) (v : JS.number) :=
  let '(seen, fresh) := acc in
  if mem v seen then acc else (seen ++ [v], fresh ++ [v]).

(** The scales reached from [frontier] by the two resize buttons, added to
    [seen] until nothing new appears. *)
Fixpoint closure (fuel : nat) (frontier seen : list JS.number) : list JS.number :=
  match fuel with
  | O => seen
  | S k =>
      let next :=
        flat_map (fun v => [Editor.newScale v 0.1%float; Editor.newScale v (-0.1)%float])
          frontier in
      let '(seen1, fresh) := fold_left addNew next (seen, []) in
      match fresh with
      | [] => seen1
      | _ => closure k fresh seen1
      end
  end.

(** Every scale a sticker created at scale 1 can get by resizing. *)
Definition scaleOrbit : list JS.number :=
  Eval vm_compute in closure 200 [1%float] [1%float].

(** Every sticker of the editor has one of these scales. *)
Definition scalesInOrbit {Canvas : Type} (st : Editor.State Canvas) : Prop :=
  Forall (fun s => In (Editor.scale s) scaleOrbit) (Editor.stickers st).

End Scales.

(** ** Concrete inputs *)

Module Examples.

(** A rasterizer that never fails and whose raster is the composite it was
    given. *)
Definition snapshot (dom : Editor.Composite) (_ : JS.number) (_ : string) :
    option Editor.Composite :=
  Some dom.

(** The events of one nominal shot of the countdown camera: ten samples a
    second for three seconds, the countdown firing at the end of each
    second. *)
Definition oneShot : list CameraCountdown.Event :=
  concat (replicate 3 (replicate 10 CameraCountdown.CaptureTick
                         ++ [CameraCountdown.CountdownTick])).

(** Two bursts of different lengths: three frames, then two. *)
Definition mixedBursts : Editor.State Editor.Composite :=
  Editor.mount [["a0"; "a1"; "a2"]; ["b0"; "b1"]] Layout4Square normal.

(** A first burst of a single frame. *)
Definition singleFrame : Editor.State Editor.Composite :=
  Editor.mount [["a0"]; ["b0"; "b1"]] Layout4Square normal.

(** A webcam that never has a frame, and one that always has. *)
Definition deadCam : Webcam := fun _ => None.

Definition liveCam : Webcam := fun k => Some ("data:image/jpeg;base64," +:+ pretty k).

(** A webcam that has no frame for the thirty samples of the first
    countdown and has one from then on. *)
Definition lateCam : Webcam :=
  fun k => if (k <? 30)%nat then None else Some "data:image/jpeg;base64,final".

(** The countdown camera just before the last tick of the first countdown,
    every sample having failed. *)
Definition beforeFinalSnap : CameraCountdown.State :=
  CameraCountdown.run 4 3 lateCam CameraCountdown.initial
    (CameraCountdown.ClickStart :: firstn 32 oneShot).

(** A sticker is added and its plus button is pressed three times. *)
Definition grownSticker : Editor.State Editor.Composite :=
  Editor.editAll
    [Editor.AddSticker 1700000000000 "star"; Editor.GrowSticker 1700000000000;
     Editor.GrowSticker 1700000000000; Editor.GrowSticker 1700000000000]
    mixedBursts.

(** A canvas of two pixels, a light one and a dark one. *)
Definition twoPixels : Filter.Canvas :=
  Filter.mkCanvas 2 1 true [200; 100; 50; 255; 10; 20; 30; 128]%Z.

End Examples.

(** ** PhotoEditor: still export, preview scale, and the editor as the
    user and the encoder drive it *)

Module EditorSession.

Import Editor.

(** [format: "png" | "jpg"] *)
Inductive Format := png | jpg.

Definition formatName (format : Format) : string :=
  match format with png => "png" | jpg => "jpg" end.

(** [`image/${format === "jpg" ? "jpeg" : "png"}`] *)
Definition mimeType (format : Format) : string :=
  "image/" +:+ match format with jpg => "jpeg" | png => "png" end.

(** [format === "jpg" ? 0.92 : 1] *)
Definition quality (format : Format) : JS.number :=
  match format with jpg => 0.92%float | png => 1%float end.

(** [calculateScale] of the preview effect (the [onLoad] handler of the
    images repeats it): the scale that is set and the wrapper height, from
    the measured sizes of the preview container and of the strip.  (When
    either element is not mounted the function returns before it sets
    anything.) *)
Definition calculateScale (containerHeight stripHeight containerWidth stripWidth : JS.number) :
    JS.number * JS.number :=
  let padding := 40%float in
  let availableHeight := (containerHeight - padding)%float in
  let newScale := (availableHeight / stripHeight)%float in
  let widthScale := ((containerWidth - padding) / stripWidth)%float in
  let newScale := JS.Math_min newScale widthScale in
  let newScale := JS.Math_max 0.4%float (JS.Math_min 0.9%float newScale) in
  (newScale, (stripHeight * newScale)%float).

Section OnCanvas.

Context {Canvas : Type}.

#[local] Existing Instance M_ret.
#[local] Existing Instance M_bind.

(** [link.download = name; link.click()] *)
Definition linkClick (name : string) : M Canvas unit :=
  fun w => (Some tt, mkWorld (editor w) (encoder w) (rasterLog w) (downloads w ++ [name])).

Variable html2canvas : Composite -> JS.number -> string -> option Canvas.
Variable gifModule : bool.

(** [canvas.toBlob(callback, type, quality)]: whether the callback gets a
    blob. *)
Variable toBlob : Canvas -> string -> JS.number -> bool.

(** The [try] block of [downloadImage]; [now] is the value of
    [Date.now()] in the callback of [toBlob], [f] the [filter] of the render
    whose button was clicked. *)
Definition downloadImageBody (now : Z) (format : Format) (f : FilterType) : M Canvas unit :=
  canvas ← rasterize html2canvas 2%float (filterValueOf f);
  if toBlob canvas (mimeType format) (quality format) then
    linkClick ("photobooth-" +:+ pretty now +:+ "." +:+ formatName format) ;;
    update (setIsExporting false)
  else update (setIsExporting false).

Definition downloadImage (now : Z) (format : Format) (w : World Canvas) : World Canvas :=
  let st := editor w in
  if negb (exportMounted st) then w
  else
    match (update (setIsExporting true) ;;
           update (setDisplayFrameIndex None) ;;
           downloadImageBody now format (filter st)) w with
    | (Some _, w1) => w1
    | (None, w1) => snd (update (setIsExporting false) w1)
    end.

(** What happens to the mounted editor: the user edits the strip, the
    parent passes another filter, a download button is clicked (the three
    buttons are disabled while [isExporting]), the encoder that was asked to
    render reports progress or its result, the timeout set by the
    [finished] handler fires. *)
Inductive Action :=
| UserEdit (e : Edit)
| ParentFilter (f : FilterType)
| ClickGif
| ClickImage (now : Z) (format : Format)
| EncoderProgress (p : JS.number)
| EncoderFinished (now : Z)
| CleanupTimeout.

Definition rendering (w : World Canvas) : bool :=
  match encoder w with
  | Some g => gifRendering g
  | None => false
  end.

Definition act (a : Action) (w : World Canvas) : World Canvas :=
  match a with
  | UserEdit e => snd (update (edit e) w)
  | ParentFilter f => snd (update (receiveFilter f) w)
  | ClickGif => if isExporting (editor w) then w else downloadGif html2canvas gifModule w
  | ClickImage now format => if isExporting (editor w) then w else downloadImage now format w
  | EncoderProgress p => if rendering w then gifProgressed p w else w
  | EncoderFinished now => if rendering w then gifFinished now w else w
  | CleanupTimeout => gifFinishedCleanup w
  end.

(** Any number of actions, oldest first. *)
Definition actAll (actions : list Action) (w : World Canvas) : World Canvas :=
  fold_left (fun w a => act a w) actions w.

(** *** Reasoning about an export *)

(** What an action guarantees from worlds that satisfy [P]: [Q] when it
    returns, [E] when it throws. *)
Definition hoare {A : Type} (P : World Canvas -> Prop) (m : M Canvas A)
    (Q : A -> World Canvas -> Prop) (E : World Canvas -> Prop) : Prop :=
  forall w, P w ->
    match m w with
    | (Some a, w') => Q a w'
    | (None, w') => E w'
    end.

(** Every raster in the cache under the current border colour is the
    raster of the strip as it is now, with the position and the filter of
    its key. *)
Definition coherent (st : State Canvas) : Prop :=
  forall (i : nat) (f : FilterType) (c : Canvas),
    frameCache st !! cacheKey (Z.of_nat i) f (borderColorState st) = Some c ->
    html2canvas (compositeAt (receiveFilter f st) i) 1.5%float (filterValueOf f) = Some c.

(** What an export keeps, whatever happens in it, of the world [w0] it
    started from: the look of the strip, the coherence of the cache, every
    raster that was cached, the files downloaded, and the rasterizations
    logged so far. *)
Definition kept (w0 w : World Canvas) : Prop :=
  sameLook (editor w0) (editor w)
  /\ coherent (editor w)
  /\ frameCache (editor w0) ⊆ frameCache (editor w)
  /\ downloads w = downloads w0
  /\ rasterLog w0 `prefix_of` rasterLog w.

(** An export whose encoder does not exist yet: the export is flagged, the
    encoder [e0] of an earlier export, if any, is as it was. *)
Definition started (e0 : option (Gif Canvas)) (w : World Canvas) : Prop :=
  isExporting (editor w) = true /\ encoder w = e0.

(** The loops of an export after [n] frames: the export is flagged and
    the encoder, not rendering yet, holds [n] frames, each with a delay of a
    tenth of a second. *)
Definition filling (n : nat) (w : World Canvas) : Prop :=
  isExporting (editor w) = true
  /\ exists g, encoder w = Some g /\ gifRendering g = false
               /\ length (gifFrames g) = n
               /\ Forall (fun fr => fr.2 = 100%Z) (gifFrames g).

(** An export that threw: no encoder was started. *)
Definition stopped (e0 : option (Gif Canvas)) (w : World Canvas) : Prop :=
  encoder w = e0 \/ exists g, encoder w = Some g /\ gifRendering g = false.

(** An export that reached [gif.render()] with [n] frames. *)
Definition launched (n : nat) (w : World Canvas) : Prop :=
  isExporting (editor w) = true
  /\ displayFrameIndex (editor w) = None
  /\ exists g, encoder w = Some g /\ gifRendering g = true
               /\ length (gifFrames g) = n
               /\ Forall (fun fr => fr.2 = 100%Z) (gifFrames g).

(** An export that was refused or that failed: the flag is down, no
    encoder was started. *)
Definition called_off (e0 : option (Gif Canvas)) (w : World Canvas) : Prop :=
  isExporting (editor w) = false /\ stopped e0 w.

(** What holds of the editor between two actions, on the photos [ps] and
    the layout [l] it was mounted with. *)
Definition settled (ps : list (list string)) (l : LayoutType) (w : World Canvas) : Prop :=
  coherent (editor w)
  /\ photos (editor w) = ps /\ layout (editor w) = l
  /\ exportMounted (editor w) = true
  /\ displayFrameIndex (editor w) = None
  /\ Forall (fun s => In (scale s) Scales.scaleOrbit) (stickers (editor w)).

End OnCanvas.

End EditorSession.

(** ** More concrete inputs *)

Module Samples.

(** [toBlob] always gives a blob. *)
Definition alwaysBlob (_ : Editor.Composite) (_ : string) (_ : JS.number) : bool := true.

(** A rasterizer that always throws. *)
Definition noRaster (_ : Editor.Composite) (_ : JS.number) (_ : string) :
    option Editor.Composite :=
  None.

End Samples.

(** ** The filter transform, pixel by pixel *)

Module PixelWise.

Import Filter.

Definition Pixel : Type := Z * Z * Z.

Definition onPixel (body : Z -> Z -> Z -> Z * Z * Z) (p : Pixel) : Pixel :=
  body p.1.1 p.1.2 p.2.

(** What each pass does to one pixel, under the guard of the pass. *)
Definition grayscaleOf (filterValue : string) (p : Pixel) : Pixel :=
  if Str.includes filterValue "grayscale" then onPixel grayscalePixel p else p.

Definition contrastOf (filterValue : string) (p : Pixel) : Pixel :=
  if Str.includes filterValue "contrast" then
    match Str.matchCall "contrast" filterValue with
    | Some arg => onPixel (contrastPixel (contrastFactor (Str.parseFloat arg))) p
    | None => p
    end
  else p.

Definition sepiaOf (filterValue : string) (p : Pixel) : Pixel :=
  if Str.includes filterValue "sepia" then
    let sepiaValue :=
      match Str.matchCall "sepia" filterValue with
      | Some arg => Str.parseFloat arg
      | None => 1%float
      end in
    onPixel (sepiaPixel sepiaValue) p
  else p.

Definition brightnessOf (filterValue : string) (p : Pixel) : Pixel :=
  if Str.includes filterValue "brightness" then
    match Str.matchCall "brightness" filterValue with
    | Some arg => onPixel (brightnessPixel (Str.parseFloat arg)) p
    | None => p
    end
  else p.

Definition saturateOf (filterValue : string) (p : Pixel) : Pixel :=
  if Str.includes filterValue "saturate" then
    match Str.matchCall "saturate" filterValue with
    | Some arg => onPixel (saturatePixel (Str.parseFloat arg)) p
    | None => p
    end
  else p.

(** The five passes on one pixel, in the order of the source. *)
Definition pixelOf (filterValue : string) (r g b : Z) : Pixel :=
  saturateOf filterValue
    (brightnessOf filterValue
       (sepiaOf filterValue
          (contrastOf filterValue
             (grayscaleOf filterValue (r, g, b))))).

Definition isByte (v : Z) : Prop := (0 <= v <= 255)%Z.

Definition bytes3 (p : Pixel) : Prop := isByte p.1.1 /\ isByte p.1.2 /\ isByte p.2.

End PixelWise.

(** ** PhotoEditor, the version that captures frames ahead of the export *)

Module PreCapture.

(** [frameIndex < burst.length ? frameIndex : burst.length - 1], the frame
    [captureFrameSync] puts into an image of the cloned document. *)
Definition frameIndexToShow (frameIndex : Z) (burst : list string) : Z :=
  if (frameIndex <? Z.of_nat (length burst))%Z then frameIndex
  else (Z.of_nat (length burst) - 1)%Z.

(** [burst[frameIndexToShow]] *)
Definition clonedSrc (frameIndex : Z) (burst : list string) : option string :=
  Editor.at_index burst (frameIndexToShow frameIndex burst).

End PreCapture.

(** ** What a burst is made of *)

(** The frames among some screenshots, in the order they were taken. *)
Definition validFrames (screenshots : list (option string)) : list string :=
  omap (fun imageSrc => if validFrame imageSrc then imageSrc else None) screenshots.

(** The screenshots [n] calls of [getScreenshot] give from call [t] on. *)
Definition screenshots (cam : Webcam) (t n : nat) : list (option string) :=
  map cam (seq t n).

Module CameraFacts.

(** The burst camera between two events of a session that has started:
    the settings are hidden. *)
Definition locked (st : CameraBurst.State) : Prop :=
  CameraBurst.controlsShown st = false.

(** The burst camera after a countdown that committed nothing: it still
    says it is capturing, and no countdown runs. *)
Definition stalled (st : CameraBurst.State) : Prop :=
  CameraBurst.isCapturing st = true /\ CameraBurst.timer st = None.

(** A burst of the burst camera: the frames among thirty consecutive
    screenshots, one at least. *)
Definition burstOf (cam : Webcam) (burst : list string) : Prop :=
  exists t, burst = validFrames (screenshots cam t CameraBurst.BURST_COUNT)
            /\ (1 <= length burst <= CameraBurst.BURST_COUNT)%nat.

(** A burst of the countdown camera: the frames among the consecutive
    screenshots of one countdown, the final snap included. *)
Definition sampledBurst (cam : Webcam) (burst : list string) : Prop :=
  exists t n, burst = validFrames (screenshots cam t (S n)).

(** The countdown camera between two events: the buffer holds the frames
    among the screenshots taken since some call, and every burst is a
    sampled burst. *)
Definition sampling (cam : Webcam) (st : CameraCountdown.State) : Prop :=
  (exists t, (t <= CameraCountdown.shots st)%nat
             /\ CameraCountdown.burstRef st
                = validFrames (screenshots cam t (CameraCountdown.shots st - t)))
  /\ Forall (sampledBurst cam) (CameraCountdown.photos st).

(** The countdown camera never holds more bursts than were asked for, and
    its intervals only run while bursts are missing. *)
Definition bounded (photoCount : nat) (st : CameraCountdown.State) : Prop :=
  (length (CameraCountdown.photos st) <= photoCount)%nat
  /\ (forall c, CameraCountdown.timers st = Some c ->
        (length (CameraCountdown.photos st) < photoCount)%nat
        /\ CameraCountdown.isCapturing st = true).

End CameraFacts.

(** ** The booth page

    The page with the camera it mounts (the version that calls
    [onComplete]) and the props it gives the editor. *)

Module Booth.

(** [type Step = "layout" | "camera" | "edit"] *)
Inductive Step := layoutStep | cameraStep | editStep.

Record State := mkState {
  step : Step;
  selectedLayout : option LayoutType;
  capturedPhotos : list (list string);
  selectedFilter : FilterType;
  (** the state of the [Camera] the page has mounted *)
  camera : CameraBurst.State
}.

Definition setStep (v : Step) (st : State) : State :=
  mkState v (selectedLayout st) (capturedPhotos st) (selectedFilter st) (camera st).
Definition setSelectedLayout (v : option LayoutType) (st : State) : State :=
  mkState (step st) v (capturedPhotos st) (selectedFilter st) (camera st).
Definition setCapturedPhotos (v : list (list string)) (st : State) : State :=
  mkState (step st) (selectedLayout st) v (selectedFilter st) (camera st).
Definition setSelectedFilter (v : FilterType) (st : State) : State :=
  mkState (step st) (selectedLayout st) (capturedPhotos st) v (camera st).
Definition setCamera (v : CameraBurst.State) (st : State) : State :=
  mkState (step st) (selectedLayout st) (capturedPhotos st) (selectedFilter st) v.

Definition initial : State :=
  {| step := layoutStep; selectedLayout := None; capturedPhotos := [];
     selectedFilter := normal; camera := CameraBurst.initial |}.

Definition handleLayoutSelect (layout : LayoutType) (st : State) : State :=
  setStep cameraStep (setSelectedLayout (Some layout) st).

Definition handleCaptureComplete (photos : list (list string)) (f : FilterType) (st : State) :
    State :=
  setStep editStep (setSelectedFilter f (setCapturedPhotos photos st)).

(** What the page renders: the layout selector, the camera with its
    [photoCount], the editor with its props, or nothing. *)
Inductive View :=
| LayoutSelectorView
| CameraView (photoCount : nat)
| PhotoEditorView (photos : list (list string)) (layout : LayoutType) (f : FilterType)
| NothingView.

Definition view (st : State) : View :=
  match step st, selectedLayout st with
  | layoutStep, _ => LayoutSelectorView
  | cameraStep, Some l => CameraView (LAYOUT_CONFIG l)
  | editStep, Some l => PhotoEditorView (capturedPhotos st) l (selectedFilter st)
  | _, None => NothingView
  end.

(** [timerDuration = 3]: the page passes none. *)
Definition timerDuration : Z := 3.

Inductive Event :=
| SelectLayout (l : LayoutType)
| CameraEvent (ev : CameraBurst.Event).

Definition onComplete (s : Signal) (st : State) : State :=
  match s with OnComplete photos f => handleCaptureComplete photos f st end.

Section Page.

Variable cam : Webcam.

(** An event reaches the component that is rendered; the camera is
    mounted afresh when the page turns to it. *)
Definition dispatch (st : State) (ev : Event) : State :=
  match ev, view st with
  | SelectLayout l, LayoutSelectorView =>
      setCamera CameraBurst.initial (handleLayoutSelect l st)
  | CameraEvent e, CameraView photoCount =>
      let '(c, out) := CameraBurst.step photoCount timerDuration cam (camera st) e in
      fold_left (fun s sig => onComplete sig s) out (setCamera c st)
  | _, _ => st
  end.

Definition run (st : State) (evs : list Event) : State := fold_left dispatch evs st.

(** What holds of the page between two events. *)
Definition wellFormed (st : State) : Prop :=
  match step st with
  | layoutStep => True
  | cameraStep =>
      exists l, selectedLayout st = Some l
                /\ CameraBurst.capturing_inv (LAYOUT_CONFIG l) (camera st)
                /\ (length (CameraBurst.photos (camera st)) < LAYOUT_CONFIG l)%nat
                /\ nonEmptyBursts (CameraBurst.photos (camera st))
  | editStep =>
      exists l, selectedLayout st = Some l
                /\ length (capturedPhotos st) = LAYOUT_CONFIG l
                /\ nonEmptyBursts (capturedPhotos st)
  end.

End Page.

Definition rank (s : Step) : nat :=
  match s with layoutStep => 0 | cameraStep => 1 | editStep => 2 end.

End Booth.

(** ** Counting the ticks of the countdown camera *)

Module CountdownFacts.

Definition isCountdownTick (ev : CameraCountdown.Event) : bool :=
  match ev with CameraCountdown.CountdownTick => true | _ => false end.

(** How many times the countdown interval has fired. *)
Definition countdownTicks (evs : list CameraCountdown.Event) : nat :=
  length (List.filter isCountdownTick evs).

(** The countdown camera after [q] whole countdowns of [d] ticks and [r]
    ticks of the next one. *)
Definition counted (photoCount : nat) (d : Z) (q r : nat) (st : CameraCountdown.State) : Prop :=
  (r < Z.to_nat d)%nat
  /\ CameraCountdown.isCapturing st = true
  /\ length (CameraCountdown.photos st) = Nat.min photoCount q
  /\ ((q < photoCount)%nat -> CameraCountdown.timers st = Some (d - Z.of_nat r)%Z)
  /\ ((photoCount <= q)%nat -> CameraCountdown.timers st = None).

End CountdownFacts.

(** * Properties *)

(** ** Frame selection *)

Section FrameSelection.

Import Editor.
Local Open Scope Z_scope.

Lemma at_index_last (burst : list string) :
  at_index burst (Z.of_nat (length burst) - 1) = last burst.
Proof.
  unfold at_index. destruct burst as [|s burst].
  - reflexivity.
  - assert (Hlt : (Z.of_nat (length (s :: burst)) - 1 <? 0)%Z = false)
      by (apply Z.ltb_ge; simpl length; lia).
    rewrite Hlt.
    replace (Z.to_nat (Z.of_nat (length (s :: burst)) - 1)) with (length burst)
      by (simpl length; lia).
    rewrite last_lookup. reflexivity.
Qed.

Lemma last_is_Some (burst : list string) : burst <> [] -> is_Some (last burst).
Proof.
  intros Hne. destruct burst as [|s burst] using rev_ind; [congruence|].
  rewrite last_snoc. eauto.
Qed.

(** C7: for a non-empty burst, the frame shown when the Render Frame Index
    is null is the frame shown when it is [burst.length - 1]: both are the
    last frame of the burst. *)
Theorem null_index_shows_last_frame (burst : list string) :
  burst <> [] ->
  src None burst = src (Some (Z.of_nat (length burst) - 1)) burst
  /\ src None burst = last burst
  /\ is_Some (src None burst).
Proof.
  intros Hne. unfold src, frameIndex.
  rewrite Z.min_id, at_index_last.
  auto using last_is_Some.
Qed.

Lemma null_index_shows_last_frame_witness :
  src None ["f0"; "f1"; "f2"] = src (Some (Z.of_nat (length ["f0"; "f1"; "f2"]) - 1)) ["f0"; "f1"; "f2"]
  /\ src None ["f0"; "f1"; "f2"] = last ["f0"; "f1"; "f2"]
  /\ is_Some (src None ["f0"; "f1"; "f2"]).
Proof. apply (null_index_shows_last_frame ["f0"; "f1"; "f2"]). discriminate. Defined.

(** A position [i >= 0] of a non-empty burst is read inside the burst. *)
Lemma src_in_bounds (burst : list string) (i : Z) :
  burst <> [] -> 0 <= i ->
  0 <= frameIndex (Some i) burst < Z.of_nat (length burst)
  /\ src (Some i) burst = burst !! Z.to_nat (frameIndex (Some i) burst)
  /\ is_Some (src (Some i) burst).
Proof.
  intros Hne Hi.
  assert (Hlen : (0 < length burst)%nat) by (destruct burst; [congruence | simpl; lia]).
  assert (H0 : 0 <= frameIndex (Some i) burst < Z.of_nat (length burst)) by (simpl; lia).
  split; [exact H0|].
  unfold src, at_index.
  assert (Hlt : (frameIndex (Some i) burst <? 0)%Z = false) by (apply Z.ltb_ge; lia).
  rewrite Hlt. split; [reflexivity|].
  apply lookup_lt_is_Some. lia.
Qed.

(** C10: for a non-empty burst and any Render Frame Index [i], the index
    that is read is [min(i, burst.length - 1)], which is never past the end;
    for a position [i >= 0], however far beyond the burst, the read is inside
    the burst and yields a frame. *)
Theorem frame_selection_in_bounds (burst : list string) (i : Z) :
  burst <> [] ->
  frameIndex (Some i) burst = Z.min i (Z.of_nat (length burst) - 1)
  /\ (frameIndex (Some i) burst < Z.of_nat (length burst))%Z
  /\ ((0 <= i)%Z ->
      (0 <= frameIndex (Some i) burst)%Z
      /\ src (Some i) burst = burst !! Z.to_nat (frameIndex (Some i) burst)
      /\ is_Some (src (Some i) burst)).
Proof.
  intros Hne.
  assert (Hlen : (0 < length burst)%nat) by (destruct burst; [congruence | simpl; lia]).
  split; [reflexivity|]. split; [simpl; lia|].
  intros Hi. destruct (src_in_bounds burst i Hne Hi) as ([H0 _] & Hsrc & Hsome). auto.
Qed.

Lemma frame_selection_in_bounds_witness :
  frameIndex (Some 7%Z) ["f0"; "f1"] = Z.min 7 (Z.of_nat (length ["f0"; "f1"]) - 1)
  /\ (frameIndex (Some 7%Z) ["f0"; "f1"] < Z.of_nat (length ["f0"; "f1"]))%Z
  /\ (0 <= frameIndex (Some 7%Z) ["f0"; "f1"])%Z
  /\ src (Some 7%Z) ["f0"; "f1"] = ["f0"; "f1"] !! Z.to_nat (frameIndex (Some 7%Z) ["f0"; "f1"])
  /\ is_Some (src (Some 7%Z) ["f0"; "f1"]).
Proof.
  destruct (frame_selection_in_bounds ["f0"; "f1"] 7) as (Hmin & Hend & Hin); [discriminate|].
  split; [exact Hmin|]. split; [exact Hend|]. apply Hin. lia.
Defined.

(** With no empty burst, every image of the strip has a frame, whatever
    position is shown. *)
Lemma images_in_bounds (ps : list (list string)) (i : Z) :
  0 <= i -> Forall (fun burst => burst <> []) ps ->
  Forall is_Some (map (src (Some i)) ps).
Proof.
  intros Hi Hps. apply Forall_map. eapply Forall_impl; [exact Hps|].
  intros burst Hne. cbn beta. apply (src_in_bounds burst i Hne Hi).
Qed.

(** A position past the end of a burst shows the last frame of the burst. *)
Lemma src_past_end (burst : list string) (i : Z) :
  (Z.of_nat (length burst) - 1 <= i)%Z -> src (Some i) burst = last burst.
Proof.
  intros Hi. unfold src, frameIndex. rewrite Z.min_r by exact Hi.
  apply at_index_last.
Qed.

End FrameSelection.

(** ** Sticker resize *)

Section StickerScale.

Import Editor.
Local Open Scope float_scope.

Lemma SFcompare_antisym (a b : spec_float) :
  SFcompare b a = option_map CompOpp (SFcompare a b).
Proof.
  destruct a as [sa|sa| |sa ma ea], b as [sb|sb| |sb mb eb]; simpl;
    try reflexivity;
    try (destruct sa; reflexivity); try (destruct sb; reflexivity);
    try (destruct sa, sb; reflexivity).
  destruct sa, sb; simpl; try reflexivity;
    rewrite (Z.compare_antisym ea eb);
    destruct (ea ?= eb)%Z; simpl; try reflexivity;
    pose proof (Pos.compare_cont_antisym ma mb Eq) as Hc; simpl in Hc;
    rewrite <- Hc; destruct (Pos.compare_cont Eq ma mb); reflexivity.
Qed.

(** The order of binary64 numbers is asymmetric. *)
Lemma ltb_asym (a b : float) : (a <? b) = true -> (b <? a) = false.
Proof.
  rewrite !ltb_spec. unfold SFltb. rewrite (SFcompare_antisym (Prim2SF a) (Prim2SF b)).
  destruct (SFcompare (Prim2SF a) (Prim2SF b)) as [[]|]; simpl; congruence.
Qed.

(** Whatever the scale and the step, the new scale is neither above 3 nor
    below 0.5. *)
Lemma newScale_not_outside (s delta : float) :
  (3 <? newScale s delta) = false /\ (newScale s delta <? 0.5) = false.
Proof.
  unfold newScale. set (v := s + delta).
  unfold JS.Math_min.
  change (JS.is_nan 3) with false. change (JS.is_zero 3) with false. simpl orb. simpl andb.
  destruct (JS.is_nan v) eqn:Hnan.
  { split; reflexivity. }
  destruct (v <? 3) eqn:Hlt3.
  - unfold JS.Math_max. change (JS.is_nan 0.5) with false.
    change (JS.is_neg_zero 0.5) with false. rewrite Hnan. simpl orb. simpl andb.
    destruct (0.5 <? v) eqn:Hgt.
    + split; apply ltb_asym; assumption.
    + split; reflexivity.
  - split; reflexivity.
Qed.

Lemma orbit_closed (v : float) :
  In v Scales.scaleOrbit ->
  In (newScale v 0.1) Scales.scaleOrbit /\ In (newScale v (-0.1)) Scales.scaleOrbit.
Proof.
  unfold Scales.scaleOrbit. intros H.
  repeat (destruct H as [<-|H];
          [split; vm_compute; repeat (first [left; reflexivity | right]) |]).
  destruct H.
Qed.

Lemma orbit_bounds (v : float) :
  In v Scales.scaleOrbit -> (0.5 <=? v) = true /\ (v <=? 3) = true.
Proof.
  unfold Scales.scaleOrbit. intros H.
  repeat (destruct H as [<-|H]; [split; reflexivity |]).
  destruct H.
Qed.

Context {Canvas : Type}.

#[local] Abbreviation scalesInOrbit := (@Scales.scalesInOrbit Canvas).

Lemma mount_in_orbit ps l f : scalesInOrbit (mount ps l f).
Proof. constructor. Qed.

Lemma edit_in_orbit (e : Edit) (st : State Canvas) :
  scalesInOrbit st -> scalesInOrbit (edit e st).
Proof.
  unfold Scales.scalesInOrbit. intros Hst.
  destruct e as [c|now c|i|i|i|i nx ny]; cbn [edit stickers setBorderColor addSticker
    removeSticker resizeSticker updateStickerPosition clearFrameCache setFrameCache
    setStickers setBorderColorState].
  - exact Hst.
  - apply Forall_app. split; [exact Hst|].
    constructor; [|constructor]. cbn [scale]. unfold Scales.scaleOrbit. left. reflexivity.
  - rewrite Stdlib.Lists.List.Forall_forall in *. intros s Hs.
    apply filter_In in Hs. apply Hst, Hs.
  - rewrite Stdlib.Lists.List.Forall_forall in *. intros s Hs.
    apply in_map_iff in Hs as (s0 & <- & Hs0). unfold resized.
    destruct (id s0 =? i)%Z; cbn [scale].
    + apply (proj1 (orbit_closed _ (Hst _ Hs0))).
    + apply Hst, Hs0.
  - rewrite Stdlib.Lists.List.Forall_forall in *. intros s Hs.
    apply in_map_iff in Hs as (s0 & <- & Hs0). unfold resized.
    destruct (id s0 =? i)%Z; cbn [scale].
    + apply (proj2 (orbit_closed _ (Hst _ Hs0))).
    + apply Hst, Hs0.
  - rewrite Stdlib.Lists.List.Forall_forall in *. intros s Hs.
    apply in_map_iff in Hs as (s0 & <- & Hs0). unfold moved.
    destruct (id s0 =? i)%Z; cbn [scale]; apply Hst, Hs0.
Qed.

Lemma editAll_in_orbit (es : list Edit) (st : State Canvas) :
  scalesInOrbit st -> scalesInOrbit (editAll es st).
Proof.
  revert st. induction es as [|e es IH]; intros st Hst; simpl.
  - exact Hst.
  - apply IH, edit_in_orbit, Hst.
Qed.

(** C8: sticker resize is clamped to [0.5, 3.0].  Every sticker of the
    editor, after any sequence of edits (stickers added, removed, dragged,
    grown or shrunk by a tenth any number of times), has a scale between 0.5
    and 3; whatever scale a sticker starts from, after any sequence of
    resizes, by +0.1, -0.1 or any other steps, its scale is neither above 3
    nor below 0.5; and at a bound a further resize in the same direction
    leaves the sticker as it is. *)
Theorem sticker_scale_clamped :
  (forall ps l f (es : list Edit) (s : Sticker),
      In s (stickers (editAll es (mount (Canvas := Canvas) ps l f))) ->
      (0.5 <=? scale s) = true /\ (scale s <=? 3) = true)
  /\ (forall (v : float) (deltas : list float),
         deltas <> [] ->
         (3 <? fold_left newScale deltas v) = false
         /\ (fold_left newScale deltas v <? 0.5) = false)
  /\ (forall s : Sticker, scale s = 3 -> resized (id s) 0.1 s = s)
  /\ (forall s : Sticker, scale s = 0.5 -> resized (id s) (-0.1) s = s).
Proof.
  split; [|split; [|split]].
  - intros ps l f es s Hs. apply orbit_bounds.
    pose proof (editAll_in_orbit es _ (mount_in_orbit ps l f)) as Hall.
    unfold scalesInOrbit in Hall. rewrite Stdlib.Lists.List.Forall_forall in Hall. apply Hall, Hs.
  - intros v deltas Hne.
    destruct deltas as [|d deltas _] using rev_ind; [congruence|].
    rewrite fold_left_app. apply newScale_not_outside.
  - intros [i c px py sc]. simpl. intros ->. unfold resized. simpl.
    rewrite Z.eqb_refl. reflexivity.
  - intros [i c px py sc]. simpl. intros ->. unfold resized. simpl.
    rewrite Z.eqb_refl. reflexivity.
Qed.

End StickerScale.

Lemma sticker_scale_clamped_witness :
  In (Editor.mkSticker 1700000000000 "star" 0%float 0%float 1.3000000000000003%float)
    (Editor.stickers Examples.grownSticker)
  /\ (0.5 <=? 1.3000000000000003)%float = true
  /\ (1.3000000000000003 <=? 3)%float = true.
Proof.
  split; [left; reflexivity|].
  apply (proj1 (sticker_scale_clamped (Canvas := Editor.Composite))
           [["a0"; "a1"; "a2"]; ["b0"; "b1"]] Layout4Square normal
           [Editor.AddSticker 1700000000000 "star"; Editor.GrowSticker 1700000000000;
            Editor.GrowSticker 1700000000000; Editor.GrowSticker 1700000000000]
           (Editor.mkSticker 1700000000000 "star" 0%float 0%float 1.3000000000000003%float)).
  left. reflexivity.
Defined.

Example grown_sticker_scale :
  map Editor.scale (Editor.stickers Examples.grownSticker) = [1.3000000000000003%float].
Proof. vm_compute. reflexivity. Qed.

(** ** Cache keys *)

Section CacheKeys.

Import Editor.

Lemma pretty_N_char_not_dash (x : N) : pretty_N_char x <> "-"%char.
Proof. unfold pretty_N_char. repeat case_match; discriminate. Qed.

Lemma pretty_N_go_dashFree (x : N) : forall s, Str.dashFree s -> Str.dashFree (pretty_N_go x s).
Proof.
  induction (N.lt_wf_0 x) as [x _ IH]. intros s Hs.
  destruct (decide (x = 0%N)) as [->|Hx].
  - rewrite pretty_N_go_0. exact Hs.
  - rewrite pretty_N_go_step by lia.
    apply IH.
    + apply N.div_lt; lia.
    + split; [apply pretty_N_char_not_dash | exact Hs].
Qed.

Lemma pretty_position_dashFree (i : nat) : Str.dashFree (pretty (Z.of_nat i)).
Proof.
  destruct (Z.of_nat i) as [|p|p] eqn:Hi; [| |lia].
  - simpl. split; [discriminate | exact I].
  - change (pretty (Z.pos p)) with (pretty (N.pos p)).
    unfold pretty, pretty_N. destruct (decide (N.pos p = 0%N)); [discriminate|].
    apply pretty_N_go_dashFree. exact I.
Qed.

Lemma split_at_dash (a b r1 r2 : string) :
  Str.dashFree a -> Str.dashFree b ->
  a +:+ "-" +:+ r1 = b +:+ "-" +:+ r2 -> a = b.
Proof.
  revert b. induction a as [|c a IH]; intros [|d b] Ha Hb Heq; simpl in *.
  - reflexivity.
  - injection Heq as Hc _. destruct Hb as [Hd _]. congruence.
  - injection Heq as Hc _. destruct Ha as [Hd _]. congruence.
  - injection Heq as -> Hrest. f_equal. apply IH; tauto.
Qed.

(** Distinct positions have distinct cache keys. *)
Lemma cacheKey_inj (i j : nat) (f : FilterType) (border : string) :
  cacheKey (Z.of_nat i) f border = cacheKey (Z.of_nat j) f border -> i = j.
Proof.
  unfold cacheKey. intros Heq.
  apply split_at_dash in Heq; auto using pretty_position_dashFree.
  apply (inj pretty) in Heq. lia.
Qed.

End CacheKeys.

(** ** GIF export *)

Section ExportFacts.

Import Editor.

Context {Canvas : Type}.
Variable html2canvas : Composite -> JS.number -> string -> option Canvas.
Variable gifModule : bool.

Abbreviation State := (Editor.State Canvas).
Abbreviation World := (Editor.World Canvas).

Lemma sameLook_refl (st : State) : sameLook st st.
Proof. repeat split. Qed.

Lemma sameLook_trans (a b c : State) : sameLook a b -> sameLook b c -> sameLook a c.
Proof. unfold sameLook. intuition congruence. Qed.

Lemma sameLook_compositeAt (st st' : State) (i : nat) :
  sameLook st st' -> compositeAt st' i = compositeAt st i.
Proof.
  intros (Hp & Hl & Hf & Hb & Hs & _). unfold compositeAt, renderExport. simpl.
  rewrite Hp, Hl, Hf, Hb, Hs. reflexivity.
Qed.

Lemma missAt_frameOf (st : State) (i : nat) :
  missAt st i = false -> frameOf html2canvas st i = frameCache st !! cacheKey (Z.of_nat i) (filter st) (borderColorState st).
Proof.
  unfold missAt, frameOf. destruct (frameCache st !! _); [reflexivity | discriminate].
Qed.

(** One pass through the body of the inner loop. *)
Lemma exportFrame_spec (total cf i : nat) (w : World) (g : Gif Canvas) (c : Canvas) :
  encoder w = Some g ->
  frameOf html2canvas (editor w) i = Some c ->
  exists w',
    exportFrame html2canvas (filter (editor w)) (borderColorState (editor w))
      (filterValueOf (filter (editor w))) total cf i w = (Some (S cf), w')
    /\ encoder w' = Some (mkGif (gifSize g) (gifBackground g)
                           (gifFrames g ++ [(c, 100%Z)]) (gifRendering g))
    /\ sameLook (editor w) (editor w')
    /\ downloads w' = downloads w
    /\ rasterLog w' = rasterLog w ++ (if missAt (editor w) i then [compositeAt (editor w) i] else [])
    /\ frameCache (editor w') !! cacheKey (Z.of_nat i) (filter (editor w)) (borderColorState (editor w)) = Some c
    /\ (forall j, j <> i ->
          frameCache (editor w') !! cacheKey (Z.of_nat j) (filter (editor w)) (borderColorState (editor w))
          = frameCache (editor w) !! cacheKey (Z.of_nat j) (filter (editor w)) (borderColorState (editor w))).
Proof.
  intros Henc Hframe.
  unfold frameOf in Hframe. unfold missAt.
  unfold exportFrame, getFrame, mbind, M_bind, bind.
  destruct (frameCache (editor w) !! cacheKey (Z.of_nat i) (filter (editor w))
              (borderColorState (editor w))) as [cached|] eqn:Hlook.
  - injection Hframe as ->. unfold addFrame. rewrite Henc. simpl.
    eexists. split; [reflexivity|]. simpl.
    repeat split; auto using app_nil_r.
  - unfold rasterize, update, ret. simpl.
    change (renderExport (setDisplayFrameIndex (Some (Z.of_nat i)) (editor w)))
      with (compositeAt (editor w) i).
    rewrite Hframe. unfold addFrame. simpl. rewrite Henc. simpl.
    eexists. split; [reflexivity|]. simpl.
    repeat split.
    + apply lookup_insert_eq.
    + intros j Hj. apply lookup_insert_ne. intros Heq.
      apply cacheKey_inj in Heq. congruence.
Qed.


Lemma sameLook_frameOf (st st' : State) (j : nat) :
  sameLook st st' ->
  frameCache st' !! cacheKey (Z.of_nat j) (filter st) (borderColorState st)
  = frameCache st !! cacheKey (Z.of_nat j) (filter st) (borderColorState st) ->
  frameOf html2canvas st' j = frameOf html2canvas st j
  /\ missAt st' j = missAt st j.
Proof.
  intros Hlook Hcache. unfold frameOf, missAt.
  rewrite (sameLook_compositeAt _ _ j Hlook).
  destruct Hlook as (_ & _ & Hf & Hb & _). rewrite Hf, Hb, Hcache. split; reflexivity.
Qed.

(** The inner loop over distinct positions [idx]: it adds the frame of
    each position, in order, and rasterizes the positions the cache misses. *)
Lemma innerLoop_spec (raster : nat -> Canvas) (total : nat) (idx : list nat) :
  NoDup idx ->
  forall (cf : nat) (w : World) (g : Gif Canvas),
    encoder w = Some g ->
    (forall i, In i idx -> frameOf html2canvas (editor w) i = Some (raster i)) ->
    exists w',
      foldM (exportFrame html2canvas (filter (editor w)) (borderColorState (editor w))
               (filterValueOf (filter (editor w))) total) idx cf w
      = (Some (cf + length idx), w')
      /\ encoder w' = Some (mkGif (gifSize g) (gifBackground g)
                             (gifFrames g ++ map (fun i => (raster i, 100%Z)) idx)
                             (gifRendering g))
      /\ sameLook (editor w) (editor w')
      /\ downloads w' = downloads w
      /\ rasterLog w' = rasterLog w
                        ++ map (compositeAt (editor w)) (List.filter (missAt (editor w)) idx)
      /\ (forall i, In i idx -> missAt (editor w') i = false)
      /\ (forall j, ~ In j idx -> missAt (editor w') j = missAt (editor w) j)
      /\ (forall j, frameOf html2canvas (editor w') j = frameOf html2canvas (editor w) j).
Proof.
  induction 1 as [|i idx Hni Hnd IH]; intros cf w g Henc Hframes.
  2: rewrite list_elem_of_In in Hni.
  - exists w. simpl. rewrite Nat.add_0_r, !app_nil_r.
    destruct g. repeat split; auto using sameLook_refl. intros i [].
  - destruct (exportFrame_spec total cf i w g (raster i) Henc (Hframes i (or_introl eq_refl)))
      as (w1 & Hrun & Henc1 & Hlook1 & Hdl1 & Hlog1 & Hhit1 & Hother1).
    assert (Hsame1 : forall j, frameOf html2canvas (editor w1) j = frameOf html2canvas (editor w) j).
    { intros j. destruct (decide (j = i)) as [->|Hj].
      - unfold frameOf at 1. destruct Hlook1 as (_ & _ & Hf & Hb & _).
        rewrite Hf, Hb, Hhit1. symmetry. apply Hframes. left. reflexivity.
      - apply sameLook_frameOf; auto. }
    assert (Hmiss1 : forall j, j <> i -> missAt (editor w1) j = missAt (editor w) j).
    { intros j Hj. apply sameLook_frameOf; auto. }
    assert (Hm1 : missAt (editor w1) i = false).
    { unfold missAt. destruct Hlook1 as (_ & _ & Hf & Hb & _). rewrite Hf, Hb, Hhit1. reflexivity. }
    destruct (IH (S cf) w1 _ Henc1)
      as (w2 & Hrun2 & Henc2 & Hlook2 & Hdl2 & Hlog2 & Hhit2 & Hkeep2 & Hsame2).
    { intros j Hj. rewrite Hsame1. apply Hframes. right. exact Hj. }
    exists w2. split.
    { simpl. unfold mbind, M_bind, bind. rewrite Hrun.
      pose proof Hlook1 as (_ & _ & Hf & Hb & _). rewrite <- Hf, <- Hb.
      rewrite Hrun2. f_equal. f_equal. simpl. lia. }
    split.
    { rewrite Henc2. simpl. rewrite <- app_assoc. reflexivity. }
    split; [eapply sameLook_trans; eauto|].
    split; [congruence|].
    split.
    { rewrite Hlog2, Hlog1, <- app_assoc. f_equal.
      assert (Hfilter : List.filter (missAt (editor w1)) idx = List.filter (missAt (editor w)) idx).
      { apply filter_ext_in. intros j Hj. apply Hmiss1. intros ->. contradiction. }
      rewrite Hfilter.
      rewrite (map_ext (compositeAt (editor w1)) (compositeAt (editor w)))
        by (intros j; apply sameLook_compositeAt; exact Hlook1).
      simpl. destruct (missAt (editor w) i); reflexivity. }
    split.
    { intros j [<-|Hj]; [|apply Hhit2; exact Hj].
      rewrite Hkeep2 by exact Hni. exact Hm1. }
    split.
    { intros j Hj. rewrite Hkeep2 by (intros Hin; apply Hj; right; exact Hin).
      apply Hmiss1. intros ->. apply Hj. left. reflexivity. }
    intros j. rewrite Hsame2. apply Hsame1.
Qed.


Lemma filter_none {A : Type} (p : A -> bool) (l : list A) :
  (forall a, In a l -> p a = false) -> List.filter p l = [].
Proof.
  induction l as [|a l IH]; intros Hall; [reflexivity|]. simpl.
  rewrite (Hall a (or_introl eq_refl)). apply IH. intros b Hb. apply Hall. right. exact Hb.
Qed.

(** The three loops: the frames of positions [0..k-1], three times over;
    only the first loop can miss the cache. *)
Lemma exportLoops_spec (raster : nat -> Canvas) (k : nat) (w : World) (g : Gif Canvas) :
  encoder w = Some g ->
  (forall i, (i < k)%nat -> frameOf html2canvas (editor w) i = Some (raster i)) ->
  exists w',
    exportLoops html2canvas (filter (editor w)) (borderColorState (editor w))
      (filterValueOf (filter (editor w))) k w = (Some (3 * k), w')
    /\ encoder w' = Some (mkGif (gifSize g) (gifBackground g)
                           (gifFrames g
                              ++ concat (replicate 3 (map (fun i => (raster i, 100%Z)) (seq 0 k))))
                           (gifRendering g))
    /\ sameLook (editor w) (editor w')
    /\ downloads w' = downloads w
    /\ rasterLog w' = rasterLog w
                      ++ map (compositeAt (editor w)) (List.filter (missAt (editor w)) (seq 0 k)).
Proof.
  intros Henc Hframes.
  assert (Hin : forall i, In i (seq 0 k) -> frameOf html2canvas (editor w) i = Some (raster i)).
  { intros i Hi. apply Hframes. apply in_seq in Hi. lia. }
  pose proof (NoDup_seq 0 k) as Hnd.
  set (total := loops * k).
  destruct (innerLoop_spec raster total (seq 0 k) Hnd 0 w g Henc Hin)
    as (w1 & Hrun1 & Henc1 & Hlook1 & Hdl1 & Hlog1 & Hhit1 & _ & Hsame1).
  destruct (innerLoop_spec raster total (seq 0 k) Hnd (0 + length (seq 0 k)) w1 _ Henc1)
    as (w2 & Hrun2 & Henc2 & Hlook2 & Hdl2 & Hlog2 & Hhit2 & _ & Hsame2).
  { intros i Hi. rewrite Hsame1. apply Hin, Hi. }
  destruct (innerLoop_spec raster total (seq 0 k) Hnd
              (0 + length (seq 0 k) + length (seq 0 k)) w2 _ Henc2)
    as (w3 & Hrun3 & Henc3 & Hlook3 & Hdl3 & Hlog3 & _ & _ & _).
  { intros i Hi. rewrite Hsame2, Hsame1. apply Hin, Hi. }
  pose proof Hlook1 as (_ & _ & Hf1 & Hb1 & _).
  pose proof Hlook2 as (_ & _ & Hf2 & Hb2 & _).
  exists w3. split.
  { unfold exportLoops. cbv zeta. fold total. change (seq 0 loops) with [0; 1; 2].
    cbn [foldM]. unfold mbind, M_bind, bind. rewrite Hrun1.
    rewrite <- Hf1, <- Hb1. rewrite Hrun2.
    rewrite <- Hf2, <- Hb2. rewrite Hrun3.
    unfold ret. f_equal. f_equal. rewrite length_seq. lia. }
  split.
  { rewrite Henc3. simpl. rewrite app_nil_r, <- !app_assoc. reflexivity. }
  split; [eauto using sameLook_trans|].
  split; [congruence|].
  rewrite Hlog3, Hlog2, Hlog1.
  rewrite (filter_none _ _ Hhit1), (filter_none _ _ Hhit2). simpl. rewrite !app_nil_r. reflexivity.
Qed.

Lemma burstLengthOf_first (ps : list (list string)) :
  (1 < burstLengthOf ps)%nat ->
  exists first rest, ps = first :: rest /\ burstLengthOf ps = length first.
Proof.
  destruct ps as [|first rest]; simpl; [lia|].
  destruct (length first =? 0)%nat; [lia|]. eauto.
Qed.



End ExportFacts.

Section ExportExamples.

Import Editor.



End ExportExamples.

(** ** Refused export, cache invalidation *)

Section ExportGuards.

Import Editor.

Context {Canvas : Type}.
Variable html2canvas : Composite -> JS.number -> string -> option Canvas.
Variable gifModule : bool.

(** The export is refused exactly when there is no first burst or the
    first burst has at most one frame. *)
Lemma burstLengthOf_le_1 (ps : list (list string)) :
  (burstLengthOf ps <= 1)%nat <->
  match ps with
  | [] => True
  | first :: _ => (length first <= 1)%nat
  end.
Proof.
  destruct ps as [|first rest]; simpl; [lia|].
  destruct (length first =? 0)%nat eqn:H0.
  - apply Nat.eqb_eq in H0. lia.
  - tauto.
Qed.

(** C3: when GIF export is requested and the burst length is at most 1,
    the export is refused: no encoder is created (so no file can result),
    nothing is rasterized, no frame is added, nothing is downloaded, the
    cache is untouched, and [isExporting] is false afterwards (the state is
    not touched at all when the export container is not mounted). *)
Theorem gif_export_refused (st : State Canvas) :
  (burstLengthOf (photos st) <= 1)%nat ->
  encoder (downloadGif html2canvas gifModule (enter st)) = None
  /\ rasterLog (downloadGif html2canvas gifModule (enter st)) = []
  /\ downloads (downloadGif html2canvas gifModule (enter st)) = []
  /\ frameCache (editor (downloadGif html2canvas gifModule (enter st))) = frameCache st
  /\ isExporting (editor (downloadGif html2canvas gifModule (enter st)))
     = (if exportMounted st then false else isExporting st)
  /\ (isExporting st = false ->
      isExporting (editor (downloadGif html2canvas gifModule (enter st))) = false).
Proof.
  intros Hlen. apply Nat.leb_le in Hlen.
  unfold downloadGif, downloadGifBody. cbn [editor enter].
  destruct (exportMounted st); cbn [negb].
  - rewrite Hlen. destruct gifModule; repeat split.
  - repeat split. intros H. exact H.
Qed.


End ExportGuards.

Section CacheExamples.

Import Editor.

Lemma gif_export_refused_witness :
  encoder (downloadGif Examples.snapshot true (enter Examples.singleFrame)) = None
  /\ rasterLog (downloadGif Examples.snapshot true (enter Examples.singleFrame)) = []
  /\ downloads (downloadGif Examples.snapshot true (enter Examples.singleFrame)) = []
  /\ frameCache (editor (downloadGif Examples.snapshot true (enter Examples.singleFrame)))
     = frameCache Examples.singleFrame
  /\ isExporting (editor (downloadGif Examples.snapshot true (enter Examples.singleFrame)))
     = false.
Proof.
  destruct (gif_export_refused Examples.snapshot true Examples.singleFrame)
    as (Henc & Hlog & Hdl & Hcache & _ & Hexp); [simpl; lia|].
  split; [exact Henc|]. split; [exact Hlog|]. split; [exact Hdl|]. split; [exact Hcache|].
  apply Hexp. reflexivity.
Defined.


End CacheExamples.

(** ** Capture sessions *)

Section BurstSession.

Import CameraBurst.

Variable photoCount : nat.
Variable timerDuration : Z.
Variable cam : Webcam.

Abbreviation step := (CameraBurst.step photoCount timerDuration cam).
Abbreviation run := (CameraBurst.run photoCount timerDuration cam).
Abbreviation render := (CameraBurst.render photoCount timerDuration).
Abbreviation capturing_inv := (CameraBurst.capturing_inv photoCount).
Abbreviation complete_signal := (CameraBurst.complete_signal photoCount).
Abbreviation finished := (CameraBurst.finished photoCount).
Abbreviation underway := (CameraBurst.underway photoCount).
Abbreviation camReady := (CameraBurst.camReady cam).

Lemma render_inv (st st' : State) (out : list Signal) :
  (length (photos st) <= photoCount)%nat ->
  render st = (st', out) ->
  capturing_inv st' /\ Forall (complete_signal st') out
  /\ photos st' = photos st /\ filter st' = filter st.
Proof.
  unfold CameraBurst.render, completionEffect, countdownEffect, CameraBurst.capturing_inv,
    CameraBurst.complete_signal.
  destruct st as [ps cap cd fl f tm sh]. cbn -[Nat.ltb Nat.leb]. intros Hle.
  destruct (photoCount <=? length ps)%nat eqn:Hfull; destruct cap; cbn -[Nat.ltb Nat.leb].
  - apply Nat.leb_le in Hfull. intros [= <- <-]. cbn -[Nat.ltb Nat.leb].
    repeat split; try discriminate.
    constructor; [|constructor]. split; [reflexivity | lia].
  - intros [= <- <-]. cbn -[Nat.ltb Nat.leb]. repeat split; try discriminate. constructor.
  - apply Nat.leb_gt in Hfull.
    assert (Hlt : (length ps <? photoCount)%nat = true) by (apply Nat.ltb_lt; exact Hfull).
    rewrite Hlt. intros [= <- <-]. cbn -[Nat.ltb Nat.leb]. repeat split; auto.
  - intros [= <- <-]. cbn -[Nat.ltb Nat.leb]. repeat split; try discriminate. constructor.
Qed.

Lemma burstLoop_length (n t : nat) (burst : list string) :
  (length burst <= length (burstLoop cam n t burst))%nat.
Proof.
  revert t burst. induction n as [|n IH]; intros t burst; simpl; [lia|].
  etransitivity; [|apply IH].
  unfold pushFrame. destruct (cam t); [|lia].
  destruct (validFrame _); [rewrite length_app; simpl; lia | lia].
Qed.

#[local] Arguments burstLoop : simpl never.

Lemma step_inv (st st' : State) (ev : Event) (out : list Signal) :
  capturing_inv st ->
  step st ev = (st', out) ->
  capturing_inv st' /\ Forall (complete_signal st') out.
Proof.
  intros [Hcap Htimer]. destruct ev as [|f| |]; cbn [CameraBurst.step].
  - unfold controlsShown. destruct (negb (isCapturing st) && (length (photos st) =? 0)%nat) eqn:Hshown.
    + unfold startSession. intros Hr. apply render_inv in Hr; [tauto|]. simpl. lia.
    + intros [= <- <-]. split; [split; assumption | constructor].
  - unfold controlsShown. destruct (negb (isCapturing st) && (length (photos st) =? 0)%nat) eqn:Hshown.
    + apply andb_prop in Hshown as [Hnot _]. apply negb_true_iff in Hnot.
      unfold completionEffect. cbn [isCapturing photos setFilter]. rewrite Hnot, andb_false_r.
      intros [= <- <-]. split; [|constructor].
      split; cbn [isCapturing photos timer setFilter]; [congruence | exact Htimer].
    + intros [= <- <-]. split; [split; assumption | constructor].
  - destruct (timer st) as [c|] eqn:Hc.
    + specialize (Htimer c eq_refl). specialize (Hcap Htimer).
      unfold tick. destruct (c - 1 <=? 0)%Z.
      * unfold captureBurst.
        destruct (0 <? length (burstLoop cam BURST_COUNT _ []))%nat.
        -- intros Hr. apply render_inv in Hr; [tauto|].
           cbn [photos setPhotos]. rewrite length_app. simpl. lia.
        -- intros [= <- <-]. split; [|constructor].
           split; cbn [isCapturing photos timer setTimer setCountdown setShots];
             [intros _; exact Hcap | discriminate].
      * intros [= <- <-]. split; [|constructor].
        split; cbn [isCapturing photos timer setTimer setCountdown]; [intros _; exact Hcap|].
        intros _ _. exact Htimer.
    + intros [= <- <-]. split; [split; [exact Hcap | rewrite Hc; exact Htimer] | constructor].
  - intros [= <- <-]. split; [|constructor].
    split; cbn [isCapturing photos timer setFlash]; assumption.
Qed.

Lemma initial_inv : capturing_inv initial.
Proof. split; simpl; [discriminate | discriminate]. Qed.

(** Whatever happens, a completion is only ever signalled with exactly
    [photoCount] bursts. *)
Lemma run_signals (evs : list Event) :
  forall (st st' : State) (out : list Signal),
    capturing_inv st ->
    run st evs = (st', out) ->
    capturing_inv st'
    /\ Forall (fun s => exists ps f, s = OnComplete ps f /\ length ps = photoCount) out.
Proof.
  induction evs as [|ev evs IH]; intros st st' out Hinv; cbn [CameraBurst.run].
  - intros [= <- <-]. split; [exact Hinv | constructor].
  - destruct (step st ev) as [st1 out1] eqn:Hstep.
    destruct (run st1 evs) as [st2 out2] eqn:Hrun. intros [= <- <-].
    destruct (step_inv _ _ _ _ Hinv Hstep) as [Hinv1 Hout1].
    destruct (IH _ _ _ Hinv1 Hrun) as [Hinv2 Hout2].
    split; [exact Hinv2|]. apply Forall_app. split; [|exact Hout2].
    eapply Forall_impl; [exact Hout1|]. intros s [-> Hlen]. eauto.
Qed.


Lemma step_finished (st st' : State) (ev : Event) (out : list Signal) :
  (1 <= photoCount)%nat ->
  finished st ->
  step st ev = (st', out) ->
  out = [] /\ finished st' /\ photos st' = photos st /\ filter st' = filter st.
Proof.
  intros Hpc (Hcap & Hlen & Htimer).
  assert (Hhidden : controlsShown st = false).
  { unfold controlsShown. apply andb_false_iff. right. apply Nat.eqb_neq. lia. }
  unfold CameraBurst.finished.
  destruct ev as [|f| |]; cbn [CameraBurst.step]; rewrite ?Hhidden, ?Htimer;
    intros [= <- <-]; auto.
Qed.

Lemma step_underway (st st' : State) (ev : Event) (out : list Signal) :
  (1 <= photoCount)%nat ->
  underway st ->
  step st ev = (st', out) ->
  (out = [] /\ underway st')
  \/ (out = [OnComplete (photos st') (filter st')] /\ finished st').
Proof.
  intros Hpc [Hlen Hinv] Hstep.
  destruct (step_inv _ _ _ _ Hinv Hstep) as [Hinv' Hout].
  pose proof Hinv as [Hcap Htimer].
  destruct ev as [|f| |]; cbn [CameraBurst.step] in Hstep.
  - destruct (controlsShown st).
    + unfold startSession, CameraBurst.render, completionEffect in Hstep.
      cbn [photos isCapturing setIsCapturing setPhotos length] in Hstep.
      assert (Hno : (photoCount <=? 0)%nat = false) by (apply Nat.leb_gt; lia).
      rewrite Hno in Hstep. cbn [andb] in Hstep. injection Hstep as <- <-.
      left. split; [reflexivity|]. split; [|exact Hinv'].
      unfold countdownEffect. cbn [photos isCapturing setIsCapturing setPhotos length].
      assert (Hyes : (0 <? photoCount)%nat = true) by (apply Nat.ltb_lt; lia).
      rewrite Hyes. cbn. lia.
    + injection Hstep as <- <-. left. split; [reflexivity | split; assumption].
  - destruct (controlsShown st) eqn:Hshown.
    + unfold controlsShown in Hshown. apply andb_prop in Hshown as [Hnot _].
      apply negb_true_iff in Hnot.
      unfold completionEffect in Hstep. cbn [isCapturing photos setFilter] in Hstep.
      rewrite Hnot, andb_false_r in Hstep. injection Hstep as <- <-.
      left. split; [reflexivity|]. split; [exact Hlen | exact Hinv'].
    + injection Hstep as <- <-. left. split; [reflexivity | split; assumption].
  - destruct (timer st) as [c|] eqn:Hc.
    + unfold tick in Hstep. destruct (c - 1 <=? 0)%Z.
      * unfold captureBurst in Hstep.
        destruct (0 <? length (burstLoop cam BURST_COUNT _ []))%nat.
        -- unfold CameraBurst.render, completionEffect in Hstep.
           destruct ((photoCount <=? length (photos _))%nat && isCapturing _) eqn:Hfire.
           ++ injection Hstep as <- <-. right.
              apply andb_prop in Hfire as [Hfull Hcapt].
              apply Nat.leb_le in Hfull.
              cbn [photos setPhotos setFlash setShots setTimer setCountdown] in Hfull.
              rewrite length_app in Hfull. simpl in Hfull.
              unfold countdownEffect.
              cbn [isCapturing photos setIsCapturing setPhotos setFlash setShots setTimer
                     setCountdown andb filter timer].
              split; [reflexivity|]. unfold CameraBurst.finished.
              cbn [isCapturing photos setIsCapturing setPhotos setFlash setShots setTimer
                     setCountdown andb filter timer].
              rewrite length_app. simpl. repeat split. lia.
           ++ injection Hstep as <- <-. left. split; [reflexivity|].
              split; [|exact Hinv'].
              apply andb_false_iff in Hfire as [Hfull|Hcapt].
              ** apply Nat.leb_gt in Hfull. unfold countdownEffect.
                 destruct (isCapturing _ && _); cbn [photos setTimer setCountdown]; exact Hfull.
              ** cbn [isCapturing setPhotos setFlash setShots setTimer setCountdown] in Hcapt.
                 rewrite (Htimer c eq_refl) in Hcapt. discriminate.
        -- injection Hstep as <- <-. left. split; [reflexivity|].
           split; [exact Hlen | exact Hinv'].
      * injection Hstep as <- <-. left. split; [reflexivity|].
        split; [exact Hlen | exact Hinv'].
    + injection Hstep as <- <-. left. split; [reflexivity | split; assumption].
  - injection Hstep as <- <-. left. split; [reflexivity|].
    split; [exact Hlen | exact Hinv'].
Qed.

Lemma run_finished (evs : list Event) :
  forall st st' out,
    (1 <= photoCount)%nat ->
    finished st ->
    run st evs = (st', out) ->
    out = [] /\ finished st' /\ photos st' = photos st /\ filter st' = filter st.
Proof.
  induction evs as [|ev evs IH]; intros st st' out Hpc Hfin; cbn [CameraBurst.run].
  - intros [= <- <-]. auto.
  - destruct (step st ev) as [st1 out1] eqn:Hstep.
    destruct (run st1 evs) as [st2 out2] eqn:Hrun. intros [= <- <-].
    destruct (step_finished _ _ _ _ Hpc Hfin Hstep) as (-> & Hfin1 & Hp1 & Hf1).
    destruct (IH _ _ _ Hpc Hfin1 Hrun) as (-> & Hfin2 & Hp2 & Hf2).
    repeat split; try apply Hfin2; congruence.
Qed.

(** A session signals completion at most once, and then with the photos and
    the filter the component holds, one burst per shot. *)
Lemma run_underway (evs : list Event) :
  forall st st' out,
    (1 <= photoCount)%nat ->
    underway st ->
    run st evs = (st', out) ->
    (out = [] /\ underway st')
    \/ (out = [OnComplete (photos st') (filter st')] /\ finished st').
Proof.
  induction evs as [|ev evs IH]; intros st st' out Hpc Hund; cbn [CameraBurst.run].
  - intros [= <- <-]. auto.
  - destruct (step st ev) as [st1 out1] eqn:Hstep.
    destruct (run st1 evs) as [st2 out2] eqn:Hrun. intros [= <- <-].
    destruct (step_underway _ _ _ _ Hpc Hund Hstep) as [[-> Hund1]|[-> Hfin1]].
    + apply (IH _ _ _ Hpc Hund1 Hrun).
    + destruct (run_finished _ _ _ _ Hpc Hfin1 Hrun) as (-> & Hfin2 & Hp2 & Hf2).
      right. rewrite Hp2, Hf2. auto.
Qed.


(** *** A session with a working camera runs to completion *)

Lemma run_app (evs1 evs2 : list Event) (st : State) :
  run st (evs1 ++ evs2)
  = let '(st1, out1) := run st evs1 in
    let '(st2, out2) := run st1 evs2 in
    (st2, out1 ++ out2).
Proof.
  revert st. induction evs1 as [|ev evs1 IH]; intros st; cbn [CameraBurst.run app].
  - destruct (run st evs2). reflexivity.
  - destruct (step st ev) as [st1 out1]. rewrite IH.
    destruct (run st1 evs1) as [st2 out2]. destruct (run st2 evs2) as [st3 out3].
    rewrite app_assoc. reflexivity.
Qed.

Lemma burstLoop_nonempty (n t : nat) (burst : list string) :
  (exists i, (i < n)%nat /\ validFrame (cam (t + i)) = true) ->
  (0 < length (burstLoop cam n t burst))%nat.
Proof.
  revert t burst. induction n as [|n IH]; intros t burst (i & Hi & Hvalid); [lia|].
  change (burstLoop cam (S n) t burst) with (burstLoop cam n (S t) (pushFrame burst (cam t))).
  destruct i as [|i].
  - rewrite Nat.add_0_r in Hvalid.
    eapply Nat.lt_le_trans; [|apply burstLoop_length].
    unfold pushFrame. destruct (cam t) as [s|]; [|discriminate].
    cbn [validFrame] in Hvalid |- *. rewrite Hvalid, length_app. simpl. lia.
  - apply IH. exists i. split; [lia|].
    replace (S t + i)%nat with (t + S i)%nat by lia. exact Hvalid.
Qed.

(** The ticks of a countdown before the last one only count down. *)
Lemma countdown_ticks (n : nat) :
  forall (c : Z) (st : State),
    Z.to_nat c = S n ->
    run (counting c st) (ticks n) = (counting (c - Z.of_nat n) st, []).
Proof.
  induction n as [|n IH]; intros c st Hc.
  - cbn [ticks repeat CameraBurst.run]. rewrite Z.sub_0_r. reflexivity.
  - cbn [ticks repeat CameraBurst.run CameraBurst.step counting timer setTimer].
    unfold tick. assert (Hgt : (c - 1 <=? 0)%Z = false) by (apply Z.leb_gt; lia).
    rewrite Hgt.
    change (setTimer (Some (c - 1)%Z) (setCountdown (Some (c - 1)%Z) (counting c st)))
      with (counting (c - 1) st).
    fold (ticks n). rewrite IH by lia.
    replace (c - 1 - Z.of_nat n)%Z with (c - Z.of_nat (S n))%Z by lia. reflexivity.
Qed.

(** One whole countdown with its burst, from a state that still captures. *)
Lemma shot_taken (st : State) :
  camReady ->
  (1 <= timerDuration)%Z ->
  isCapturing st = true ->
  (length (photos st) < photoCount)%nat ->
  exists st' out,
    run (counting timerDuration st) (ticks (Z.to_nat timerDuration)) = (st', out)
    /\ length (photos st') = S (length (photos st))
    /\ filter st' = filter st
    /\ (if (S (length (photos st)) <? photoCount)%nat
        then out = [] /\ isCapturing st' = true /\ st' = counting timerDuration st'
        else out = [OnComplete (photos st') (filter st)] /\ isCapturing st' = false).
Proof.
  intros Hcam Htd Hcap Hlen.
  destruct (Z.to_nat timerDuration) as [|n] eqn:Hn; [lia|].
  replace (ticks (S n)) with (ticks n ++ [CountdownTick])
    by (unfold ticks; rewrite <- repeat_cons; reflexivity).
  rewrite run_app, (countdown_ticks n timerDuration st Hn).
  replace (timerDuration - Z.of_nat n)%Z with 1%Z by lia.
  cbn [CameraBurst.run CameraBurst.step counting timer setTimer]. unfold tick.
  change (1 - 1 <=? 0)%Z with true. cbv iota.
  unfold captureBurst.
  pose proof (burstLoop_nonempty BURST_COUNT (shots st) [] (Hcam (shots st))) as Hne.
  apply Nat.ltb_lt in Hne.
  unfold CameraBurst.render, completionEffect, countdownEffect.
  destruct st as [ps cap cd fl f tm sh]. cbn -[Nat.leb Nat.ltb] in *. subst cap.
  rewrite Hne. cbn -[Nat.leb Nat.ltb]. rewrite andb_true_r, length_app.
  cbn [length]. rewrite Nat.add_1_r.
  destruct (S (length ps) <? photoCount)%nat eqn:Hmore.
  - assert (Hnot : (photoCount <=? S (length ps))%nat = false)
      by (apply Nat.leb_gt; apply Nat.ltb_lt in Hmore; lia).
    rewrite Hnot. cbn -[Nat.leb Nat.ltb]. rewrite length_app. cbn [length].
    rewrite Nat.add_1_r, Hmore.
    eexists. eexists. split; [reflexivity|].
    cbn -[Nat.leb Nat.ltb]. rewrite length_app. cbn [length]. repeat split; auto. lia.
  - assert (Hfull : (photoCount <=? S (length ps))%nat = true)
      by (apply Nat.leb_le; apply Nat.ltb_ge in Hmore; lia).
    rewrite Hfull. cbn -[Nat.leb Nat.ltb].
    eexists. eexists. split; [reflexivity|].
    cbn -[Nat.leb Nat.ltb]. rewrite length_app. cbn [length]. repeat split; auto. lia.
Qed.

Lemma ticks_app (a b : nat) : ticks (a + b) = ticks a ++ ticks b.
Proof. unfold ticks. apply repeat_app. Qed.

Lemma session_completes_from (m : nat) :
  forall st : State,
    camReady ->
    (1 <= timerDuration)%Z ->
    isCapturing st = true ->
    (length (photos st) + S m = photoCount)%nat ->
    exists st',
      run (counting timerDuration st) (ticks (S m * Z.to_nat timerDuration))
      = (st', [OnComplete (photos st') (filter st)])
      /\ length (photos st') = photoCount
      /\ filter st' = filter st
      /\ isCapturing st' = false.
Proof.
  induction m as [|m IH]; intros st Hcam Htd Hcap Hlen.
  - destruct (shot_taken st Hcam Htd Hcap) as (st' & out & Hrun & Hlen' & Hf & Hout); [lia|].
    assert (Hlast : (S (length (photos st)) <? photoCount)%nat = false) by (apply Nat.ltb_ge; lia).
    rewrite Hlast in Hout. destruct Hout as [-> Hdone].
    exists st'. rewrite Nat.mul_1_l. repeat split; auto. lia.
  - destruct (shot_taken st Hcam Htd Hcap) as (st1 & out & Hrun & Hlen1 & Hf1 & Hout); [lia|].
    assert (Hmore : (S (length (photos st)) <? photoCount)%nat = true) by (apply Nat.ltb_lt; lia).
    rewrite Hmore in Hout. destruct Hout as (-> & Hcap1 & Hcount1).
    destruct (IH st1 Hcam Htd Hcap1) as (st2 & Hrun2 & Hlen2 & Hf2 & Hdone2); [lia|].
    exists st2.
    change (S (S m) * Z.to_nat timerDuration)%nat
      with (Z.to_nat timerDuration + S m * Z.to_nat timerDuration)%nat.
    rewrite ticks_app, run_app, Hrun, Hcount1, Hrun2, Hf1.
    repeat split; auto. congruence.
Qed.

End BurstSession.

Section Layouts.

Import CameraBurst.

Lemma LAYOUT_CONFIG_pos (l : LayoutType) : (1 <= LAYOUT_CONFIG l)%nat.
Proof. destruct l; simpl; lia. Qed.

(** C4: for every layout, a capture session produces a photo set with
    exactly the layout's shot count (4, 3, 4 and 6) and signals completion
    with that photo set and the active filter.  Whatever the events, the
    component signals at most once, and then with its photos, one burst per
    shot, and its filter; and with a camera that has a frame in every burst,
    the session started with filter [f] does run to that signal. *)
Theorem capture_session_complete :
  (forall (l : LayoutType) (timerDuration : Z) (cam : Webcam) (evs : list Event)
          (st' : State) (out : list Signal),
      run (LAYOUT_CONFIG l) timerDuration cam initial evs = (st', out) ->
      out = []
      \/ (out = [OnComplete (photos st') (filter st')]
          /\ length (photos st') = LAYOUT_CONFIG l
          /\ isCapturing st' = false))
  /\ (forall (l : LayoutType) (timerDuration : Z) (cam : Webcam) (f : FilterType),
         camReady cam ->
         (1 <= timerDuration)%Z ->
         exists st',
           run (LAYOUT_CONFIG l) timerDuration cam initial
             (session f (LAYOUT_CONFIG l) (Z.to_nat timerDuration))
           = (st', [OnComplete (photos st') f])
           /\ length (photos st') = LAYOUT_CONFIG l
           /\ filter st' = f
           /\ isCapturing st' = false)
  /\ LAYOUT_CONFIG Layout4Diagonal = 4
  /\ LAYOUT_CONFIG Layout3Diagonal = 3
  /\ LAYOUT_CONFIG Layout4Square = 4
  /\ LAYOUT_CONFIG Layout6Grid = 6.
Proof.
  split; [|split; [|repeat split]].
  - intros l td cam evs st' out Hrun.
    pose proof (LAYOUT_CONFIG_pos l) as Hpos.
    destruct (run_underway (LAYOUT_CONFIG l) td cam evs initial st' out Hpos) as [[-> _]|[-> Hfin]];
      auto.
    + split; [simpl; lia | apply initial_inv].
    + right. destruct Hfin as (Hcap & Hlen & _). auto.
  - intros l td cam f Hcam Htd.
    pose proof (LAYOUT_CONFIG_pos l) as Hpos.
    set (st0 := setIsCapturing true (setPhotos [] (setFilter f initial))).
    destruct (LAYOUT_CONFIG l) as [|m] eqn:Hcount; [lia|].
    destruct (session_completes_from (S m) td cam m st0 Hcam Htd eq_refl eq_refl)
      as (st' & Hrun & Hlen & Hf & Hdone).
    exists st'. unfold session.
    cbn [CameraBurst.run CameraBurst.step]. cbn -[Nat.mul ticks].
    change (setTimer (Some td) (setCountdown (Some td)
              (setIsCapturing true (setPhotos [] (setFilter f initial)))))
      with (counting td st0).
    rewrite Hrun. cbn [app]. auto.
Qed.

End Layouts.

Lemma liveCam_ready : CameraBurst.camReady Examples.liveCam.
Proof.
  intros t. exists 0. split; [unfold CameraBurst.BURST_COUNT; lia | reflexivity].
Qed.

Lemma capture_session_complete_witness :
  exists st',
    CameraBurst.run (LAYOUT_CONFIG Layout3Diagonal) 3 Examples.liveCam CameraBurst.initial
      (CameraBurst.session bw (LAYOUT_CONFIG Layout3Diagonal) (Z.to_nat 3))
    = (st', [OnComplete (CameraBurst.photos st') bw])
    /\ length (CameraBurst.photos st') = LAYOUT_CONFIG Layout3Diagonal
    /\ CameraBurst.filter st' = bw
    /\ CameraBurst.isCapturing st' = false.
Proof.
  apply (proj1 (proj2 capture_session_complete) Layout3Diagonal 3%Z Examples.liveCam bw).
  - exact liveCam_ready.
  - lia.
Defined.

Example three_shot_session :
  map (@length string)
    (CameraBurst.photos
       (fst (CameraBurst.run 3 3 Examples.liveCam CameraBurst.initial
               (CameraBurst.session bw 3 3))))
  = [30; 30; 30].
Proof. vm_compute. reflexivity. Qed.

(** ** Committed bursts *)

Section CommittedBursts.

Variable photoCount : nat.
Variable timerDuration : Z.
Variable cam : Webcam.

(** The burst-after-countdown camera commits a burst only when it has a
    frame, whatever the camera does. *)
Lemma burst_camera_commits_frames (evs : list CameraBurst.Event) :
  forall st : CameraBurst.State,
    nonEmptyBursts (CameraBurst.photos st) ->
    nonEmptyBursts
      (CameraBurst.photos (fst (CameraBurst.run photoCount timerDuration cam st evs))).
Proof.
  induction evs as [|ev evs IH]; intros st Hst; cbn [CameraBurst.run]; [exact Hst|].
  destruct (CameraBurst.step photoCount timerDuration cam st ev) as [st1 out1] eqn:Hstep.
  specialize (IH st1).
  destruct (CameraBurst.run photoCount timerDuration cam st1 evs) as [st2 out2].
  cbn [fst] in *. apply IH. clear IH.
  assert (Hrender : forall s s' o,
             CameraBurst.render photoCount timerDuration s = (s', o) ->
             CameraBurst.photos s' = CameraBurst.photos s).
  { intros [ps cap cd fl f tm sh] s' o.
    unfold CameraBurst.render, CameraBurst.completionEffect, CameraBurst.countdownEffect.
    cbn -[Nat.leb Nat.ltb].
    destruct ((photoCount <=? length ps)%nat && cap); cbn -[Nat.leb Nat.ltb];
      intros [= <- _];
      repeat match goal with |- context [if ?b then _ else _] => destruct b end; reflexivity. }
  destruct ev as [|f| |]; cbn [CameraBurst.step] in Hstep.
  - destruct (CameraBurst.controlsShown st).
    + apply Hrender in Hstep. rewrite Hstep. constructor.
    + injection Hstep as <- _. exact Hst.
  - destruct (CameraBurst.controlsShown st).
    + unfold CameraBurst.completionEffect in Hstep.
      destruct (_ && _) in Hstep; injection Hstep as <- _; exact Hst.
    + injection Hstep as <- _. exact Hst.
  - destruct (CameraBurst.timer st) as [c|]; [|injection Hstep as <- _; exact Hst].
    unfold CameraBurst.tick in Hstep. destruct (c - 1 <=? 0)%Z.
    + unfold CameraBurst.captureBurst in Hstep.
      destruct (0 <? length (CameraBurst.burstLoop cam CameraBurst.BURST_COUNT _ []))%nat eqn:Hne.
      * apply Hrender in Hstep. rewrite Hstep.
        cbn [CameraBurst.photos CameraBurst.setPhotos CameraBurst.setFlash CameraBurst.setShots
               CameraBurst.setTimer CameraBurst.setCountdown].
        apply Forall_app. split; [exact Hst|].
        constructor; [|constructor]. apply Nat.ltb_lt in Hne.
        cbn [CameraBurst.shots CameraBurst.setTimer CameraBurst.setCountdown] in Hne |- *. lia.
      * injection Hstep as <- _. exact Hst.
    + injection Hstep as <- _. exact Hst.
  - injection Hstep as <- _. exact Hst.
Qed.

Import CameraCountdown.

Lemma countdownEffect_photos (st : State) :
  photos (countdownEffect photoCount timerDuration st) = photos st.
Proof. unfold countdownEffect. destruct (_ && _); reflexivity. Qed.

(** The last tick of a countdown commits the sampled frames followed by the
    final snap, when the final snap is a frame. *)
Lemma final_tick_commits (st : State) (c : Z) (s : string) :
  timers st = Some c ->
  (c - 1 <= 0)%Z ->
  cam (shots st) = Some s ->
  validFrame (Some s) = true ->
  photos (step photoCount timerDuration cam st CountdownTick)
  = photos st ++ [burstRef st ++ [s]].
Proof.
  intros Hc Hlast Hcam Hvalid. cbn [step]. rewrite Hc. unfold tick.
  assert (Hz : (c - 1 <=? 0)%Z = true) by (apply Z.leb_le; exact Hlast). rewrite Hz.
  rewrite countdownEffect_photos. unfold snap.
  cbn [photos burstRef shots setPhotos setFlash setShots setBurstRef setTimers setCountdown].
  rewrite Hcam. unfold pushFrame. rewrite Hvalid. reflexivity.
Qed.

(** With a camera that always has a frame, every burst the countdown camera
    commits has one. *)
Lemma countdown_camera_commits_frames (evs : list Event) :
  (forall t, validFrame (cam t) = true) ->
  forall st : State,
    nonEmptyBursts (photos st) ->
    nonEmptyBursts (photos (run photoCount timerDuration cam st evs)).
Proof.
  intros Hcam. unfold run.
  induction evs as [|ev evs IH]; intros st Hst; cbn [fold_left]; [exact Hst|].
  apply IH. clear IH.
  destruct ev as [|f| | |]; cbn [step].
  - destruct (controlsShown st); [|exact Hst].
    unfold startSession. rewrite countdownEffect_photos. constructor.
  - destruct (controlsShown st); exact Hst.
  - destruct (timers st); exact Hst.
  - destruct (timers st) as [c|] eqn:Hc; [|exact Hst].
    unfold tick. destruct (c - 1 <=? 0)%Z; [|exact Hst].
    rewrite countdownEffect_photos. unfold snap.
    cbn [photos burstRef shots setPhotos setFlash setShots setBurstRef setTimers setCountdown].
    apply Forall_app. split; [exact Hst|]. constructor; [|constructor].
    specialize (Hcam (shots st)). unfold pushFrame.
    destruct (cam (shots st)) as [s|]; [|discriminate].
    rewrite Hcam, length_app. simpl. lia.
  - exact Hst.
Qed.

End CommittedBursts.

Section CommittedBurstsClaim.

Import CameraCountdown.




Example every_sample_failed :
  burstRef Examples.beforeFinalSnap = [] /\ shots Examples.beforeFinalSnap = 30.
Proof. vm_compute. split; reflexivity. Qed.

End CommittedBurstsClaim.

(** ** The pixel transform *)

Section PixelTransform.

Import Filter.

(** Multiplication of binary64 numbers is commutative. *)
Lemma float_mul_comm (a b : float) : (a * b = b * a)%float.
Proof.
  apply Prim2SF_inj. rewrite !mul_spec. unfold SF64mul, SFmul.
  destruct (Prim2SF a) as [sa|sa| |sa ma ea], (Prim2SF b) as [sb|sb| |sb mb eb];
    try reflexivity; try (rewrite (xorb_comm sa sb); reflexivity).
  rewrite (xorb_comm sa sb), (Pos.mul_comm ma mb), (Z.add_comm ea eb). reflexivity.
Qed.

Lemma round_half_even_nonneg (m : positive) (e : Z) : (0 <= JS.round_half_even m e)%Z.
Proof.
  unfold JS.round_half_even. destruct (0 <=? e)%Z eqn:He.
  - apply Z.leb_le in He. apply Z.mul_nonneg_nonneg; [lia | apply Z.pow_nonneg; lia].
  - apply Z.leb_gt in He.
    assert (Hd : (0 < 2 ^ (- e))%Z) by (apply Z.pow_pos_nonneg; lia).
    assert (Hf : (0 <= Z.pos m / 2 ^ (- e))%Z) by (apply Z.div_pos; lia).
    destruct (2 * (Z.pos m mod 2 ^ (- e)) ?= 2 ^ (- e))%Z; [destruct (Z.even _)| |]; lia.
Qed.

(** What is stored in the buffer is a byte. *)
Lemma ToUint8Clamp_byte (v : float) : (0 <= JS.ToUint8Clamp v <= 255)%Z.
Proof.
  unfold JS.ToUint8Clamp.
  destruct (Prim2SF v) as [s|s| |s m e]; try lia; try (destruct s; lia).
  destruct s; [lia|]. pose proof (round_half_even_nonneg m e). lia.
Qed.

(** The luminance of the source is the luminance of the specification. *)
Lemma grayscalePixel_luminance (r g b : Z) :
  grayscalePixel r g b
  = (JS.ToUint8Clamp (luminance r g b), JS.ToUint8Clamp (luminance r g b),
     JS.ToUint8Clamp (luminance r g b)).
Proof.
  unfold grayscalePixel, luminance.
  rewrite (float_mul_comm (JS.num r)), (float_mul_comm (JS.num g)), (float_mul_comm (JS.num b)).
  reflexivity.
Qed.

(** On a byte, the contrast pass with the factor parsed from the bw filter
    string is the contrast formula with C = 1.2. *)
Lemma contrastChannel_bw (c : Z) :
  (0 <= c <= 255)%Z ->
  contrastChannel (contrastFactor (Str.parseFloat "1.2")) c = contrastOut 1.2%float c.
Proof.
  intros Hc.
  assert (Hall : forallb
            (fun n => Z.eqb (contrastChannel (contrastFactor (Str.parseFloat "1.2")) (Z.of_nat n))
                        (contrastOut 1.2%float (Z.of_nat n)))
            (seq 0 256) = true) by (vm_compute; reflexivity).
  rewrite forallb_forall in Hall.
  specialize (Hall (Z.to_nat c)). rewrite Z2Nat.id in Hall by lia.
  apply Z.eqb_eq, Hall, in_seq. lia.
Qed.

(** The passes the bw filter string selects: grayscale, then contrast with
    the factor of the parsed 1.2; no sepia, brightness or saturation. *)
Lemma applyFilter_bw_data (canvas : Canvas) :
  context2d canvas = true ->
  data (applyFilter canvas bw)
  = forPixels (contrastPixel (contrastFactor (Str.parseFloat "1.2")))
      (forPixels grayscalePixel (data canvas)).
Proof.
  intros Hctx. unfold applyFilter, applyFilterToCanvas.
  change (String.eqb (Editor.filterValueOf bw) EmptyString) with false. cbv iota.
  rewrite Hctx. reflexivity.
Qed.

Lemma forPixels_length (body : Z -> Z -> Z -> Z * Z * Z) (d : list Z) :
  length (forPixels body d) = length d.
Proof.
  assert (H : forall n (l : list Z), (length l <= n)%nat -> length (forPixels body l) = length l).
  { induction n as [|n IH]; intros l Hl.
    - destruct l; [reflexivity | simpl in Hl; lia].
    - destruct l as [|r [|g [|b [|a rest]]]]; try reflexivity.
      cbn [forPixels]. destruct (body r g b) as [[r1 g1] b1]. cbn [length] in *.
      rewrite IH by lia. reflexivity. }
  apply (H (length d)). lia.
Qed.

(** Pixel [p] after a pass is the body of the pass applied to pixel [p]. *)
Lemma forPixels_lookup (body : Z -> Z -> Z -> Z * Z * Z) (p : nat) :
  forall (d : list Z) (r g b a : Z),
    d !! (4 * p) = Some r -> d !! (4 * p + 1) = Some g ->
    d !! (4 * p + 2) = Some b -> d !! (4 * p + 3) = Some a ->
    forPixels body d !! (4 * p) = Some (body r g b).1.1
    /\ forPixels body d !! (4 * p + 1) = Some (body r g b).1.2
    /\ forPixels body d !! (4 * p + 2) = Some (body r g b).2
    /\ forPixels body d !! (4 * p + 3) = Some a.
Proof.
  induction p as [|p IH]; intros d r g b a Hr Hg Hb Ha.
  - destruct d as [|r0 [|g0 [|b0 [|a0 rest]]]]; try discriminate.
    cbn in Hr, Hg, Hb, Ha. injection Hr as ->. injection Hg as ->.
    injection Hb as ->. injection Ha as ->.
    cbn [forPixels]. destruct (body r g b) as [[r1 g1] b1]. cbn. auto.
  - replace (4 * S p) with (S (S (S (S (4 * p))))) in * by lia.
    destruct d as [|r0 [|g0 [|b0 [|a0 rest]]]]; try discriminate.
    cbn [forPixels]. destruct (body r0 g0 b0) as [[r1 g1] b1].
    cbn [lookup list_lookup Nat.add] in *. apply IH; assumption.
Qed.

(** C5: the bw transform computes, for every pixel, the luminance
    0.299R + 0.587G + 0.114B, stores it in the three colour channels, and
    then applies to each channel the contrast formula with C = 1.2, that is
    factor = (259*(C*255+255)) / (255*(259-C*255)) and
    clamp(factor*(in-128)+128, 0, 255); alpha and the size of the buffer are
    kept.  (What is stored in the buffer is rounded to a byte.) *)
Theorem bw_transform (canvas : Canvas) (p : nat) (r g b a : Z) :
  context2d canvas = true ->
  data canvas !! (4 * p) = Some r ->
  data canvas !! (4 * p + 1) = Some g ->
  data canvas !! (4 * p + 2) = Some b ->
  data canvas !! (4 * p + 3) = Some a ->
  data (applyFilter canvas bw) !! (4 * p) = Some (bwChannel r g b)
  /\ data (applyFilter canvas bw) !! (4 * p + 1) = Some (bwChannel r g b)
  /\ data (applyFilter canvas bw) !! (4 * p + 2) = Some (bwChannel r g b)
  /\ data (applyFilter canvas bw) !! (4 * p + 3) = Some a
  /\ length (data (applyFilter canvas bw)) = length (data canvas).
Proof.
  intros Hctx Hr Hg Hb Ha. rewrite (applyFilter_bw_data canvas Hctx).
  destruct (forPixels_lookup grayscalePixel p _ r g b a Hr Hg Hb Ha) as (Hr1 & Hg1 & Hb1 & Ha1).
  rewrite grayscalePixel_luminance in Hr1, Hg1, Hb1. cbn [fst snd] in Hr1, Hg1, Hb1.
  destruct (forPixels_lookup (contrastPixel (contrastFactor (Str.parseFloat "1.2"))) p _ _ _ _ _
              Hr1 Hg1 Hb1 Ha1) as (Hr2 & Hg2 & Hb2 & Ha2).
  unfold contrastPixel in Hr2, Hg2, Hb2. cbn [fst snd] in Hr2, Hg2, Hb2.
  rewrite contrastChannel_bw in Hr2, Hg2, Hb2 by apply ToUint8Clamp_byte.
  rewrite !forPixels_length. unfold bwChannel. auto.
Qed.

#[local] Abbreviation twoPixels := Examples.twoPixels.

Lemma bw_transform_witness :
  data (applyFilter twoPixels bw) !! (4 * 1) = Some (bwChannel 10 20 30)
  /\ data (applyFilter twoPixels bw) !! (4 * 1 + 1) = Some (bwChannel 10 20 30)
  /\ data (applyFilter twoPixels bw) !! (4 * 1 + 2) = Some (bwChannel 10 20 30)
  /\ data (applyFilter twoPixels bw) !! (4 * 1 + 3) = Some 128%Z
  /\ length (data (applyFilter twoPixels bw)) = length (data twoPixels).
Proof. apply (bw_transform twoPixels 1 10 20 30 128); reflexivity. Defined.

(** The factor of contrast 1.2 is negative: light pixels come out dark. *)
Example bw_factor : factorOf 1.2%float = (-12.12340425531915)%float.
Proof. reflexivity. Qed.

Example bw_two_pixels :
  data (applyFilter twoPixels bw) = [176; 176; 176; 255; 255; 255; 255; 128]%Z.
Proof. vm_compute. reflexivity. Qed.

(** C9: the transform is deterministic: on two canvases with the same
    pixel buffer (and a 2d context or none alike), the same filter id gives
    the same output buffer. *)
Theorem filter_deterministic (f : FilterType) (c1 c2 : Canvas) :
  data c1 = data c2 ->
  context2d c1 = context2d c2 ->
  data (applyFilter c1 f) = data (applyFilter c2 f).
Proof.
  intros Hdata Hctx. unfold applyFilter, applyFilterToCanvas.
  rewrite Hdata, Hctx.
  destruct (String.eqb _ _); [exact Hdata|].
  destruct (context2d c2); cbn [negb data]; [reflexivity | exact Hdata].
Qed.

Lemma filter_deterministic_witness :
  data (applyFilter twoPixels vintage)
  = data (applyFilter (mkCanvas 1 2 true (data twoPixels)) vintage).
Proof. apply (filter_deterministic vintage); reflexivity. Defined.

(** The transform works in place: a second call on the same canvas starts
    from the output of the first. *)
Example bw_twice_in_place :
  data (applyFilter (applyFilter twoPixels bw) bw) = [0; 0; 0; 255; 0; 0; 0; 128]%Z.
Proof. vm_compute. reflexivity. Qed.

End PixelTransform.

(** ** The export as a sequence of actions *)

Section ExportLogic.

Import Editor EditorSession.

Context {Canvas : Type}.
Variable html2canvas : Composite -> JS.number -> string -> option Canvas.
Variable gifModule : bool.

#[local] Existing Instance M_ret.
#[local] Existing Instance M_bind.

#[local] Abbreviation St := (Editor.State Canvas).
#[local] Abbreviation Wd := (Editor.World Canvas).
#[local] Abbreviation Act := (Editor.M Canvas).

Lemma hoare_ret {A : Type} (P : Wd -> Prop) (a : A) (Q : A -> Wd -> Prop) (E : Wd -> Prop) :
  (forall w, P w -> Q a w) -> hoare P (ret a) Q E.
Proof. intros H w Hw. exact (H w Hw). Qed.

Lemma hoare_throw {A : Type} (P : Wd -> Prop) (Q : A -> Wd -> Prop) (E : Wd -> Prop) :
  (forall w, P w -> E w) -> hoare P (throw : Act A) Q E.
Proof. intros H w Hw. exact (H w Hw). Qed.

Lemma hoare_bind {A B : Type} (P : Wd -> Prop) (m : Act A) (k : A -> Act B)
    (R : A -> Wd -> Prop) (Q : B -> Wd -> Prop) (E : Wd -> Prop) :
  hoare P m R E -> (forall a, hoare (R a) (k a) Q E) -> hoare P (mbind (M := Act) k m) Q E.
Proof.
  intros Hm Hk w Hw. specialize (Hm w Hw).
  unfold mbind, M_bind, bind. destruct (m w) as [[a|] w1]; [|exact Hm].
  exact (Hk a w1 Hm).
Qed.

Lemma hoare_weaken {A : Type} (P P' : Wd -> Prop) (m : Act A)
    (Q Q' : A -> Wd -> Prop) (E E' : Wd -> Prop) :
  hoare P' m Q' E' ->
  (forall w, P w -> P' w) -> (forall a w, Q' a w -> Q a w) -> (forall w, E' w -> E w) ->
  hoare P m Q E.
Proof.
  intros Hm HP HQ HE w Hw. specialize (Hm w (HP w Hw)).
  destruct (m w) as [[a|] w1]; auto.
Qed.

Lemma hoare_update (P : Wd -> Prop) (f : St -> St) (Q : unit -> Wd -> Prop) (E : Wd -> Prop) :
  (forall w, P w -> Q tt (mkWorld (f (editor w)) (encoder w) (rasterLog w) (downloads w))) ->
  hoare P (update f) Q E.
Proof. intros H w Hw. exact (H w Hw). Qed.

Lemma hoare_foldM {A : Type} (I : A -> Wd -> Prop) (E : Wd -> Prop)
    (body : A -> nat -> Act A) (idx : list nat) :
  (forall a i, hoare (I a) (body a i) I E) ->
  forall a, hoare (I a) (foldM body idx a) I E.
Proof.
  intros Hbody. induction idx as [|i idx IH]; intros a.
  - apply hoare_ret. auto.
  - cbn [foldM]. eapply hoare_bind; [apply Hbody|]. exact IH.
Qed.

(** Cache keys tell the position, the filter and the border colour
    apart. *)
Lemma string_app_inv_head (a r1 r2 : string) : a +:+ r1 = a +:+ r2 -> r1 = r2.
Proof. induction a as [|c a IH]; simpl; intros H; [exact H|]. injection H as H. auto. Qed.

Lemma filterName_dashFree (f : FilterType) : Str.dashFree (filterName f).
Proof. destruct f; simpl; repeat split; discriminate. Qed.

Lemma filterName_inj (f f' : FilterType) : filterName f = filterName f' -> f = f'.
Proof. destruct f, f'; simpl; intros H; try reflexivity; discriminate. Qed.

Lemma cacheKey_inj_all (i j : nat) (f f' : FilterType) (border border' : string) :
  cacheKey (Z.of_nat i) f border = cacheKey (Z.of_nat j) f' border' ->
  i = j /\ f = f' /\ border = border'.
Proof.
  unfold cacheKey. intros Heq.
  pose proof Heq as Hi.
  apply split_at_dash in Hi; auto using pretty_position_dashFree.
  rewrite Hi in Heq. apply string_app_inv_head in Heq.
  apply string_app_inv_head in Heq.
  pose proof Heq as Hf.
  apply split_at_dash in Hf; auto using filterName_dashFree.
  rewrite Hf in Heq. apply string_app_inv_head in Heq.
  apply string_app_inv_head in Heq.
  apply (inj pretty) in Hi. apply filterName_inj in Hf.
  split; [lia|]. split; assumption.
Qed.

Lemma compositeAt_look (st st' : St) (f : FilterType) (i : nat) :
  photos st' = photos st -> layout st' = layout st ->
  borderColorState st' = borderColorState st -> stickers st' = stickers st ->
  compositeAt (receiveFilter f st') i = compositeAt (receiveFilter f st) i.
Proof.
  intros Hp Hl Hb Hs. unfold compositeAt, renderExport. simpl.
  rewrite Hp, Hl, Hb, Hs. reflexivity.
Qed.

Lemma coherent_look (st st' : St) :
  photos st' = photos st -> layout st' = layout st ->
  borderColorState st' = borderColorState st -> stickers st' = stickers st ->
  frameCache st' = frameCache st ->
  coherent html2canvas st -> coherent html2canvas st'.
Proof.
  intros Hp Hl Hb Hs Hc Hcoh i f c Hhit.
  rewrite (compositeAt_look st st') by assumption.
  apply Hcoh. rewrite <- Hc, <- Hb. exact Hhit.
Qed.

Lemma coherent_empty (st : St) : frameCache st = ∅ -> coherent html2canvas st.
Proof. intros Hc i f c Hhit. rewrite Hc, lookup_empty in Hhit. discriminate. Qed.

(** A raster of the strip as it is, cached under its own key, keeps the
    cache coherent. *)
Lemma coherent_insert (st : St) (i : nat) (c : Canvas) :
  coherent html2canvas st ->
  html2canvas (compositeAt st i) 1.5%float (filterValueOf (filter st)) = Some c ->
  coherent html2canvas
    (setFrameCache
       (<[cacheKey (Z.of_nat i) (filter st) (borderColorState st) := c]> (frameCache st)) st).
Proof.
  intros Hcoh Hc j f c' Hhit. cbn [frameCache borderColorState setFrameCache] in Hhit.
  destruct (decide (cacheKey (Z.of_nat i) (filter st) (borderColorState st)
                    = cacheKey (Z.of_nat j) f (borderColorState st))) as [Heq|Hne].
  - rewrite Heq, lookup_insert_eq in Hhit. injection Hhit as <-.
    apply cacheKey_inj_all in Heq. destruct Heq as (<- & <- & _).
    rewrite <- Hc. f_equal.
  - rewrite lookup_insert_ne in Hhit by exact Hne.
    specialize (Hcoh j f c' Hhit). rewrite <- Hcoh. f_equal.
Qed.

(** *** What every export keeps *)

Lemma kept_refl (w : Wd) : coherent html2canvas (editor w) -> kept html2canvas w w.
Proof. intros H. split; [apply sameLook_refl|]. repeat split; auto. Qed.

Lemma kept_flags (w0 w : Wd) (f : St -> St) :
  (forall st, sameLook st (f st)) -> (forall st, frameCache (f st) = frameCache st) ->
  kept html2canvas w0 w ->
  kept html2canvas w0 (mkWorld (f (editor w)) (encoder w) (rasterLog w) (downloads w)).
Proof.
  intros Hlook Hcache (Hl & Hcoh & Hsub & Hdl & Hlog).
  unfold kept. cbn [editor downloads rasterLog].
  pose proof (Hlook (editor w)) as Hl'.
  split; [eapply sameLook_trans; eauto|].
  split.
  { destruct Hl' as (Hp & Hy & _ & Hb & Hs & _).
    eapply coherent_look; eauto. }
  split; [rewrite Hcache; exact Hsub|].
  split; assumption.
Qed.

Lemma kept_encoder (w0 w : Wd) (e : option (Gif Canvas)) :
  kept html2canvas w0 w ->
  kept html2canvas w0 (mkWorld (editor w) e (rasterLog w) (downloads w)).
Proof. intros H. exact H. Qed.

Lemma kept_log (w0 w : Wd) (l : list Composite) :
  kept html2canvas w0 w ->
  kept html2canvas w0 (mkWorld (editor w) (encoder w) (rasterLog w ++ l) (downloads w)).
Proof.
  intros (Hl & Hcoh & Hsub & Hdl & Hlog). repeat split; try assumption; try apply Hl.
  cbn [rasterLog]. destruct Hlog as [k ->]. exists (k ++ l). symmetry. apply app_assoc.
Qed.

Lemma sameLook_setIsExporting (b : bool) (st : St) : sameLook st (setIsExporting b st).
Proof. repeat split. Qed.

Lemma sameLook_setDisplayFrameIndex (v : option Z) (st : St) : sameLook st (setDisplayFrameIndex v st).
Proof. repeat split. Qed.

Lemma sameLook_setGifProgress (p : JS.number) (st : St) : sameLook st (setGifProgress p st).
Proof. repeat split. Qed.

Section Kept.

Variable w0 : Wd.

#[local] Abbreviation K := (kept html2canvas w0).
#[local] Abbreviation keeps m := (hoare K m (fun _ => K) K).

Lemma keeps_update (f : St -> St) :
  (forall st, sameLook st (f st)) -> (forall st, frameCache (f st) = frameCache st) ->
  keeps (update f).
Proof. intros Hl Hc. apply hoare_update. intros w Hw. apply kept_flags; assumption. Qed.

Lemma keeps_rasterize (sc : JS.number) (fv : string) : keeps (rasterize html2canvas sc fv).
Proof.
  intros w Hw. unfold rasterize.
  destruct (html2canvas _ sc fv); apply (kept_log w0 w), Hw.
Qed.

Lemma keeps_newGIF (c : Canvas) (b : string) : keeps (newGIF c b).
Proof. intros w Hw. exact Hw. Qed.

Lemma keeps_addFrame (c : Canvas) (d : Z) : keeps (addFrame c d).
Proof. intros w Hw. unfold addFrame. destruct (encoder w); exact Hw. Qed.

Lemma keeps_gifRender : keeps gifRender.
Proof. intros w Hw. unfold gifRender. destruct (encoder w); exact Hw. Qed.

Lemma keeps_getFrame (i : nat) :
  keeps (getFrame html2canvas (filter (editor w0)) (borderColorState (editor w0))
           (filterValueOf (filter (editor w0))) (Z.of_nat i)).
Proof.
  intros w Hw. unfold getFrame.
  destruct (frameCache (editor w) !! _) as [cached|] eqn:Hlook; [exact Hw|].
  unfold mbind, M_bind, bind, update, rasterize, ret. cbn [editor encoder rasterLog downloads].
  set (st1 := setDisplayFrameIndex (Some (Z.of_nat i)) (editor w)).
  pose proof (kept_log w0 _ [renderExport st1]
                (kept_flags w0 w (setDisplayFrameIndex (Some (Z.of_nat i)))
                   (sameLook_setDisplayFrameIndex _) (fun _ => eq_refl) Hw)) as H1.
  cbn [editor encoder rasterLog downloads] in H1. fold st1 in H1.
  destruct (html2canvas (renderExport st1) 1.5%float _) as [c|] eqn:Hc; [|exact H1].
  destruct H1 as (Hl & Hcoh & Hsub & Hdl & Hlog).
  unfold kept. cbn [editor downloads rasterLog] in *.
  pose proof Hl as (Hp & Hy & Hf & Hb & Hs & Hm).
  split; [exact Hl|].
  split.
  { rewrite <- Hf, <- Hb. apply coherent_insert; [exact Hcoh|].
    rewrite Hf. exact Hc. }
  split.
  { cbn [frameCache setFrameCache]. etrans; [exact Hsub|].
    apply insert_subseteq. exact Hlook. }
  split; assumption.
Qed.

Lemma keeps_exportFrame (total cf i : nat) :
  keeps (exportFrame html2canvas (filter (editor w0)) (borderColorState (editor w0))
           (filterValueOf (filter (editor w0))) total cf i).
Proof.
  unfold exportFrame.
  eapply hoare_bind; [apply keeps_getFrame|]. intros c.
  eapply hoare_bind; [apply keeps_addFrame|]. intros ?.
  eapply hoare_bind;
    [apply keeps_update; [apply sameLook_setGifProgress | reflexivity]|].
  intros ?. apply hoare_ret. auto.
Qed.

Lemma keeps_exportLoops (k : nat) :
  keeps (exportLoops html2canvas (filter (editor w0)) (borderColorState (editor w0))
           (filterValueOf (filter (editor w0))) k).
Proof.
  unfold exportLoops.
  apply (hoare_foldM (fun _ => K)). intros cf _.
  apply (hoare_foldM (fun _ => K)). intros cf' i.
  apply keeps_exportFrame.
Qed.

Lemma keeps_downloadGifBody :
  keeps (downloadGifBody html2canvas gifModule (photos (editor w0)) (filter (editor w0))
           (borderColorState (editor w0))).
Proof.
  unfold downloadGifBody.
  eapply hoare_bind with (R := fun _ => K).
  { destruct gifModule; [apply hoare_ret | apply hoare_throw]; auto. }
  intros ?.
  destruct (burstLengthOf (photos (editor w0)) <=? 1)%nat.
  { apply keeps_update; [apply sameLook_setIsExporting | reflexivity]. }
  eapply hoare_bind;
    [apply keeps_update; [apply sameLook_setDisplayFrameIndex | reflexivity]|].
  intros ?. eapply hoare_bind; [apply keeps_rasterize|].
  intros testCanvas. eapply hoare_bind; [apply keeps_newGIF|].
  intros ?. eapply hoare_bind; [apply keeps_exportLoops|].
  intros ?. eapply hoare_bind;
    [apply keeps_update; [apply sameLook_setDisplayFrameIndex | reflexivity]|].
  intros ?. apply keeps_gifRender.
Qed.

End Kept.

(** Whatever happens in an export, it keeps the look of the strip, the
    coherence of the cache and every cached raster, and it downloads
    nothing by itself. *)
Lemma downloadGif_kept (w : Wd) :
  coherent html2canvas (editor w) ->
  kept html2canvas w (downloadGif html2canvas gifModule w).
Proof.
  intros Hcoh. unfold downloadGif.
  destruct (exportMounted (editor w)); cbn [negb]; [|apply kept_refl, Hcoh].
  assert (Hrun : hoare (kept html2canvas w)
                   (update (setIsExporting true) ;;
                    downloadGifBody html2canvas gifModule (photos (editor w))
                      (filter (editor w)) (borderColorState (editor w)))
                   (fun _ => kept html2canvas w) (kept html2canvas w)).
  { eapply hoare_bind;
      [apply keeps_update; [apply sameLook_setIsExporting | reflexivity]|].
    intros ?. apply keeps_downloadGifBody. }
  specialize (Hrun w (kept_refl w Hcoh)).
  destruct ((update (setIsExporting true) ;; downloadGifBody _ _ _ _ _) w) as [[u|] w1];
    [exact Hrun|].
  unfold mbind, M_bind, bind, update. cbn [snd editor encoder rasterLog downloads].
  pose proof (kept_flags w w1 (setIsExporting false)
                (sameLook_setIsExporting _) (fun _ => eq_refl) Hrun) as H1.
  exact (kept_flags w _ (setDisplayFrameIndex None)
           (sameLook_setDisplayFrameIndex _) (fun _ => eq_refl) H1).
Qed.

(** *** How an export ends *)

Lemma hoare_foldM_counted {A : Type} (I : nat -> Wd -> Prop) (E : Wd -> Prop)
    (body : A -> nat -> Act A) (idx : list nat) :
  (forall n a i, hoare (I n) (body a i) (fun _ => I (S n)) E) ->
  forall n a, hoare (I n) (foldM body idx a) (fun _ => I (n + length idx)) E.
Proof.
  intros Hbody. induction idx as [|i idx IH]; intros n a.
  - apply hoare_ret. intros w Hw. cbn [length]. rewrite Nat.add_0_r. exact Hw.
  - cbn [foldM length]. eapply hoare_bind; [apply Hbody|].
    intros a1. replace (n + S (length idx)) with (S n + length idx) by lia. apply IH.
Qed.

Lemma filling_flags (n : nat) (w : Wd) (f : St -> St) (l : list Composite) :
  (forall st, isExporting (f st) = isExporting st) ->
  filling n w -> filling n (mkWorld (f (editor w)) (encoder w) l (downloads w)).
Proof. intros Hf (He & Hg). split; [cbn [editor]; rewrite Hf; exact He | exact Hg]. Qed.

Lemma filling_stopped (e0 : option (Gif Canvas)) (n : nat) (w : Wd) :
  filling n w -> stopped e0 w.
Proof. intros (_ & g & Hg & Hr & _). right. eauto. Qed.

Section Filling.

Variable e0 : option (Gif Canvas).

Lemma fills_getFrame (n : nat) (f : FilterType) (b fv : string) (z : Z) :
  hoare (filling n) (getFrame html2canvas f b fv z) (fun _ => filling n) (stopped e0).
Proof.
  intros w Hw. unfold getFrame.
  destruct (frameCache (editor w) !! _) as [cached|]; [exact Hw|].
  unfold mbind, M_bind, bind, update, rasterize, ret. cbn [editor encoder rasterLog downloads].
  pose proof (filling_flags n w (setDisplayFrameIndex (Some z))
                (rasterLog w ++ [renderExport (setDisplayFrameIndex (Some z) (editor w))])
                (fun _ => eq_refl) Hw) as H1.
  destruct (html2canvas _ 1.5%float fv) as [c|]; [|exact (filling_stopped e0 n _ H1)].
  exact (filling_flags n _ (fun st => setFrameCache (<[cacheKey z f b := c]> (frameCache st)) st)
           _ (fun _ => eq_refl) H1).
Qed.

Lemma fills_addFrame (n : nat) (c : Canvas) :
  hoare (filling n) (addFrame c 100) (fun _ => filling (S n)) (stopped e0).
Proof.
  intros w (He & g & Hg & Hr & Hn & Hd). unfold addFrame. rewrite Hg.
  split; [exact He|]. eexists. split; [reflexivity|]. cbn [gifRendering gifFrames].
  split; [exact Hr|]. split.
  - rewrite length_app. cbn [length]. lia.
  - apply Forall_app. split; [exact Hd|]. constructor; [reflexivity | constructor].
Qed.

Lemma fills_exportFrame (n : nat) (f : FilterType) (b fv : string) (total cf i : nat) :
  hoare (filling n) (exportFrame html2canvas f b fv total cf i)
    (fun _ => filling (S n)) (stopped e0).
Proof.
  unfold exportFrame.
  eapply hoare_bind; [apply fills_getFrame|]. intros c.
  eapply hoare_bind; [apply fills_addFrame|]. intros ?.
  eapply hoare_bind with (R := fun _ => filling (S n)).
  { apply hoare_update. intros w Hw.
    exact (filling_flags (S n) w (setGifProgress _) (rasterLog w) (fun _ => eq_refl) Hw). }
  intros ?. apply hoare_ret. auto.
Qed.

Lemma fills_exportLoops (f : FilterType) (b fv : string) (k : nat) :
  hoare (filling 0) (exportLoops html2canvas f b fv k)
    (fun _ => filling (3 * k)) (stopped e0).
Proof.
  unfold exportLoops.
  pose proof (hoare_foldM_counted (fun n => filling (n * k)) (stopped e0)
                (fun currentFrame (_ : nat) =>
                   foldM (exportFrame html2canvas f b fv (loops * k)) (seq 0 k) currentFrame)
                (seq 0 loops)) as Houter.
  apply (Houter) with (n := 0) (a := 0).
  intros n cf _ w Hw.
  pose proof (hoare_foldM_counted filling (stopped e0)
                (exportFrame html2canvas f b fv (loops * k)) (seq 0 k)
                (fun m cf' i => fills_exportFrame m f b fv (loops * k) cf' i)
                (n * k) cf w Hw) as Hinner.
  destruct (foldM _ (seq 0 k) cf w) as [[a|] w1]; [|exact Hinner].
  rewrite length_seq in Hinner. replace (S n * k) with (n * k + k) by lia. exact Hinner.
Qed.

(** The [try] block ends in one of three ways: the export was refused, the
    encoder was started on three frames for each position of the first
    burst, or something was thrown before any encoder was started. *)
Lemma downloadGifBody_ends (d0 : option Z) (ps : list (list string)) (f : FilterType)
    (b : string) :
  hoare (fun w => started e0 w /\ displayFrameIndex (editor w) = d0)
    (downloadGifBody html2canvas gifModule ps f b)
    (fun _ w => (called_off e0 w /\ displayFrameIndex (editor w) = d0
                 /\ (burstLengthOf ps <= 1)%nat)
                \/ (launched (3 * burstLengthOf ps) w /\ (1 < burstLengthOf ps)%nat
                    /\ gifModule = true))
    (stopped e0).
Proof.
  unfold downloadGifBody.
  eapply hoare_bind with (R := fun _ w => (started e0 w /\ displayFrameIndex (editor w) = d0)
                                          /\ gifModule = true).
  { destruct gifModule; [apply hoare_ret; auto | apply hoare_throw].
    intros w ((_ & He) & _). left. exact He. }
  intros ?.
  destruct (burstLengthOf ps <=? 1)%nat eqn:Hk.
  { apply hoare_update. intros w (((He & Henc) & Hd) & _). left.
    apply Nat.leb_le in Hk. repeat split; auto. left. exact Henc. }
  apply Nat.leb_gt in Hk.
  eapply hoare_bind with (R := fun _ w => started e0 w /\ gifModule = true).
  { apply hoare_update. intros w (((He & Henc) & _) & Hg). repeat split; auto. }
  intros ?.
  eapply hoare_bind with (R := fun _ w => started e0 w /\ gifModule = true).
  { intros w ((He & Henc) & Hg). unfold rasterize.
    destruct (html2canvas _ _ _); [repeat split; auto | left; exact Henc]. }
  intros testCanvas.
  eapply hoare_bind with (R := fun _ w => filling 0 w /\ gifModule = true).
  { intros w ((He & Henc) & Hg). unfold newGIF. split; [|exact Hg]. split; [exact He|].
    eexists. split; [reflexivity|]. repeat split. constructor. }
  intros ?.
  eapply hoare_bind with (R := fun _ w => filling (3 * burstLengthOf ps) w /\ gifModule = true).
  { intros w (Hw & Hg). pose proof (fills_exportLoops f b (filterValueOf f) (burstLengthOf ps) w Hw) as H.
    destruct (exportLoops _ _ _ _ _ w) as [[n3|] w1]; [split; assumption | exact H]. }
  intros ?.
  eapply hoare_bind with (R := fun _ w => (filling (3 * burstLengthOf ps) w
                                            /\ displayFrameIndex (editor w) = None)
                                           /\ gifModule = true).
  { apply hoare_update. intros w ((He & Hg) & Hm). repeat split; auto. }
  intros ?. intros w (((He & g & Hg & Hr & Hn & Hd) & Hnone) & Hm).
  unfold gifRender. rewrite Hg. right. split; [|split; assumption].
  split; [exact He|]. split; [exact Hnone|].
  eexists. split; [reflexivity|]. repeat split; assumption.
Qed.

End Filling.

(** [downloadGif] ends flagged exactly when it has started the encoder. *)
Lemma downloadGif_ends (w : Wd) :
  exportMounted (editor w) = true ->
  let w' := downloadGif html2canvas gifModule w in
  (called_off (encoder w) w'
   /\ (displayFrameIndex (editor w') = None
       \/ displayFrameIndex (editor w') = displayFrameIndex (editor w)
          /\ (burstLengthOf (photos (editor w)) <= 1)%nat))
  \/ (launched (3 * burstLengthOf (photos (editor w))) w'
      /\ (1 < burstLengthOf (photos (editor w)))%nat /\ gifModule = true).
Proof.
  intros Hm. unfold downloadGif. rewrite Hm. cbn [negb].
  assert (Hrun : hoare (fun w1 => w1 = w)
                   (update (setIsExporting true) ;;
                    downloadGifBody html2canvas gifModule (photos (editor w))
                      (filter (editor w)) (borderColorState (editor w)))
                   (fun _ w' =>
                      (called_off (encoder w) w'
                       /\ displayFrameIndex (editor w') = displayFrameIndex (editor w)
                       /\ (burstLengthOf (photos (editor w)) <= 1)%nat)
                      \/ (launched (3 * burstLengthOf (photos (editor w))) w'
                          /\ (1 < burstLengthOf (photos (editor w)))%nat /\ gifModule = true))
                   (stopped (encoder w))).
  { eapply hoare_bind; [|intros ?; apply downloadGifBody_ends].
    apply hoare_update. intros w1 ->. repeat split. }
  specialize (Hrun w eq_refl). cbv zeta.
  destruct ((update (setIsExporting true) ;; downloadGifBody _ _ _ _ _) w) as [[u|] w1].
  - destruct Hrun as [(Hc & Hd & Hk)|Hl]; [left|right; exact Hl].
    split; [exact Hc|]. right. split; assumption.
  - left. split; [|left; reflexivity].
    split; [reflexivity|]. exact Hrun.
Qed.

(** *** The editor between two actions *)

Variable toBlob : Canvas -> string -> JS.number -> bool.

#[local] Abbreviation downloadImage := (EditorSession.downloadImage html2canvas toBlob).
#[local] Abbreviation act := (EditorSession.act html2canvas gifModule toBlob).
#[local] Abbreviation actAll := (EditorSession.actAll html2canvas gifModule toBlob).
#[local] Abbreviation settled := (EditorSession.settled html2canvas).

(** The three ways [downloadImage] can end leave the same editor. *)
Lemma downloadImage_editor (now : Z) (format : Format) (w : Wd) :
  exportMounted (editor w) = true ->
  editor (downloadImage now format w)
  = setIsExporting false (setDisplayFrameIndex None (setIsExporting true (editor w))).
Proof.
  intros Hm. unfold EditorSession.downloadImage. rewrite Hm. cbn [negb].
  unfold downloadImageBody, mbind, M_bind, bind, update, rasterize, linkClick.
  cbn [editor encoder rasterLog downloads].
  destruct (html2canvas _ _ _) as [canvas|]; [|reflexivity].
  destruct (toBlob canvas _ _); reflexivity.
Qed.

Lemma edit_static (e : Edit) (st : St) :
  photos (edit e st) = photos st /\ layout (edit e st) = layout st
  /\ filter (edit e st) = filter st
  /\ exportMounted (edit e st) = exportMounted st
  /\ displayFrameIndex (edit e st) = displayFrameIndex st
  /\ isExporting (edit e st) = isExporting st
  /\ frameCache (edit e st) = ∅.
Proof. destruct e; repeat split. Qed.

Lemma act_settled (ps : list (list string)) (l : LayoutType) (a : Action) (w : Wd) :
  settled ps l w -> settled ps l (act a w).
Proof.
  intros Hw. pose proof Hw as (Hcoh & Hp & Hl & Hm & Hd & Hs).
  destruct a as [e|f| |now format|p|now|]; unfold EditorSession.act.
  - pose proof (edit_static e (editor w)) as (Ep & El & _ & Em & Ed & _ & Ec).
    unfold EditorSession.settled, update. cbn [snd editor].
    split; [apply coherent_empty, Ec|].
    split; [congruence|]. split; [congruence|]. split; [congruence|]. split; [congruence|].
    apply (edit_in_orbit (Canvas := Canvas)). exact Hs.
  - unfold EditorSession.settled, update. cbn [snd editor].
    split; [eapply coherent_look; eauto|]. repeat split; assumption.
  - destruct (isExporting (editor w)); [exact Hw|].
    pose proof (downloadGif_kept w Hcoh) as (Hlook & Hcoh' & _).
    pose proof (downloadGif_ends w Hm) as Hends. cbv zeta in Hends.
    destruct Hlook as (Kp & Kl & _ & _ & Ks & Km).
    split; [exact Hcoh'|].
    split; [congruence|]. split; [congruence|]. split; [congruence|].
    split; [|rewrite Ks; exact Hs].
    destruct Hends as [(_ & [Hn|[Hn _]])|((_ & Hn & _) & _)]; congruence.
  - destruct (isExporting (editor w)); [exact Hw|].
    unfold EditorSession.settled. rewrite (downloadImage_editor now format w Hm).
    split; [eapply coherent_look; eauto|]. repeat split; assumption.
  - destruct (rendering w); [|exact Hw].
    unfold EditorSession.settled, gifProgressed, update. cbn [snd editor].
    split; [eapply coherent_look; eauto|]. repeat split; assumption.
  - destruct (rendering w); [|exact Hw].
    unfold EditorSession.settled, gifFinished, update. cbn [snd editor].
    split; [eapply coherent_look; eauto|]. repeat split; assumption.
  - unfold EditorSession.settled, gifFinishedCleanup, mbind, M_bind, bind, update.
    cbn [snd editor].
    split; [eapply coherent_look; eauto|]. repeat split; assumption.
Qed.

Lemma mount_settled (ps : list (list string)) (l : LayoutType) (f : FilterType) :
  settled ps l (enter (mount ps l f)).
Proof.
  split; [apply coherent_empty; reflexivity|]. repeat split. constructor.
Qed.

Lemma actAll_settled (ps : list (list string)) (l : LayoutType) (actions : list Action) :
  forall w, settled ps l w -> settled ps l (actAll actions w).
Proof.
  induction actions as [|a actions IH]; intros w Hw; [exact Hw|].
  apply IH, act_settled, Hw.
Qed.

(** *** An export in which nothing throws *)

(** The three loops, with what they leave in the cache. *)
Lemma exportLoops_cache (frame : nat -> Canvas) (k : nat) (w : Wd) (g : Gif Canvas) :
  encoder w = Some g ->
  (forall i, (i < k)%nat -> frameOf html2canvas (editor w) i = Some (frame i)) ->
  exists w',
    exportLoops html2canvas (filter (editor w)) (borderColorState (editor w))
      (filterValueOf (filter (editor w))) k w = (Some (3 * k), w')
    /\ encoder w' = Some (mkGif (gifSize g) (gifBackground g)
                           (gifFrames g
                              ++ concat (replicate 3 (map (fun i => (frame i, 100%Z)) (seq 0 k))))
                           (gifRendering g))
    /\ sameLook (editor w) (editor w')
    /\ downloads w' = downloads w
    /\ rasterLog w' = rasterLog w
                      ++ map (compositeAt (editor w)) (List.filter (missAt (editor w)) (seq 0 k))
    /\ (forall i, (i < k)%nat -> missAt (editor w') i = false)
    /\ (forall j, frameOf html2canvas (editor w') j = frameOf html2canvas (editor w) j).
Proof.
  intros Henc Hframes.
  assert (Hin : forall i, In i (seq 0 k) -> frameOf html2canvas (editor w) i = Some (frame i)).
  { intros i Hi. apply Hframes. apply in_seq in Hi. lia. }
  pose proof (NoDup_seq 0 k) as Hnd.
  set (total := loops * k).
  destruct (innerLoop_spec html2canvas frame total (seq 0 k) Hnd 0 w g Henc Hin)
    as (w1 & Hrun1 & Henc1 & Hlook1 & Hdl1 & Hlog1 & Hhit1 & Hkeep1 & Hsame1).
  destruct (innerLoop_spec html2canvas frame total (seq 0 k) Hnd (0 + length (seq 0 k)) w1 _ Henc1)
    as (w2 & Hrun2 & Henc2 & Hlook2 & Hdl2 & Hlog2 & Hhit2 & Hkeep2 & Hsame2).
  { intros i Hi. rewrite Hsame1. apply Hin, Hi. }
  destruct (innerLoop_spec html2canvas frame total (seq 0 k) Hnd
              (0 + length (seq 0 k) + length (seq 0 k)) w2 _ Henc2)
    as (w3 & Hrun3 & Henc3 & Hlook3 & Hdl3 & Hlog3 & Hhit3 & Hkeep3 & Hsame3).
  { intros i Hi. rewrite Hsame2, Hsame1. apply Hin, Hi. }
  pose proof Hlook1 as (_ & _ & Hf1 & Hb1 & _).
  pose proof Hlook2 as (_ & _ & Hf2 & Hb2 & _).
  exists w3. split.
  { unfold exportLoops. cbv zeta. fold total. change (seq 0 loops) with [0; 1; 2].
    cbn [foldM]. unfold mbind, M_bind, bind. rewrite Hrun1.
    rewrite <- Hf1, <- Hb1. rewrite Hrun2.
    rewrite <- Hf2, <- Hb2. rewrite Hrun3.
    unfold ret. f_equal. f_equal. rewrite length_seq. lia. }
  split.
  { rewrite Henc3. simpl. rewrite app_nil_r, <- !app_assoc. reflexivity. }
  split; [eauto using sameLook_trans|].
  split; [congruence|].
  split.
  { rewrite Hlog3, Hlog2, Hlog1.
    rewrite (filter_none _ _ Hhit1), (filter_none _ _ Hhit2). simpl.
    rewrite !app_nil_r. reflexivity. }
  split.
  { intros i Hi. apply Hhit3. apply in_seq. lia. }
  intros j. rewrite Hsame3, Hsame2. apply Hsame1.
Qed.

(** An export from any world, when the module loads, the first burst has
    two frames or more and every rasterization it needs succeeds. *)
Lemma downloadGif_runs (w : Wd) (test : Canvas) (frame : nat -> Canvas) :
  let st := editor w in
  let k := burstLengthOf (photos st) in
  exportMounted st = true ->
  gifModule = true ->
  (1 < k)%nat ->
  html2canvas (compositeAt st 0) 1.5%float (filterValueOf (filter st)) = Some test ->
  (forall i, (i < k)%nat -> frameOf html2canvas st i = Some (frame i)) ->
  let w' := downloadGif html2canvas gifModule w in
  encoder w'
  = Some (mkGif test (borderColorState st)
            (concat (replicate 3 (map (fun i => (frame i, 100%Z)) (seq 0 k)))) true)
  /\ rasterLog w'
     = rasterLog w ++ compositeAt st 0 :: map (compositeAt st) (List.filter (missAt st) (seq 0 k))
  /\ downloads w' = downloads w
  /\ sameLook st (editor w')
  /\ isExporting (editor w') = true
  /\ displayFrameIndex (editor w') = None
  /\ (forall i, (i < k)%nat ->
        frameCache (editor w') !! cacheKey (Z.of_nat i) (filter st) (borderColorState st)
        = Some (frame i)).
Proof.
  intros st k Hmounted Hgif Hk Htest Hframes.
  set (wB := mkWorld (setDisplayFrameIndex (Some 0%Z) (setIsExporting true st))
               (Some (mkGif test (borderColorState st) [] false))
               (rasterLog w ++ [compositeAt st 0]) (downloads w)).
  assert (HlookB : sameLook st (editor wB)) by (repeat split).
  assert (HframesB : forall i, (i < k)%nat -> frameOf html2canvas (editor wB) i = Some (frame i)).
  { intros i Hi.
    rewrite (proj1 (sameLook_frameOf html2canvas st (editor wB) i HlookB eq_refl)).
    apply Hframes, Hi. }
  destruct (exportLoops_cache frame k wB _ eq_refl HframesB)
    as (w3 & Hrun & Henc3 & Hlook3 & Hdl3 & Hlog3 & Hhit3 & Hsame3).
  assert (Hfill : filling (3 * k) w3).
  { assert (H0 : filling 0 wB).
    { split; [reflexivity|]. eexists. split; [reflexivity|]. repeat split. constructor. }
    pose proof (fills_exportLoops (encoder w) (filter st) (borderColorState st)
                  (filterValueOf (filter st)) k wB H0) as H.
    change (exportLoops html2canvas (filter st) (borderColorState st)
              (filterValueOf (filter st)) k wB = (Some (3 * k), w3)) in Hrun.
    rewrite Hrun in H. exact H. }
  assert (Hresult : downloadGif html2canvas gifModule w
                    = snd (gifRender (snd (update (setDisplayFrameIndex None) w3)))).
  { unfold downloadGif. fold st. rewrite Hmounted. cbn [negb].
    unfold downloadGifBody. rewrite Hgif. fold k.
    assert (Hle : (k <=? 1)%nat = false) by (apply Nat.leb_gt; exact Hk). rewrite Hle.
    unfold mbind, M_bind, bind, update, ret, rasterize, newGIF.
    cbn [editor encoder rasterLog downloads]. fold st.
    change (renderExport (setDisplayFrameIndex (Some 0%Z) (setIsExporting true st)))
      with (compositeAt st 0).
    rewrite Htest.
    change (exportLoops html2canvas (filter st) (borderColorState st)
              (filterValueOf (filter st)) k wB = (Some (3 * k), w3)) in Hrun.
    fold wB. rewrite Hrun. unfold gifRender. cbn [encoder editor]. rewrite Henc3.
    reflexivity. }
  cbv zeta. rewrite Hresult. unfold gifRender, update. cbn [encoder snd]. rewrite Henc3.
  cbn [encoder editor rasterLog downloads gifRendering gifFrames gifSize gifBackground app].
  split; [reflexivity|].
  split; [rewrite Hlog3; cbn [rasterLog wB]; rewrite <- app_assoc; reflexivity|].
  split; [exact Hdl3|].
  split.
  { destruct Hlook3 as (Hp & Hl & Hf & Hb & Hs & Hm). repeat split; assumption. }
  split; [exact (proj1 Hfill)|].
  split; [reflexivity|].
  intros i Hi. cbn [frameCache setDisplayFrameIndex].
  pose proof (Hhit3 i Hi) as Hmiss. pose proof (Hsame3 i) as Hsame.
  rewrite HframesB in Hsame by exact Hi.
  rewrite (missAt_frameOf html2canvas _ _ Hmiss) in Hsame.
  destruct Hlook3 as (_ & _ & Hf & Hb & _). rewrite Hf, Hb in Hsame. exact Hsame.
Qed.



(** X3: a GIF export on the mounted editor ends in one of two ways,
    whatever the rasterizer does.  Either [isExporting] is false again and
    no encoder is rendering (the export was refused, and then the displayed
    frame is as before, or something was thrown and caught, and then the
    last frame is displayed again); or [isExporting] is true, the last frame
    is displayed again and the encoder was started, on exactly three frames
    for each position of the first burst, each with a delay of 100 ms. *)
Theorem export_flag_matches_encoder (st : St) :
  exportMounted st = true ->
  let w' := downloadGif html2canvas gifModule (enter st) in
  (isExporting (editor w') = false
   /\ rendering w' = false
   /\ (displayFrameIndex (editor w') = None
       \/ displayFrameIndex (editor w') = displayFrameIndex st
          /\ (burstLengthOf (photos st) <= 1)%nat))
  \/ (isExporting (editor w') = true
      /\ displayFrameIndex (editor w') = None
      /\ gifModule = true
      /\ (1 < burstLengthOf (photos st))%nat
      /\ exists g, encoder w' = Some g /\ gifRendering g = true
                   /\ length (gifFrames g) = 3 * burstLengthOf (photos st)
                   /\ Forall (fun fr => fr.2 = 100%Z) (gifFrames g)).
Proof.
  intros Hm. cbv zeta.
  pose proof (downloadGif_ends (enter st) Hm) as Hends.
  cbv zeta in Hends. cbn [editor enter encoder] in Hends.
  destruct Hends as [((Hflag & Hstop) & Hd)|((Hflag & Hd & Hg) & Hk & Hmod)].
  - left. split; [exact Hflag|]. split; [|exact Hd].
    unfold rendering. destruct Hstop as [->|(g & -> & Hr)]; [reflexivity | exact Hr].
  - right. repeat split; assumption.
Qed.

(** X4: a still export ([downloadImage]) of the mounted editor
    rasterizes the export container exactly once, at scale 2, with the last
    frame of every burst shown, whatever frame was displayed before.  It
    hands the browser one file, [photobooth-<now>.<png|jpg>], when the
    rasterization succeeds and [toBlob] gives a blob, and no file otherwise;
    in all three cases [isExporting] is false again afterwards, the last
    frame stays displayed, and the frame cache and the look of the strip are
    untouched. *)
Theorem still_export_outcome (now : Z) (format : Format) (st : St) :
  exportMounted st = true ->
  let w' := downloadImage now format (enter st) in
  let dom := renderExport (setDisplayFrameIndex None st) in
  rasterLog w' = [dom]
  /\ images dom = map (@last string) (photos st)
  /\ downloads w'
     = match html2canvas dom 2%float (filterValueOf (filter st)) with
       | Some canvas =>
           if toBlob canvas (mimeType format) (quality format)
           then ["photobooth-" +:+ pretty now +:+ "." +:+ formatName format]
           else []
       | None => []
       end
  /\ isExporting (editor w') = false
  /\ displayFrameIndex (editor w') = None
  /\ frameCache (editor w') = frameCache st
  /\ sameLook st (editor w')
  /\ encoder w' = None.
Proof.
  intros Hm. cbv zeta.
  pose proof (downloadImage_editor now format (enter st) Hm) as Hed.
  cbn [editor enter] in Hed. rewrite Hed.
  unfold EditorSession.downloadImage. cbn [editor enter]. rewrite Hm. cbn [negb].
  unfold downloadImageBody, mbind, M_bind, bind, update, rasterize, linkClick.
  cbn [editor encoder rasterLog downloads].
  change (renderExport (setDisplayFrameIndex None (setIsExporting true st)))
    with (renderExport (setDisplayFrameIndex None st)).
  assert (Himg : images (renderExport (setDisplayFrameIndex None st))
                 = map (@last string) (photos st)).
  { cbn [images renderExport displayFrameIndex setDisplayFrameIndex photos].
    apply map_ext. intros burst. apply at_index_last. }
  destruct (html2canvas _ 2%float _) as [canvas|].
  - destruct (toBlob canvas _ _); cbn [rasterLog downloads encoder app snd];
      repeat split; exact Himg.
  - cbn [rasterLog downloads encoder app snd]. repeat split; exact Himg.
Qed.


(** X6: when nothing throws, the GIF export itself downloads nothing and
    leaves [isExporting] true; the [finished] handler of the encoder sets
    the progress to 100 and hands the browser exactly one file,
    [photobooth-motion-<now>.gif]; the timeout it sets then resets
    [isExporting] and the progress.  Through all of it the strip looks the
    same, the last frame is displayed and the cache filled by the export is
    kept. *)
Theorem gif_file_after_encoding (st : St) (raster : nat -> Canvas) (now : Z) :
  let k := burstLengthOf (photos st) in
  exportMounted st = true ->
  gifModule = true ->
  (1 < k)%nat ->
  (forall i, (i < k)%nat ->
     html2canvas (compositeAt st i) 1.5%float (filterValueOf (filter st)) = Some (raster i)) ->
  let w1 := downloadGif html2canvas gifModule (enter st) in
  let w2 := gifFinished now w1 in
  let w3 := gifFinishedCleanup w2 in
  (downloads w1 = [] /\ isExporting (editor w1) = true)
  /\ (downloads w2 = ["photobooth-motion-" +:+ pretty now +:+ ".gif"]
      /\ gifProgress (editor w2) = 100%float
      /\ isExporting (editor w2) = true)
  /\ (downloads w3 = downloads w2
      /\ isExporting (editor w3) = false
      /\ gifProgress (editor w3) = 0%float
      /\ displayFrameIndex (editor w3) = None
      /\ sameLook st (editor w3)
      /\ frameCache (editor w3) = frameCache (editor w1)).
Proof.
  intros k Hm Hgif Hk Hraster.
  set (frame := fun i =>
         match frameCache st !! cacheKey (Z.of_nat i) (filter st) (borderColorState st) with
         | Some cached => cached
         | None => raster i
         end).
  assert (Hframes : forall i, (i < k)%nat -> frameOf html2canvas st i = Some (frame i)).
  { intros i Hi. unfold frameOf, frame.
    destruct (frameCache st !! _); [reflexivity|]. apply Hraster, Hi. }
  assert (H0 : (0 < k)%nat) by (apply Nat.lt_trans with 1; [constructor | exact Hk]).
  pose proof (downloadGif_runs (enter st) (raster 0) frame Hm Hgif Hk (Hraster 0 H0) Hframes)
    as (_ & _ & Hdl1 & Hlook1 & Hex1 & Hd1 & _).
  cbn [editor enter rasterLog downloads] in Hdl1, Hlook1, Hex1, Hd1.
  intros w1 w2 w3. fold w1 in Hdl1, Hlook1, Hex1, Hd1.
  split; [split; assumption|].
  split.
  { unfold w2, gifFinished, update. cbn [snd editor encoder rasterLog downloads].
    rewrite Hdl1. repeat split. exact Hex1. }
  unfold w3, w2, gifFinishedCleanup, gifFinished, mbind, M_bind, bind, update.
  cbn [snd editor encoder rasterLog downloads].
  split; [reflexivity|]. split; [reflexivity|]. split; [reflexivity|].
  split; [exact Hd1|]. split; [|reflexivity].
  destruct Hlook1 as (Hp1 & Hl1 & Hf1 & Hb1 & Hs1 & Hm1). repeat split; assumption.
Qed.


(** X8: an export that cannot start.  When [import("gif.js")] fails,
    nothing is rasterized; when the test frame cannot be rasterized, it is
    the only rasterization.  In both cases no encoder is created, the cache
    is untouched, [isExporting] is false again and the last frame is
    displayed. *)
Theorem export_aborted_before_the_loops (w : Wd) :
  exportMounted (editor w) = true ->
  gifModule = false
  \/ ((1 < burstLengthOf (photos (editor w)))%nat
      /\ html2canvas (compositeAt (editor w) 0) 1.5%float
           (filterValueOf (filter (editor w))) = None) ->
  let w' := downloadGif html2canvas gifModule w in
  rasterLog w' = rasterLog w ++ (if gifModule then [compositeAt (editor w) 0] else [])
  /\ encoder w' = encoder w
  /\ downloads w' = downloads w
  /\ frameCache (editor w') = frameCache (editor w)
  /\ isExporting (editor w') = false
  /\ displayFrameIndex (editor w') = None
  /\ sameLook (editor w) (editor w').
Proof.
  intros Hm Hwhy. cbv zeta. unfold downloadGif. rewrite Hm. cbn [negb].
  unfold downloadGifBody.
  destruct Hwhy as [Hgif|(Hk & Htest)].
  - rewrite Hgif. unfold mbind, M_bind, bind, update, throw.
    cbn [snd editor encoder rasterLog downloads]. rewrite app_nil_r. repeat split.
  - destruct gifModule.
    + assert (Hle : (burstLengthOf (photos (editor w)) <=? 1)%nat = false)
        by (apply Nat.leb_gt; exact Hk).
      rewrite Hle.
      unfold mbind, M_bind, bind, update, ret, rasterize.
      cbn [editor encoder rasterLog downloads].
      change (renderExport (setDisplayFrameIndex (Some 0%Z) (setIsExporting true (editor w))))
        with (compositeAt (editor w) 0).
      rewrite Htest. cbn [snd editor encoder rasterLog downloads]. repeat split.
    + unfold mbind, M_bind, bind, update, throw.
      cbn [snd editor encoder rasterLog downloads]. rewrite app_nil_r. repeat split.
Qed.

End ExportLogic.

Section ExportLogicExamples.

Import Editor EditorSession.

#[local] Abbreviation mixed := Examples.mixedBursts.
#[local] Abbreviation snapshot := Examples.snapshot.


Lemma export_flag_matches_encoder_witness :
  let w' := downloadGif snapshot true (enter mixed) in
  (isExporting (editor w') = false
   /\ rendering w' = false
   /\ (displayFrameIndex (editor w') = None
       \/ displayFrameIndex (editor w') = displayFrameIndex mixed
          /\ (burstLengthOf (photos mixed) <= 1)%nat))
  \/ (isExporting (editor w') = true
      /\ displayFrameIndex (editor w') = None
      /\ true = true
      /\ (1 < burstLengthOf (photos mixed))%nat
      /\ exists g, encoder w' = Some g /\ gifRendering g = true
                   /\ length (gifFrames g) = 3 * burstLengthOf (photos mixed)
                   /\ Forall (fun fr => fr.2 = 100%Z) (gifFrames g)).
Proof. apply (export_flag_matches_encoder snapshot true mixed). reflexivity. Defined.

Lemma still_export_outcome_witness :
  let w' := downloadImage snapshot Samples.alwaysBlob 1700000000000 jpg (enter mixed) in
  rasterLog w' = [renderExport mixed]
  /\ downloads w' = ["photobooth-1700000000000.jpg"]
  /\ isExporting (editor w') = false.
Proof.
  destruct (still_export_outcome snapshot Samples.alwaysBlob 1700000000000 jpg mixed eq_refl)
    as (Hlog & _ & Hdl & Hflag & _).
  split; [exact Hlog|]. split; [exact Hdl|]. exact Hflag.
Defined.


Lemma gif_file_after_encoding_witness :
  let w1 := downloadGif snapshot true (enter mixed) in
  downloads (gifFinished 1700000000000 w1) = ["photobooth-motion-1700000000000.gif"]
  /\ isExporting (editor (gifFinishedCleanup (gifFinished 1700000000000 w1))) = false.
Proof.
  destruct (gif_file_after_encoding snapshot true mixed (compositeAt mixed) 1700000000000
              eq_refl eq_refl)
    as (_ & (Hdl & _) & (_ & Hflag & _)).
  - simpl. lia.
  - intros i _. reflexivity.
  - split; [exact Hdl | exact Hflag].
Defined.

Lemma export_aborted_before_the_loops_witness :
  let w' := downloadGif Samples.noRaster true (enter mixed) in
  rasterLog w' = [compositeAt mixed 0]
  /\ encoder w' = None
  /\ isExporting (editor w') = false.
Proof.
  destruct (export_aborted_before_the_loops Samples.noRaster true (enter mixed) eq_refl)
    as (Hlog & Henc & _ & _ & Hflag & _).
  - right. split; [simpl; lia | reflexivity].
  - split; [exact Hlog|]. split; [exact Henc | exact Hflag].
Defined.

End ExportLogicExamples.

(** ** Clamped numbers *)

Section Clamps.

Local Open Scope float_scope.

Lemma is_nan_false_compare (a b : float) :
  JS.is_nan a = false -> JS.is_nan b = false ->
  exists c, SFcompare (Prim2SF a) (Prim2SF b) = Some c.
Proof.
  unfold JS.is_nan. intros Ha Hb.
  apply negb_false_iff in Ha, Hb. rewrite FloatAxioms.eqb_spec in Ha, Hb. unfold SFeqb in Ha, Hb.
  destruct (Prim2SF a) as [sa|sa| |sa ma ea], (Prim2SF b) as [sb|sb| |sb mb eb];
    simpl in *; try discriminate; eauto.
Qed.

(** Two numbers, neither NaN, are ordered one way or the other. *)
Lemma not_ltb_leb (a b : float) :
  JS.is_nan a = false -> JS.is_nan b = false -> (a <? b) = false -> (b <=? a) = true.
Proof.
  intros Ha Hb. destruct (is_nan_false_compare a b Ha Hb) as [c Hc].
  rewrite FloatAxioms.ltb_spec, FloatAxioms.leb_spec. unfold SFltb, SFleb.
  rewrite (SFcompare_antisym (Prim2SF a) (Prim2SF b)), Hc.
  destruct c; simpl; congruence.
Qed.

Lemma ltb_leb (a b : float) : (a <? b) = true -> (a <=? b) = true.
Proof.
  rewrite FloatAxioms.ltb_spec, FloatAxioms.leb_spec. unfold SFltb, SFleb.
  destruct (SFcompare (Prim2SF a) (Prim2SF b)) as [[]|]; congruence.
Qed.

Lemma leb_refl (a : float) : JS.is_nan a = false -> (a <=? a) = true.
Proof.
  unfold JS.is_nan. intros Ha. apply negb_false_iff in Ha.
  rewrite FloatAxioms.eqb_spec in Ha. rewrite FloatAxioms.leb_spec. unfold SFeqb in Ha. unfold SFleb.
  destruct (SFcompare (Prim2SF a) (Prim2SF a)) as [[]|]; congruence.
Qed.

(** [Math.min(hi, v)] is NaN exactly when [v] is, and otherwise at most
    [hi]. *)
Lemma Math_min_le (hi v : float) :
  JS.is_nan hi = false -> JS.is_zero hi = false ->
  JS.is_nan (JS.Math_min hi v) = JS.is_nan v
  /\ (JS.is_nan v = false ->
      (JS.Math_min hi v <=? hi) = true
      /\ (JS.Math_min hi v = v \/ JS.Math_min hi v = hi)).
Proof.
  intros Hhi Hz. unfold JS.Math_min. rewrite Hhi, Hz. simpl orb. simpl andb.
  destruct (JS.is_nan v) eqn:Hv.
  - split; [reflexivity | discriminate].
  - destruct (v <? hi) eqn:Hlt.
    + split; [exact Hv|]. intros _. split; [apply ltb_leb, Hlt | left; reflexivity].
    + split; [exact Hhi|]. intros _. split; [apply leb_refl, Hhi | right; reflexivity].
Qed.

(** [Math.max(lo, Math.min(hi, v))] is NaN exactly when [v] is, and
    otherwise lies between [lo] and [hi]. *)
Lemma clamp_between (lo hi v : float) :
  JS.is_nan lo = false -> JS.is_neg_zero lo = false ->
  JS.is_nan hi = false -> JS.is_zero hi = false ->
  (lo <=? hi) = true ->
  JS.is_nan (JS.Math_max lo (JS.Math_min hi v)) = JS.is_nan v
  /\ (JS.is_nan v = false ->
      (lo <=? JS.Math_max lo (JS.Math_min hi v)) = true
      /\ (JS.Math_max lo (JS.Math_min hi v) <=? hi) = true).
Proof.
  intros Hlo Hnz Hhi Hz Hle.
  destruct (Math_min_le hi v Hhi Hz) as (Hnan & Hmin).
  set (m := JS.Math_min hi v) in *.
  unfold JS.Math_max. rewrite Hlo, Hnz, Hnan. simpl orb. simpl andb.
  destruct (JS.is_nan v) eqn:Hv.
  - split; [reflexivity | discriminate].
  - destruct (Hmin eq_refl) as (Hmhi & _).
    destruct (lo <? m) eqn:Hlt.
    + split; [exact Hnan|]. intros _. split; [apply ltb_leb, Hlt | exact Hmhi].
    + split; [exact Hlo|]. intros _. split; [apply leb_refl, Hlo | exact Hle].
Qed.

Lemma ltb_nan_r (a : float) : (a <? nan) = false.
Proof.
  rewrite FloatAxioms.ltb_spec. change (Prim2SF nan) with S754_nan. unfold SFltb.
  destruct (Prim2SF a) as [sa|sa| |sa ma ea]; reflexivity.
Qed.

Lemma ltb_nan_l (a : float) : (nan <? a) = false.
Proof.
  rewrite FloatAxioms.ltb_spec. change (Prim2SF nan) with S754_nan. reflexivity.
Qed.

Lemma leb_not_ltb (a b : float) : (a <=? b) = true -> (b <? a) = false.
Proof.
  rewrite FloatAxioms.ltb_spec, FloatAxioms.leb_spec. unfold SFltb, SFleb.
  rewrite (SFcompare_antisym (Prim2SF a) (Prim2SF b)).
  destruct (SFcompare (Prim2SF a) (Prim2SF b)) as [[]|]; simpl; congruence.
Qed.

(** Clamping a NaN gives NaN. *)
Lemma clamp_nan (lo hi v : float) :
  JS.is_nan v = true -> JS.Math_max lo (JS.Math_min hi v) = nan.
Proof.
  intros Hv. unfold JS.Math_min. rewrite Hv, orb_true_r.
  unfold JS.Math_max. change (JS.is_nan nan) with true. rewrite orb_true_r. reflexivity.
Qed.

(** The clamped number is never above [hi] nor below [lo]. *)
Lemma clamp_not_outside (lo hi v : float) :
  JS.is_nan lo = false -> JS.is_neg_zero lo = false ->
  JS.is_nan hi = false -> JS.is_zero hi = false ->
  (lo <=? hi) = true ->
  (hi <? JS.Math_max lo (JS.Math_min hi v)) = false
  /\ (JS.Math_max lo (JS.Math_min hi v) <? lo) = false.
Proof.
  intros Hlo Hnz Hhi Hz Hle.
  destruct (JS.is_nan v) eqn:Hv.
  - rewrite (clamp_nan lo hi v Hv). split; [apply ltb_nan_r | apply ltb_nan_l].
  - destruct (clamp_between lo hi v Hlo Hnz Hhi Hz Hle) as (_ & Hb).
    destruct (Hb Hv) as (H1 & H2). split; apply leb_not_ltb; assumption.
Qed.

End Clamps.

Section ClampedValues.

Import Editor EditorSession.
Local Open Scope float_scope.

(** X9: the preview scale that [calculateScale] sets is clamped to
    [0.4, 0.9]: whatever the measured sizes, it is never above 0.9 nor
    below 0.4; it is NaN exactly when the smaller of the two fitting ratios
    is NaN (a size of 0 against 0, say), and otherwise it lies between 0.4
    and 0.9.  The wrapper height that is set is the strip height times that
    scale. *)
Theorem preview_scale_clamped (containerHeight stripHeight containerWidth stripWidth : float) :
  let fit := JS.Math_min ((containerHeight - 40) / stripHeight)
               ((containerWidth - 40) / stripWidth) in
  let s := (calculateScale containerHeight stripHeight containerWidth stripWidth).1 in
  let h := (calculateScale containerHeight stripHeight containerWidth stripWidth).2 in
  JS.is_nan s = JS.is_nan fit
  /\ (JS.is_nan fit = false -> (0.4 <=? s) = true /\ (s <=? 0.9) = true)
  /\ (0.9 <? s) = false
  /\ (s <? 0.4) = false
  /\ h = stripHeight * s.
Proof.
  intros fit s h. unfold s, h, calculateScale. cbn [fst snd]. fold fit.
  destruct (clamp_between 0.4 0.9 fit eq_refl eq_refl eq_refl eq_refl eq_refl) as (Hnan & Hb).
  destruct (clamp_not_outside 0.4 0.9 fit eq_refl eq_refl eq_refl eq_refl eq_refl) as (Hhi & Hlo).
  split; [exact Hnan|]. split; [exact Hb|].
  split; [exact Hhi|]. split; [exact Hlo | reflexivity].
Qed.

(** X10: the progress the [progress] handler of the encoder sets is
    never above 99 (100 is left to the [finished] handler); it is NaN only
    when the scaled progress is, and otherwise at most 99.  A progress of 0
    shows 80, a progress of a half 90, a progress of 1 shows 99. *)
Theorem encoder_progress_capped {Canvas : Type} (p : float) (w : World Canvas) :
  let scaled := 80 + JS.Math_round (JS.Math_round (p * 100) * 0.19) in
  let shown := gifProgress (editor (gifProgressed p w)) in
  shown = JS.Math_min 99 scaled
  /\ (99 <? shown) = false
  /\ JS.is_nan shown = JS.is_nan scaled
  /\ (JS.is_nan scaled = false -> (shown <=? 99) = true)
  /\ gifProgress (editor (gifProgressed 0 w)) = 80
  /\ gifProgress (editor (gifProgressed 0.5 w)) = 90
  /\ gifProgress (editor (gifProgressed 1 w)) = 99
  /\ sameLook (editor w) (editor (gifProgressed p w))
  /\ isExporting (editor (gifProgressed p w)) = isExporting (editor w).
Proof.
  intros scaled shown.
  assert (Hshown : shown = JS.Math_min 99 scaled) by reflexivity.
  destruct (Math_min_le 99 scaled eq_refl eq_refl) as (Hnan & Hle).
  split; [exact Hshown|]. rewrite Hshown.
  split.
  { destruct (JS.is_nan scaled) eqn:Hs.
    - unfold JS.Math_min. rewrite Hs, orb_true_r. apply ltb_nan_r.
    - apply leb_not_ltb, Hle. reflexivity. }
  split; [exact Hnan|].
  split; [intros Hs; apply Hle, Hs|].
  repeat split.
Qed.

End ClampedValues.

Section StickerList.

Import Editor.

Context {Canvas : Type}.

Lemma resized_fields (i : Z) (delta : JS.number) (s : Sticker) :
  id (resized i delta s) = id s /\ content (resized i delta s) = content s
  /\ x (resized i delta s) = x s /\ y (resized i delta s) = y s.
Proof. unfold resized. destruct (id s =? i)%Z; repeat split. Qed.

Lemma moved_fields (i : Z) (nx ny : JS.number) (s : Sticker) :
  id (moved i nx ny s) = id s /\ content (moved i nx ny s) = content s
  /\ scale (moved i nx ny s) = scale s.
Proof. unfold moved. destruct (id s =? i)%Z; repeat split. Qed.

Lemma map_unchanged {A : Type} (f : A -> A) (l : list A) :
  (forall a, In a l -> f a = a) -> map f l = l.
Proof.
  induction l as [|a l IH]; intros H; [reflexivity|]. simpl.
  rewrite (H a (or_introl eq_refl)), IH; [reflexivity|].
  intros b Hb. apply H. right. exact Hb.
Qed.

Lemma filter_unchanged {A : Type} (p : A -> bool) (l : list A) :
  (forall a, In a l -> p a = true) -> List.filter p l = l.
Proof.
  induction l as [|a l IH]; intros H; [reflexivity|]. simpl.
  rewrite (H a (or_introl eq_refl)), IH; [reflexivity|].
  intros b Hb. apply H. right. exact Hb.
Qed.

(** X11: the sticker handlers act on the stickers with the given id and
    on no other.  Resizing and moving keep the number, the order, the ids
    and the contents of the stickers; resizing keeps every position, moving
    every scale; a sticker with another id is left as it is by all three
    handlers; removing deletes exactly the stickers with that id; and with
    an id no sticker has, the list is unchanged (the frame cache is cleared
    all the same).  Two stickers added in the same millisecond share their
    id: removing one removes both. *)
Theorem sticker_handlers_act_on_their_id (i : Z) (delta nx ny : JS.number) (st : State Canvas) :
  (map id (stickers (resizeSticker i delta st)) = map id (stickers st)
   /\ map content (stickers (resizeSticker i delta st)) = map content (stickers st)
   /\ map x (stickers (resizeSticker i delta st)) = map x (stickers st)
   /\ map y (stickers (resizeSticker i delta st)) = map y (stickers st))
  /\ (map id (stickers (updateStickerPosition i nx ny st)) = map id (stickers st)
      /\ map content (stickers (updateStickerPosition i nx ny st)) = map content (stickers st)
      /\ map scale (stickers (updateStickerPosition i nx ny st)) = map scale (stickers st))
  /\ (forall s, In s (stickers st) -> id s <> i ->
        In s (stickers (resizeSticker i delta st))
        /\ In s (stickers (updateStickerPosition i nx ny st))
        /\ In s (stickers (removeSticker i st)))
  /\ (forall s, In s (stickers (removeSticker i st)) -> In s (stickers st) /\ id s <> i)
  /\ ((forall s, In s (stickers st) -> id s <> i) ->
      stickers (resizeSticker i delta st) = stickers st
      /\ stickers (updateStickerPosition i nx ny st) = stickers st
      /\ stickers (removeSticker i st) = stickers st
      /\ frameCache (resizeSticker i delta st) = ∅)
  /\ (forall now c c',
        stickers (removeSticker now (addSticker now c' (addSticker now c st)))
        = stickers (removeSticker now st)).
Proof.
  cbn [stickers resizeSticker updateStickerPosition removeSticker addSticker clearFrameCache
         setFrameCache setStickers frameCache].
  split.
  { rewrite !map_map. repeat split; apply map_ext; intros s; apply resized_fields. }
  split.
  { rewrite !map_map. repeat split; apply map_ext; intros s; apply moved_fields. }
  split.
  { intros s Hin Hid. apply Z.eqb_neq in Hid. split; [|split].
    - apply in_map_iff. exists s. split; [|exact Hin]. unfold resized. rewrite Hid. reflexivity.
    - apply in_map_iff. exists s. split; [|exact Hin]. unfold moved. rewrite Hid. reflexivity.
    - apply filter_In. split; [exact Hin|]. rewrite Hid. reflexivity. }
  split.
  { intros s Hin. apply filter_In in Hin. destruct Hin as (Hin & Hid).
    split; [exact Hin|]. apply Z.eqb_neq. apply negb_true_iff. exact Hid. }
  split.
  { intros Hnone.
    split; [|split; [|split; [|reflexivity]]].
    - apply map_unchanged. intros s Hin. unfold resized.
      rewrite (proj2 (Z.eqb_neq _ _) (Hnone s Hin)). reflexivity.
    - apply map_unchanged. intros s Hin. unfold moved.
      rewrite (proj2 (Z.eqb_neq _ _) (Hnone s Hin)). reflexivity.
    - apply filter_unchanged. intros s Hin.
      rewrite (proj2 (Z.eqb_neq _ _) (Hnone s Hin)). reflexivity. }
  intros now c c'. rewrite !List.filter_app. cbn [List.filter id].
  rewrite Z.eqb_refl. cbn [negb]. rewrite !app_nil_r. reflexivity.
Qed.

End StickerList.

Section KeysAndFrames.

Import Editor.

(** X12: the keys of the frame cache tell apart what they are made of:
    two keys are equal only if the frame position, the filter and the border
    colour are (whatever the border colour string is). *)
Theorem cache_keys_are_distinct (i j : Z) (f f' : FilterType) (border border' : string) :
  (0 <= i)%Z -> (0 <= j)%Z ->
  cacheKey i f border = cacheKey j f' border' ->
  i = j /\ f = f' /\ border = border'.
Proof.
  intros Hi Hj Heq.
  rewrite <- (Z2Nat.id i Hi), <- (Z2Nat.id j Hj) in Heq.
  apply cacheKey_inj_all in Heq. destruct Heq as (Hij & Hf & Hb).
  split; [|split; assumption]. lia.
Qed.

Lemma cache_keys_are_distinct_witness :
  2%Z = 2%Z /\ bw = bw /\ "#ffffff" = "#ffffff".
Proof.
  apply (cache_keys_are_distinct 2 2 bw bw "#ffffff" "#ffffff"); [lia | lia | reflexivity].
Defined.

(** X13: the frame that the pre-capture puts into an image of the cloned
    document ([frameIndex < burst.length ? frameIndex : burst.length - 1]) is
    the frame the renderer shows for that display index
    ([Math.min(displayFrameIndex, burst.length - 1)]), for every index and
    every burst, so a pre-captured raster shows the strip as an export would
    render it. *)
Theorem precapture_shows_the_rendered_frame (i : Z) (burst : list string)
    (ps : list (list string)) :
  PreCapture.frameIndexToShow i burst = frameIndex (Some i) burst
  /\ PreCapture.clonedSrc i burst = src (Some i) burst
  /\ map (PreCapture.clonedSrc i) ps = map (src (Some i)) ps.
Proof.
  assert (H : forall b, PreCapture.frameIndexToShow i b = frameIndex (Some i) b).
  { intros b. unfold PreCapture.frameIndexToShow, frameIndex.
    destruct (i <? Z.of_nat (length b))%Z eqn:Hlt; [apply Z.ltb_lt in Hlt | apply Z.ltb_ge in Hlt]; lia. }
  split; [apply H|].
  split; [unfold PreCapture.clonedSrc, src; rewrite H; reflexivity|].
  apply map_ext. intros b. unfold PreCapture.clonedSrc, src. rewrite H. reflexivity.
Qed.

End KeysAndFrames.

Section PixelWiseFacts.

Import Filter PixelWise.

Lemma forPixels_ind (P : list Z -> Prop) :
  (forall d, (length d < 4)%nat -> P d) ->
  (forall r g b a rest, P rest -> P (r :: g :: b :: a :: rest)) ->
  forall d, P d.
Proof.
  intros Hshort Hstep d.
  assert (H : forall n (l : list Z), (length l <= n)%nat -> P l).
  { induction n as [|n IH]; intros l Hl.
    - apply Hshort. lia.
    - destruct l as [|r [|g [|b [|a rest]]]]; try (apply Hshort; simpl; lia).
      apply Hstep, IH. simpl in Hl. lia. }
  apply (H (length d)). lia.
Qed.

Lemma forPixels_short (body : Z -> Z -> Z -> Z * Z * Z) (d : list Z) :
  (length d < 4)%nat -> forPixels body d = d.
Proof.
  intros Hd. destruct d as [|r [|g [|b [|a rest]]]]; try reflexivity. simpl in Hd. lia.
Qed.

Lemma forPixels_id (d : list Z) : forPixels (fun r g b => (r, g, b)) d = d.
Proof.
  induction d as [d Hd|r g b a rest IH] using forPixels_ind.
  - apply forPixels_short, Hd.
  - cbn [forPixels]. rewrite IH. reflexivity.
Qed.

Lemma forPixels_compose (f g : Z -> Z -> Z -> Z * Z * Z) (d : list Z) :
  forPixels f (forPixels g d) = forPixels (fun r g0 b => onPixel f (g r g0 b)) d.
Proof.
  induction d as [d Hd|r g0 b a rest IH] using forPixels_ind.
  - rewrite (forPixels_short g d Hd), !forPixels_short by exact Hd. reflexivity.
  - cbn [forPixels]. unfold onPixel at 1. destruct (g r g0 b) as [[r1 g1] b1].
    cbn [forPixels fst snd]. destruct (f r1 g1 b1) as [[r2 g2] b2]. rewrite IH. reflexivity.
Qed.

Lemma forPixels_ext (f g : Z -> Z -> Z -> Z * Z * Z) (d : list Z) :
  (forall r g0 b, f r g0 b = g r g0 b) -> forPixels f d = forPixels g d.
Proof.
  intros H. induction d as [d Hd|r g0 b a rest IH] using forPixels_ind.
  - rewrite !forPixels_short by exact Hd. reflexivity.
  - cbn [forPixels]. rewrite H, IH. reflexivity.
Qed.

(** Each pass is a map over the pixels. *)
Lemma grayscalePass_pixels (fv : string) (d : list Z) :
  grayscalePass fv d = forPixels (fun r g b => grayscaleOf fv (r, g, b)) d.
Proof.
  unfold grayscalePass, grayscaleOf. destruct (Str.includes fv "grayscale").
  - reflexivity.
  - symmetry. apply forPixels_id.
Qed.

Lemma contrastPass_pixels (fv : string) (d : list Z) :
  contrastPass fv d = forPixels (fun r g b => contrastOf fv (r, g, b)) d.
Proof.
  unfold contrastPass, contrastOf.
  destruct (Str.includes fv "contrast"); [|symmetry; apply forPixels_id].
  destruct (Str.matchCall "contrast" fv); [reflexivity | symmetry; apply forPixels_id].
Qed.

Lemma sepiaPass_pixels (fv : string) (d : list Z) :
  sepiaPass fv d = forPixels (fun r g b => sepiaOf fv (r, g, b)) d.
Proof.
  unfold sepiaPass, sepiaOf.
  destruct (Str.includes fv "sepia"); [reflexivity | symmetry; apply forPixels_id].
Qed.

Lemma brightnessPass_pixels (fv : string) (d : list Z) :
  brightnessPass fv d = forPixels (fun r g b => brightnessOf fv (r, g, b)) d.
Proof.
  unfold brightnessPass, brightnessOf.
  destruct (Str.includes fv "brightness"); [|symmetry; apply forPixels_id].
  destruct (Str.matchCall "brightness" fv); [reflexivity | symmetry; apply forPixels_id].
Qed.

Lemma saturatePass_pixels (fv : string) (d : list Z) :
  saturatePass fv d = forPixels (fun r g b => saturateOf fv (r, g, b)) d.
Proof.
  unfold saturatePass, saturateOf.
  destruct (Str.includes fv "saturate"); [|symmetry; apply forPixels_id].
  destruct (Str.matchCall "saturate" fv); [reflexivity | symmetry; apply forPixels_id].
Qed.

(** The five passes over the buffer are one pass with the five pixel
    transforms composed. *)
Lemma passes_pixels (fv : string) (d : list Z) :
  saturatePass fv (brightnessPass fv (sepiaPass fv (contrastPass fv (grayscalePass fv d))))
  = forPixels (pixelOf fv) d.
Proof.
  rewrite grayscalePass_pixels, contrastPass_pixels, sepiaPass_pixels,
    brightnessPass_pixels, saturatePass_pixels.
  rewrite !forPixels_compose. apply forPixels_ext. intros r g b.
  unfold pixelOf.
  destruct (grayscaleOf fv (r, g, b)) as [[r0 g0] b0]. unfold onPixel at 1. cbn [fst snd].
  destruct (contrastOf fv (r0, g0, b0)) as [[r1 g1] b1]. unfold onPixel at 1. cbn [fst snd].
  destruct (sepiaOf fv (r1, g1, b1)) as [[r2 g2] b2]. unfold onPixel at 1. cbn [fst snd].
  destruct (brightnessOf fv (r2, g2, b2)) as [[r3 g3] b3]. reflexivity.
Qed.

Lemma applyFilterToCanvas_data (canvas : Canvas) (fv : string) :
  data (applyFilterToCanvas canvas fv)
  = if String.eqb fv EmptyString || negb (context2d canvas)
    then data canvas else forPixels (pixelOf fv) (data canvas).
Proof.
  unfold applyFilterToCanvas. destruct (String.eqb fv EmptyString); [reflexivity|].
  destruct (context2d canvas); cbn [negb orb data]; [apply passes_pixels | reflexivity].
Qed.

Lemma forPixels_bytes (body : Z -> Z -> Z -> Z * Z * Z) (d : list Z) :
  (forall r g b, isByte r -> isByte g -> isByte b ->
     isByte (body r g b).1.1 /\ isByte (body r g b).1.2 /\ isByte (body r g b).2) ->
  Forall isByte d -> Forall isByte (forPixels body d).
Proof.
  intros Hbody. induction d as [d Hd|r g b a rest IH] using forPixels_ind; intros Hall.
  - rewrite forPixels_short by exact Hd. exact Hall.
  - cbn [forPixels].
    apply Forall_cons in Hall as (Hr & Hall). apply Forall_cons in Hall as (Hg & Hall).
    apply Forall_cons in Hall as (Hb & Hall). apply Forall_cons in Hall as (Ha & Hall).
    destruct (Hbody r g b Hr Hg Hb) as (H1 & H2 & H3).
    destruct (body r g b) as [[r1 g1] b1]. cbn [fst snd] in *.
    repeat (apply Forall_cons; split; [assumption|]). apply IH, Hall.
Qed.

Lemma ToUint8Clamp_isByte (v : float) : isByte (JS.ToUint8Clamp v).
Proof. apply ToUint8Clamp_byte. Qed.

Lemma onPixel_bytes3 (body : Z -> Z -> Z -> Z * Z * Z) (p : Pixel) :
  (forall r g b, bytes3 (body r g b)) -> bytes3 (onPixel body p).
Proof. intros H. apply H. Qed.

Lemma grayscalePixel_bytes (r g b : Z) : bytes3 (grayscalePixel r g b).
Proof. repeat split; apply ToUint8Clamp_byte. Qed.

Lemma contrastPixel_bytes (factor : float) (r g b : Z) : bytes3 (contrastPixel factor r g b).
Proof. repeat split; apply ToUint8Clamp_byte. Qed.

Lemma sepiaPixel_bytes (v : float) (r g b : Z) : bytes3 (sepiaPixel v r g b).
Proof. repeat split; apply ToUint8Clamp_byte. Qed.

Lemma brightnessPixel_bytes (v : float) (r g b : Z) : bytes3 (brightnessPixel v r g b).
Proof. repeat split; apply ToUint8Clamp_byte. Qed.

Lemma saturatePixel_bytes (v : float) (r g b : Z) : bytes3 (saturatePixel v r g b).
Proof. repeat split; apply ToUint8Clamp_byte. Qed.

Lemma pixelOf_bytes (fv : string) (r g b : Z) :
  isByte r -> isByte g -> isByte b -> bytes3 (pixelOf fv r g b).
Proof.
  intros Hr Hg Hb. unfold pixelOf.
  assert (H0 : bytes3 (r, g, b)) by (unfold bytes3; cbn [fst snd]; auto).
  assert (H1 : bytes3 (grayscaleOf fv (r, g, b))).
  { unfold grayscaleOf. destruct (Str.includes fv "grayscale"); [|exact H0].
    apply onPixel_bytes3, grayscalePixel_bytes. }
  assert (H2 : bytes3 (contrastOf fv (grayscaleOf fv (r, g, b)))).
  { unfold contrastOf. destruct (Str.includes fv "contrast"); [|exact H1].
    destruct (Str.matchCall "contrast" fv); [|exact H1].
    apply onPixel_bytes3, contrastPixel_bytes. }
  assert (H3 : bytes3 (sepiaOf fv (contrastOf fv (grayscaleOf fv (r, g, b))))).
  { unfold sepiaOf. destruct (Str.includes fv "sepia"); [|exact H2].
    apply onPixel_bytes3, sepiaPixel_bytes. }
  assert (H4 : bytes3 (brightnessOf fv (sepiaOf fv (contrastOf fv (grayscaleOf fv (r, g, b)))))).
  { unfold brightnessOf. destruct (Str.includes fv "brightness"); [|exact H3].
    destruct (Str.matchCall "brightness" fv); [|exact H3].
    apply onPixel_bytes3, brightnessPixel_bytes. }
  unfold saturateOf. destruct (Str.includes fv "saturate"); [|exact H4].
  destruct (Str.matchCall "saturate" fv); [|exact H4].
  apply onPixel_bytes3, saturatePixel_bytes.
Qed.



(** X16: the passes the filter ids select.  [normal] leaves the canvas as
    it is.  [soft] is contrast 0.9, then brightness 1.1, then saturation
    0.8: the contrast pass runs before the brightness pass although the
    filter string lists brightness first, and the blur of the string is not
    applied.  [vintage] is contrast 1.1, then sepia 0.5, then saturation
    0.8, again in the order of the passes and not of the string. *)
Theorem filter_passes_of_each_id (canvas : Canvas) :
  context2d canvas = true ->
  applyFilter canvas normal = canvas
  /\ data (applyFilter canvas soft)
     = forPixels (saturatePixel 0.8%float)
         (forPixels (brightnessPixel 1.1%float)
            (forPixels (contrastPixel (contrastFactor 0.9%float)) (data canvas)))
  /\ data (applyFilter canvas vintage)
     = forPixels (saturatePixel 0.8%float)
         (forPixels (sepiaPixel 0.5%float)
            (forPixels (contrastPixel (contrastFactor 1.1%float)) (data canvas))).
Proof.
  intros Hctx. split; [reflexivity|].
  unfold applyFilter, applyFilterToCanvas.
  change (String.eqb (Editor.filterValueOf soft) EmptyString) with false.
  change (String.eqb (Editor.filterValueOf vintage) EmptyString) with false.
  cbv iota. rewrite Hctx. cbn [negb data].
  split; reflexivity.
Qed.

End PixelWiseFacts.

Section PixelWiseExamples.

Import Filter PixelWise.


Lemma filter_passes_of_each_id_witness :
  data (applyFilter Examples.twoPixels soft)
  = forPixels (saturatePixel 0.8%float)
      (forPixels (brightnessPixel 1.1%float)
         (forPixels (contrastPixel (contrastFactor 0.9%float)) (data Examples.twoPixels))).
Proof. exact (proj1 (proj2 (filter_passes_of_each_id Examples.twoPixels eq_refl))). Defined.

(** The soft and the vintage look of the two sample pixels. *)
Example soft_two_pixels :
  data (applyFilter Examples.twoPixels soft) = [219; 15; 15; 255; 0; 0; 0; 128]%Z.
Proof. vm_compute. reflexivity. Qed.

End PixelWiseExamples.

(** ** Bursts *)

Section ValidFrames.

Lemma validFrames_app (a b : list (option string)) :
  validFrames (a ++ b) = validFrames a ++ validFrames b.
Proof. unfold validFrames. apply omap_app. Qed.

Lemma pushFrame_validFrames (burst : list string) (imageSrc : option string) :
  pushFrame burst imageSrc = burst ++ validFrames [imageSrc].
Proof.
  unfold pushFrame, validFrames. cbn [omap list_omap].
  destruct imageSrc as [s|]; [|cbn; rewrite app_nil_r; reflexivity].
  destruct (validFrame (Some s)); cbn; [reflexivity | rewrite app_nil_r; reflexivity].
Qed.

Lemma validFrames_valid (l : list (option string)) :
  Forall (fun s => Str.startsWith s "data:image/" = true) (validFrames l).
Proof.
  induction l as [|o l IH]; [constructor|].
  change (o :: l) with ([o] ++ l). rewrite validFrames_app. apply Forall_app. split; [|exact IH].
  unfold validFrames. cbn [omap list_omap]. destruct o as [s|]; [|constructor].
  destruct (validFrame (Some s)) eqn:Hv; cbn; [|constructor].
  constructor; [exact Hv | constructor].
Qed.

Lemma validFrames_length (l : list (option string)) :
  (length (validFrames l) <= length l)%nat.
Proof.
  induction l as [|o l IH]; [reflexivity|].
  change (o :: l) with ([o] ++ l). rewrite validFrames_app, length_app.
  assert (length (validFrames [o]) <= 1)%nat.
  { unfold validFrames. cbn [omap list_omap]. destruct o as [s|]; [|cbn; lia].
    destruct (validFrame (Some s)); cbn; lia. }
  cbn [length app]. lia.
Qed.

Lemma validFrames_all (l : list (option string)) (frames : list string) :
  l = map Some frames ->
  Forall (fun s => Str.startsWith s "data:image/" = true) frames ->
  validFrames l = frames.
Proof.
  intros ->. induction frames as [|s frames IH]; intros Hall; [reflexivity|].
  apply Forall_cons in Hall as (Hs & Hall).
  unfold validFrames in *. cbn [map omap list_omap]. cbn [validFrame]. rewrite Hs.
  cbn. f_equal. apply IH, Hall.
Qed.

Lemma screenshots_snoc (cam : Webcam) (t n : nat) :
  screenshots cam t (S n) = screenshots cam t n ++ [cam (t + n)].
Proof. unfold screenshots. rewrite seq_S, map_app. reflexivity. Qed.

(** The loop of [captureBurst] appends the frames among its screenshots. *)
Lemma burstLoop_validFrames (cam : Webcam) (n : nat) :
  forall (t : nat) (burst : list string),
    CameraBurst.burstLoop cam n t burst = burst ++ validFrames (screenshots cam t n).
Proof.
  induction n as [|n IH]; intros t burst.
  - cbn. rewrite app_nil_r. reflexivity.
  - cbn [CameraBurst.burstLoop]. rewrite IH, pushFrame_validFrames, <- app_assoc.
    f_equal. rewrite <- validFrames_app. f_equal.
Qed.

Lemma burstLoop_nil (cam : Webcam) (n t : nat) :
  CameraBurst.burstLoop cam n t [] = validFrames (screenshots cam t n).
Proof. rewrite burstLoop_validFrames. reflexivity. Qed.

Lemma screenshots_frames_le (cam : Webcam) (t n : nat) :
  (length (validFrames (screenshots cam t n)) <= n)%nat.
Proof.
  pose proof (validFrames_length (screenshots cam t n)) as Hle.
  unfold screenshots in Hle at 2. rewrite length_map, length_seq in Hle. exact Hle.
Qed.

End ValidFrames.

Section BurstCameraFacts.

Import CameraBurst CameraFacts.

Variable photoCount : nat.
Variable timerDuration : Z.
Variable cam : Webcam.

#[local] Abbreviation step := (CameraBurst.step photoCount timerDuration cam).
#[local] Abbreviation run := (CameraBurst.run photoCount timerDuration cam).
#[local] Abbreviation render := (CameraBurst.render photoCount timerDuration).

#[local] Arguments burstLoop : simpl never.

Lemma render_effect (st st' : State) (out : list Signal) :
  render st = (st', out) ->
  photos st' = photos st /\ filter st' = filter st /\ shots st' = shots st
  /\ (out = [] \/ out = [OnComplete (photos st) (filter st)]).
Proof.
  destruct st as [ps cap cd fl f tm sh].
  unfold CameraBurst.render, completionEffect, countdownEffect. cbn -[Nat.leb Nat.ltb].
  destruct ((photoCount <=? length ps)%nat && cap); cbn -[Nat.leb Nat.ltb];
    intros [= <- <-];
    repeat match goal with |- context [if ?b then _ else _] => destruct b end;
    cbn; auto.
Qed.

(** What one event does to the photos and the filter: the controls were
    shown and it used them, or it left the photos, the filter and the
    capturing flag alone and signalled nothing, or it was the last tick of a
    countdown and committed the burst of the next thirty screenshots. *)
Lemma step_effect (st st' : State) (ev : Event) (out : list Signal) :
  step st ev = (st', out) ->
  (controlsShown st = true /\ photos st' = [] /\ shots st' = shots st)
  \/ (photos st' = photos st /\ filter st' = filter st
      /\ isCapturing st' = isCapturing st /\ out = []
      /\ (timer st = None -> timer st' = None))
  \/ (exists c, timer st = Some c
      /\ photos st' = photos st ++ [burstLoop cam BURST_COUNT (shots st) []]
      /\ (0 < length (burstLoop cam BURST_COUNT (shots st) []))%nat
      /\ filter st' = filter st
      /\ shots st' = shots st + BURST_COUNT).
Proof.
  destruct ev as [|f| |]; cbn [CameraBurst.step].
  - destruct (controlsShown st) eqn:Hc.
    + intros Hr. apply render_effect in Hr as (Hp & _ & Hs & _). left. auto.
    + intros [= <- <-]. right. left. auto.
  - destruct (controlsShown st) eqn:Hc.
    + intros Hr. left. split; [reflexivity|].
      unfold controlsShown in Hc. apply andb_true_iff in Hc as (_ & Hlen).
      apply Nat.eqb_eq in Hlen.
      unfold completionEffect in Hr.
      destruct (_ && _) in Hr; injection Hr as <- _; cbn;
        destruct (photos st); try discriminate; auto.
    + intros [= <- <-]. right. left. auto.
  - destruct (timer st) as [c|] eqn:Ht; [|intros [= <- <-]; right; left; auto].
    unfold tick. destruct (c - 1 <=? 0)%Z.
    + unfold captureBurst.
      cbn [shots photos setTimer setCountdown setShots setFlash setPhotos].
      destruct (0 <? length (burstLoop cam BURST_COUNT (shots st) []))%nat eqn:Hne.
      * intros Hr. apply render_effect in Hr as (Hp & Hf & Hs & _).
        right. right. exists c. split; [reflexivity|].
        split; [exact Hp|]. split; [apply Nat.ltb_lt, Hne|]. split; [exact Hf | exact Hs].
      * intros [= <- <-]. right. left. cbn. repeat split; auto; discriminate.
    + intros [= <- <-]. right. left. cbn. repeat split; auto; discriminate.
  - intros [= <- <-]. right. left. auto.
Qed.

Lemma controlsShown_photos (st : State) : controlsShown st = true -> photos st = [].
Proof.
  unfold controlsShown. intros H. apply andb_true_iff in H as (_ & Hlen).
  apply Nat.eqb_eq in Hlen. destruct (photos st); [reflexivity | discriminate].
Qed.

Lemma burstLoop_burstOf (t : nat) :
  (0 < length (burstLoop cam BURST_COUNT t []))%nat ->
  burstOf cam (burstLoop cam BURST_COUNT t []).
Proof.
  rewrite burstLoop_nil. intros Hne. exists t. split; [reflexivity|].
  split; [exact Hne | apply screenshots_frames_le].
Qed.

Lemma run_bursts (evs : list Event) :
  forall st : State,
    Forall (burstOf cam) (photos st) ->
    Forall (burstOf cam) (photos (fst (run st evs))).
Proof.
  induction evs as [|ev evs IH]; intros st Hst; cbn [CameraBurst.run]; [exact Hst|].
  destruct (step st ev) as [st1 out1] eqn:Hstep.
  specialize (IH st1). destruct (run st1 evs) as [st2 out2]. cbn [fst] in *.
  apply IH. clear IH.
  destruct (step_effect st st1 ev out1 Hstep)
    as [(_ & -> & _)|[(-> & _)|(c & _ & -> & Hne & _)]]; [constructor | exact Hst|].
  apply Forall_app. split; [exact Hst|].
  constructor; [apply burstLoop_burstOf, Hne | constructor].
Qed.

Lemma run_prefix (evs : list Event) :
  forall st : State, photos st `prefix_of` photos (fst (run st evs)).
Proof.
  induction evs as [|ev evs IH]; intros st; cbn [CameraBurst.run]; [reflexivity|].
  destruct (step st ev) as [st1 out1] eqn:Hstep.
  specialize (IH st1). destruct (run st1 evs) as [st2 out2]. cbn [fst] in *.
  etrans; [|exact IH].
  destruct (step_effect st st1 ev out1 Hstep)
    as [(Hc & _)|[(-> & _)|(c & _ & -> & _)]].
  - rewrite (controlsShown_photos st Hc). apply prefix_nil.
  - reflexivity.
  - apply prefix_app_r. reflexivity.
Qed.

Lemma step_locked (st st' : State) (ev : Event) (out : list Signal) :
  locked st -> step st ev = (st', out) ->
  locked st' /\ filter st' = filter st
  /\ Forall (fun s => exists ps, s = OnComplete ps (filter st)) out.
Proof.
  unfold locked. intros Hl Hstep.
  assert (Hout : filter st' = filter st ->
                 Forall (fun s => exists ps, s = OnComplete ps (filter st)) out).
  { intros Hf. destruct ev as [|f| |]; cbn [CameraBurst.step] in Hstep; rewrite ?Hl in Hstep.
    - injection Hstep as _ <-. constructor.
    - injection Hstep as _ <-. constructor.
    - destruct (timer st) as [c|]; [|injection Hstep as _ <-; constructor].
      unfold tick in Hstep. destruct (c - 1 <=? 0)%Z; [|injection Hstep as _ <-; constructor].
      destruct (captureBurst cam _) as [st2 committed] eqn:Hcb.
      destruct committed; [|injection Hstep as _ <-; constructor].
      pose proof (render_effect _ _ _ Hstep) as (_ & Hf2 & _ & [-> | ->]); [constructor|].
      constructor; [|constructor]. eexists. rewrite <- Hf, Hf2. reflexivity.
    - injection Hstep as _ <-. constructor. }
  destruct (step_effect st st' ev out Hstep)
    as [(Hc & _)|[(Hp & Hf & Hcap & _)|(c & _ & Hp & Hne & Hf & _)]].
  - congruence.
  - split; [|split; [exact Hf | exact (Hout Hf)]].
    unfold controlsShown in *. rewrite Hp, Hcap. exact Hl.
  - split; [|split; [exact Hf | exact (Hout Hf)]].
    unfold controlsShown. rewrite Hp, length_app. cbn [length].
    replace (length (photos st) + 1 =? 0)%nat with false; [apply andb_false_r|].
    symmetry. apply Nat.eqb_neq. lia.
Qed.

Lemma run_locked (evs : list Event) :
  forall (st st' : State) (out : list Signal),
    locked st -> run st evs = (st', out) ->
    locked st' /\ filter st' = filter st
    /\ Forall (fun s => exists ps, s = OnComplete ps (filter st)) out.
Proof.
  induction evs as [|ev evs IH]; intros st st' out Hl; cbn [CameraBurst.run].
  - intros [= <- <-]. repeat split; auto.
  - destruct (step st ev) as [st1 out1] eqn:Hstep.
    destruct (run st1 evs) as [st2 out2] eqn:Hrun. intros [= <- <-].
    destruct (step_locked st st1 ev out1 Hl Hstep) as (Hl1 & Hf1 & Ho1).
    destruct (IH st1 st2 out2 Hl1 Hrun) as (Hl2 & Hf2 & Ho2).
    split; [exact Hl2|]. split; [congruence|].
    apply Forall_app. split; [exact Ho1|]. rewrite <- Hf1. exact Ho2.
Qed.

Lemma step_stalled (st st' : State) (ev : Event) (out : list Signal) :
  stalled st -> step st ev = (st', out) ->
  stalled st' /\ photos st' = photos st /\ out = [].
Proof.
  intros (Hcap & Ht) Hstep.
  destruct (step_effect st st' ev out Hstep)
    as [(Hc & _)|[(Hp & Hf & Hcap' & Hout & Htimer)|(c & Hc & _)]].
  - unfold controlsShown in Hc. rewrite Hcap in Hc. discriminate.
  - split; [|split; assumption]. split; [congruence | apply Htimer, Ht].
  - congruence.
Qed.

Lemma run_stalled (evs : list Event) :
  forall (st st' : State) (out : list Signal),
    stalled st -> run st evs = (st', out) ->
    stalled st' /\ photos st' = photos st /\ out = [].
Proof.
  induction evs as [|ev evs IH]; intros st st' out Hs; cbn [CameraBurst.run].
  - intros [= <- <-]. auto.
  - destruct (step st ev) as [st1 out1] eqn:Hstep.
    destruct (run st1 evs) as [st2 out2] eqn:Hrun. intros [= <- <-].
    destruct (step_stalled st st1 ev out1 Hs Hstep) as (Hs1 & Hp1 & ->).
    destruct (IH st1 st2 out2 Hs1 Hrun) as (Hs2 & Hp2 & ->).
    split; [exact Hs2|]. split; [congruence | reflexivity].
Qed.

End BurstCameraFacts.

Section CountdownCameraFacts.

Import CameraCountdown CameraFacts.

Variable photoCount : nat.
Variable timerDuration : Z.
Variable cam : Webcam.

#[local] Abbreviation step := (CameraCountdown.step photoCount timerDuration cam).
#[local] Abbreviation run := (CameraCountdown.run photoCount timerDuration cam).
#[local] Abbreviation countdownEffect := (CameraCountdown.countdownEffect photoCount timerDuration).
#[local] Abbreviation sampling := (CameraFacts.sampling cam).
#[local] Abbreviation bounded := (CameraFacts.bounded photoCount).

Lemma countdownEffect_sampling (st : State) :
  (exists t, (t <= shots st)%nat
             /\ burstRef st = validFrames (screenshots cam t (shots st - t))) ->
  exists t, (t <= shots (countdownEffect st))%nat
            /\ burstRef (countdownEffect st)
               = validFrames (screenshots cam t (shots (countdownEffect st) - t)).
Proof.
  intros Hb. unfold CameraCountdown.countdownEffect.
  destruct (isCapturing st && (length (photos st) <? photoCount)%nat).
  - exists (shots st). cbn. split; [lia|]. rewrite Nat.sub_diag. reflexivity.
  - exact Hb.
Qed.

Lemma snap_sampling (st : State) :
  (exists t, (t <= shots st)%nat
             /\ burstRef st = validFrames (screenshots cam t (shots st - t))) ->
  exists t, (t <= shots st)%nat
            /\ burstRef (snap cam st) = validFrames (screenshots cam t (S (shots st - t)))
            /\ shots (snap cam st) = S (shots st).
Proof.
  intros (t & Ht & Hb). exists t. split; [exact Ht|]. split; [|reflexivity].
  unfold snap. cbn [burstRef setShots setBurstRef].
  rewrite pushFrame_validFrames, Hb, screenshots_snoc, validFrames_app.
  replace (t + (shots st - t)) with (shots st) by lia. reflexivity.
Qed.

Lemma step_sampling (st : State) (ev : Event) : sampling st -> sampling (step st ev).
Proof.
  intros (Hb & Hp).
  destruct ev as [|f| | |]; cbn [CameraCountdown.step].
  - destruct (controlsShown st); [|split; assumption].
    unfold startSession. split.
    + apply countdownEffect_sampling. exact Hb.
    + rewrite countdownEffect_photos. constructor.
  - destruct (controlsShown st); split; assumption.
  - destruct (timers st); [|split; assumption].
    split; [|exact Hp].
    destruct (snap_sampling st Hb) as (t & Ht & Hb' & Hs).
    exists t. rewrite Hs. split; [lia|]. rewrite Hb'. f_equal. f_equal. lia.
  - destruct (timers st) as [c|]; [|split; assumption].
    unfold tick. destruct (c - 1 <=? 0)%Z; [|split; assumption].
    set (st1 := setTimers None (setCountdown (Some (c - 1)%Z) st)).
    assert (Hb1 : exists t, (t <= shots st1)%nat
                            /\ burstRef st1 = validFrames (screenshots cam t (shots st1 - t)))
      by exact Hb.
    destruct (snap_sampling st1 Hb1) as (t & Ht & Hb' & Hs).
    split.
    + apply countdownEffect_sampling. exists t.
      cbn [shots burstRef setPhotos setFlash]. rewrite Hs. split; [lia|].
      rewrite Hb'. f_equal. f_equal. lia.
    + rewrite countdownEffect_photos. cbn [photos setPhotos setFlash burstRef].
      apply Forall_app. split; [exact Hp|].
      constructor; [|constructor]. exists t, (shots st1 - t). exact Hb'.
  - split; assumption.
Qed.

Lemma step_bounded (st : State) (ev : Event) : bounded st -> bounded (step st ev).
Proof.
  intros Hst. pose proof Hst as (Hlen & Ht).
  assert (Heffect : forall s : State,
             (length (photos s) <= photoCount)%nat -> bounded (countdownEffect s)).
  { intros s Hs. unfold CameraCountdown.countdownEffect.
    destruct (isCapturing s) eqn:Hcap; cbn [andb].
    - destruct (length (photos s) <? photoCount)%nat eqn:Hlt.
      + apply Nat.ltb_lt in Hlt. split; [exact Hs|]. intros c _. split; [exact Hlt | exact Hcap].
      + split; [exact Hs|]. intros c Hc. discriminate.
    - split; [exact Hs|]. intros c Hc. discriminate. }
  assert (Hsnap : bounded (snap cam st)) by exact Hst.
  destruct ev as [|f| | |]; cbn [CameraCountdown.step].
  - destruct (controlsShown st); [|exact Hst].
    apply Heffect. cbn. lia.
  - destruct (controlsShown st); exact Hst.
  - destruct (timers st); [exact Hsnap | exact Hst].
  - destruct (timers st) as [c|] eqn:Htm; [|exact Hst].
    destruct (Ht c eq_refl) as (Hlt & Hcap).
    unfold tick. destruct (c - 1 <=? 0)%Z.
    + apply Heffect. cbn [photos setPhotos setFlash snap setShots setBurstRef setTimers
                            setCountdown].
      rewrite length_app. cbn [length]. lia.
    + split; [exact Hlen|]. intros c' _. split; assumption.
  - exact Hst.
Qed.

Lemma step_isCapturing (st : State) (ev : Event) :
  isCapturing st = true ->
  isCapturing (step st ev) = true /\ controlsShown (step st ev) = false.
Proof.
  intros Hcap.
  assert (H : isCapturing (step st ev) = true).
  { destruct ev as [|f| | |]; cbn [CameraCountdown.step];
      unfold controlsShown; rewrite ?Hcap; cbn [negb andb]; try exact Hcap.
    - destruct (timers st); exact Hcap.
    - destruct (timers st) as [c|]; [|exact Hcap].
      unfold tick, CameraCountdown.countdownEffect.
      destruct (c - 1 <=? 0)%Z; [|exact Hcap].
      cbn [isCapturing photos setPhotos setFlash snap setShots setBurstRef setTimers
             setCountdown].
      destruct (_ && _); exact Hcap. }
  split; [exact H|]. unfold controlsShown. rewrite H. reflexivity.
Qed.

(** Once every burst is taken nothing changes the photos any more. *)
Lemma step_full (st : State) (ev : Event) :
  bounded st -> length (photos st) = photoCount ->
  photos (step st ev) = photos st.
Proof.
  intros (_ & Ht) Hfull.
  assert (Hnone : timers st = None).
  { destruct (timers st) as [c|] eqn:E; [|reflexivity].
    destruct (Ht c eq_refl) as (Hlt & _). lia. }
  destruct ev as [|f| | |]; cbn [CameraCountdown.step]; rewrite ?Hnone; try reflexivity.
  - destruct (controlsShown st) eqn:Hc; [|reflexivity].
    unfold startSession. rewrite countdownEffect_photos. cbn.
    unfold controlsShown in Hc. apply andb_true_iff in Hc as (_ & Hz).
    apply Nat.eqb_eq in Hz. destruct (photos st); [reflexivity | discriminate].
  - destruct (controlsShown st); reflexivity.
Qed.

Lemma run_sampling (evs : list Event) :
  forall st, sampling st -> sampling (run st evs).
Proof.
  induction evs as [|ev evs IH]; intros st Hst; [exact Hst|].
  apply (IH (step st ev)), step_sampling, Hst.
Qed.

Lemma run_bounded (evs : list Event) :
  forall st, bounded st -> bounded (run st evs).
Proof.
  induction evs as [|ev evs IH]; intros st Hst; [exact Hst|].
  apply (IH (step st ev)), step_bounded, Hst.
Qed.

Lemma run_isCapturing (evs : list Event) :
  forall st, isCapturing st = true ->
             isCapturing (run st evs) = true.
Proof.
  induction evs as [|ev evs IH]; intros st Hst; [exact Hst|].
  apply (IH (step st ev)), step_isCapturing, Hst.
Qed.

Lemma run_full (evs : list Event) :
  forall st, bounded st -> length (photos st) = photoCount ->
             photos (run st evs) = photos st.
Proof.
  induction evs as [|ev evs IH]; intros st Hb Hfull; [reflexivity|].
  pose proof (step_full st ev Hb Hfull) as Hstep.
  change (run st (ev :: evs)) with (run (step st ev) evs).
  rewrite IH; [exact Hstep | apply step_bounded, Hb | congruence].
Qed.

Lemma initial_sampling : sampling initial.
Proof. split; [exists 0; split; [cbn; lia | reflexivity] | constructor]. Qed.

Lemma initial_bounded : bounded initial.
Proof. split; [cbn; lia | intros c Hc; discriminate]. Qed.

End CountdownCameraFacts.

Section CameraTheorems.

Import CameraFacts.

(** X17: what a committed burst is made of, in both cameras.  In the
    burst camera every burst of the photos is the frames among thirty
    consecutive screenshots, in the order they were taken, and has between 1
    and 30 frames.  In the countdown camera every burst is the frames among
    the consecutive screenshots of one countdown, the final snap included.
    The frames among some screenshots all start with [data:image/], are no
    more than the screenshots, and are all of them, in order, when every
    screenshot is such a frame. *)
Theorem bursts_are_the_valid_screenshots :
  (forall (photoCount : nat) (timerDuration : Z) (cam : Webcam) (evs : list CameraBurst.Event),
      Forall (burstOf cam)
        (CameraBurst.photos
           (fst (CameraBurst.run photoCount timerDuration cam CameraBurst.initial evs))))
  /\ (forall (photoCount : nat) (timerDuration : Z) (cam : Webcam)
             (evs : list CameraCountdown.Event),
         Forall (sampledBurst cam)
           (CameraCountdown.photos
              (CameraCountdown.run photoCount timerDuration cam CameraCountdown.initial evs)))
  /\ (forall shots : list (option string),
         Forall (fun s => Str.startsWith s "data:image/" = true) (validFrames shots)
         /\ (length (validFrames shots) <= length shots)%nat)
  /\ (forall frames : list string,
         Forall (fun s => Str.startsWith s "data:image/" = true) frames ->
         validFrames (map Some frames) = frames).
Proof.
  split.
  { intros photoCount td cam evs. apply run_bursts. constructor. }
  split.
  { intros photoCount td cam evs.
    apply (run_sampling photoCount td cam evs _ (initial_sampling cam)). }
  split.
  { intros shots. split; [apply validFrames_valid | apply validFrames_length]. }
  intros frames Hall. apply validFrames_all; [reflexivity | exact Hall].
Qed.

Lemma validFrames_none (l : list (option string)) :
  Forall (fun o => validFrame o = false) l -> validFrames l = [].
Proof.
  induction 1 as [|o l Ho _ IH]; [reflexivity|].
  change (o :: l) with ([o] ++ l). rewrite validFrames_app, IH, app_nil_r.
  unfold validFrames. cbn [omap list_omap]. rewrite Ho. destruct o; reflexivity.
Qed.

Section BurstCamera.

Import CameraBurst.

Variable photoCount : nat.
Variable timerDuration : Z.
Variable cam : Webcam.

#[local] Abbreviation step := (CameraBurst.step photoCount timerDuration cam).
#[local] Abbreviation run := (CameraBurst.run photoCount timerDuration cam).
#[local] Arguments burstLoop : simpl never.

(** X18: a burst in which no screenshot is a frame stalls the burst
    camera.  At the last tick of the countdown nothing is committed and
    nothing is signalled, no countdown is started again, and from then on no
    event changes the photos or produces a signal: the camera goes on saying
    it is capturing, with its controls hidden. *)
Theorem burst_without_frames_stalls (st : State) (c : Z) (evs : list Event) :
  isCapturing st = true ->
  timer st = Some c ->
  (c - 1 <= 0)%Z ->
  (forall i, (i < BURST_COUNT)%nat -> validFrame (cam (shots st + i)) = false) ->
  let st1 := fst (step st CountdownTick) in
  snd (step st CountdownTick) = []
  /\ photos st1 = photos st
  /\ isCapturing st1 = true /\ timer st1 = None
  /\ snd (run st1 evs) = []
  /\ photos (fst (run st1 evs)) = photos st
  /\ isCapturing (fst (run st1 evs)) = true
  /\ timer (fst (run st1 evs)) = None
  /\ controlsShown (fst (run st1 evs)) = false.
Proof.
  intros Hcap Ht Hc Hdead.
  assert (Hburst : burstLoop cam BURST_COUNT (shots st) [] = []).
  { rewrite burstLoop_nil. apply validFrames_none.
    unfold screenshots. apply List.Forall_map.
    apply Stdlib.Lists.List.Forall_forall. intros k Hk. apply in_seq in Hk.
    replace k with (shots st + (k - shots st)) by lia. apply Hdead. lia. }
  assert (Hstep : step st CountdownTick
                  = (setShots (shots st + BURST_COUNT)
                       (setTimer None (setCountdown (Some (c - 1)%Z) st)), [])).
  { cbn [CameraBurst.step]. rewrite Ht. unfold tick.
    replace (c - 1 <=? 0)%Z with true by (symmetry; apply Z.leb_le; exact Hc).
    unfold captureBurst. cbn [shots setTimer setCountdown]. rewrite Hburst. reflexivity. }
  cbv zeta. rewrite Hstep. cbn [fst snd].
  set (st1 := setShots _ _).
  assert (Hs1 : stalled st1) by (split; [exact Hcap | reflexivity]).
  destruct (run st1 evs) as [st2 out2] eqn:Hrun.
  destruct (run_stalled photoCount timerDuration cam evs st1 st2 out2 Hs1 Hrun)
    as ((Hcap2 & Ht2) & Hp2 & ->).
  cbn [fst snd]. repeat split; try assumption.
  unfold controlsShown. rewrite Hcap2. reflexivity.
Qed.

(** X19: once a session of the burst camera has started (it is
    capturing, or it has a burst), no event takes a burst back or changes
    one, the filter cannot be changed any more, the controls stay hidden,
    and whatever is signalled carries the filter chosen before the start. *)
Theorem started_session_is_locked (st : State) (evs : list Event) :
  isCapturing st = true \/ photos st <> [] ->
  photos st `prefix_of` photos (fst (run st evs))
  /\ filter (fst (run st evs)) = filter st
  /\ controlsShown (fst (run st evs)) = false
  /\ Forall (fun s => exists ps, s = OnComplete ps (filter st)) (snd (run st evs)).
Proof.
  intros Hstarted.
  assert (Hl : locked st).
  { unfold locked, controlsShown. destruct Hstarted as [->|Hne]; [reflexivity|].
    destruct (photos st); [contradiction|]. apply andb_false_r. }
  split; [apply run_prefix|].
  destruct (run st evs) as [st' out] eqn:Hrun.
  destruct (run_locked photoCount timerDuration cam evs st st' out Hl Hrun) as (Hl' & Hf & Hout).
  cbn [fst snd]. split; [exact Hf|]. split; [exact Hl' | exact Hout].
Qed.

End BurstCamera.

Section CountdownCamera.

Import CameraCountdown.

Variable photoCount : nat.
Variable timerDuration : Z.
Variable cam : Webcam.

#[local] Abbreviation run := (CameraCountdown.run photoCount timerDuration cam).

(** X20: the countdown camera takes the bursts it was asked for and no
    more, and it never leaves the capture.  After any events the photos hold
    at most [photoCount] bursts and the intervals run only while bursts are
    missing; once the camera is capturing it stays capturing, with the
    controls hidden, whatever happens (nothing resets [isCapturing], and the
    component has nothing to signal); and once [photoCount] bursts are taken
    no event changes the photos. *)
Theorem countdown_camera_stops_at_photoCount (evs evs' : list Event) :
  let st := run initial evs in
  (length (photos st) <= photoCount)%nat
  /\ (forall c, timers st = Some c ->
        (length (photos st) < photoCount)%nat /\ isCapturing st = true)
  /\ (isCapturing st = true ->
      isCapturing (run st evs') = true /\ controlsShown (run st evs') = false)
  /\ (length (photos st) = photoCount -> photos (run st evs') = photos st).
Proof.
  intros st.
  pose proof (run_bounded photoCount timerDuration cam evs _ (initial_bounded photoCount))
    as Hb. fold st in Hb.
  split; [exact (proj1 Hb)|]. split; [exact (proj2 Hb)|].
  split.
  - intros Hcap.
    pose proof (run_isCapturing photoCount timerDuration cam evs' st Hcap) as H.
    split; [exact H|]. unfold controlsShown. rewrite H. reflexivity.
  - intros Hfull. apply run_full; assumption.
Qed.

End CountdownCamera.

End CameraTheorems.

Section CameraExamples.

Import CameraBurst.

Lemma burst_without_frames_stalls_witness :
  let st := counting 1 (setIsCapturing true initial) in
  let st1 := fst (step 4 3 Examples.deadCam st CountdownTick) in
  snd (step 4 3 Examples.deadCam st CountdownTick) = []
  /\ photos st1 = []
  /\ isCapturing st1 = true /\ timer st1 = None.
Proof.
  destruct (burst_without_frames_stalls 4 3 Examples.deadCam
              (counting 1 (setIsCapturing true initial)) 1 [] eq_refl eq_refl)
    as (H1 & H2 & H3 & H4 & _).
  - lia.
  - intros i _. reflexivity.
  - cbv zeta. split; [exact H1|]. split; [exact H2|]. split; [exact H3 | exact H4].
Defined.

Lemma started_session_is_locked_witness :
  filter (fst (run 4 3 Examples.liveCam (setIsCapturing true initial)
                 [ClickFilter bw; ClickStart; CountdownTick]))
  = normal.
Proof.
  refine (proj1 (proj2 (started_session_is_locked 4 3 Examples.liveCam
                          (setIsCapturing true initial)
                          [ClickFilter bw; ClickStart; CountdownTick] _))).
  left. reflexivity.
Defined.

(** One nominal shot of the countdown camera with a camera that always has
    a frame: thirty samples and the final snap, thirty-one frames. *)
Example nominal_countdown_burst :
  map (@length string)
    (CameraCountdown.photos
       (CameraCountdown.run 4 3 Examples.liveCam CameraCountdown.initial
          (CameraCountdown.ClickStart :: Examples.oneShot)))
  = [31].
Proof. vm_compute. reflexivity. Qed.

End CameraExamples.

(** ** The booth page *)

Section BoothPage.

Import Booth.

Variable cam : Webcam.

#[local] Abbreviation dispatch := (Booth.dispatch cam).
#[local] Abbreviation run := (Booth.run cam).

Lemma cameraView_inv (st : State) (n : nat) :
  view st = CameraView n ->
  step st = cameraStep /\ exists l, selectedLayout st = Some l /\ n = LAYOUT_CONFIG l.
Proof.
  unfold view. destruct (step st), (selectedLayout st) as [l|]; try discriminate.
  intros [= <-]. eauto.
Qed.

Lemma layoutView_inv (st : State) : view st = LayoutSelectorView -> step st = layoutStep.
Proof.
  unfold view. destruct (step st), (selectedLayout st) as [l|]; try discriminate; reflexivity.
Qed.

(** What a camera event does to the page while the camera is underway:
    the page keeps showing the camera, underway, or the camera has signalled
    its photos and the page has turned to the editor. *)
Lemma dispatch_camera (st : State) (l : LayoutType) (e : CameraBurst.Event) :
  step st = cameraStep -> selectedLayout st = Some l ->
  CameraBurst.underway (LAYOUT_CONFIG l) (camera st) ->
  nonEmptyBursts (CameraBurst.photos (camera st)) ->
  let c := fst (CameraBurst.step (LAYOUT_CONFIG l) timerDuration cam (camera st) e) in
  nonEmptyBursts (CameraBurst.photos c)
  /\ ((dispatch st (CameraEvent e) = setCamera c st
       /\ CameraBurst.underway (LAYOUT_CONFIG l) c
       /\ snd (CameraBurst.step (LAYOUT_CONFIG l) timerDuration cam (camera st) e) = [])
      \/ (dispatch st (CameraEvent e)
          = handleCaptureComplete (CameraBurst.photos c) (CameraBurst.filter c) (setCamera c st)
          /\ CameraBurst.finished (LAYOUT_CONFIG l) c
          /\ snd (CameraBurst.step (LAYOUT_CONFIG l) timerDuration cam (camera st) e)
             = [OnComplete (CameraBurst.photos c) (CameraBurst.filter c)])).
Proof.
  intros Hstep Hl Hunder Hne.
  pose proof (burst_camera_commits_frames (LAYOUT_CONFIG l) timerDuration cam [e]
                (camera st) Hne) as Hne'.
  cbn [CameraBurst.run] in Hne'.
  unfold Booth.dispatch, view. rewrite Hstep, Hl.
  destruct (CameraBurst.step (LAYOUT_CONFIG l) timerDuration cam (camera st) e)
    as [c out] eqn:Hcam.
  cbn [fst snd] in *. split; [exact Hne'|].
  destruct (step_underway (LAYOUT_CONFIG l) timerDuration cam (camera st) c e out
              (LAYOUT_CONFIG_pos l) Hunder Hcam) as [(-> & Hu)|(-> & Hf)].
  - left. auto.
  - right. auto.
Qed.

Lemma dispatch_wellFormed (st : State) (ev : Event) :
  wellFormed st -> wellFormed (dispatch st ev).
Proof.
  intros Hwf. unfold Booth.dispatch.
  destruct ev as [l|e].
  - destruct (view st) eqn:Hview; try exact Hwf.
    unfold wellFormed. cbn. exists l. split; [reflexivity|].
    pose proof (LAYOUT_CONFIG_pos l).
    split; [apply initial_inv|]. split; [lia | constructor].
  - destruct (view st) as [|n| |] eqn:Hview; try exact Hwf.
    apply cameraView_inv in Hview as (Hstep & l & Hl & ->).
    unfold wellFormed in Hwf. rewrite Hstep in Hwf.
    destruct Hwf as (l' & Hl' & Hinv & Hlt & Hne).
    assert (l' = l) as -> by congruence.
    destruct (dispatch_camera st l e Hstep Hl (conj Hlt Hinv) Hne) as (Hne' & Hcases).
    unfold Booth.dispatch, view in Hcases. rewrite Hstep, Hl in Hcases.
    destruct Hcases as [(-> & (Hlt' & Hinv') & _)|(-> & (_ & Hlen & _) & _)].
    + unfold wellFormed. cbn [step setCamera]. rewrite Hstep.
      exists l. cbn [selectedLayout camera]. auto.
    + unfold wellFormed. cbn. exists l. auto.
Qed.

Lemma run_wellFormed (evs : list Event) :
  forall st, wellFormed st -> wellFormed (run st evs).
Proof.
  induction evs as [|ev evs IH]; intros st Hst; [exact Hst|].
  apply (IH (dispatch st ev)), dispatch_wellFormed, Hst.
Qed.

Lemma dispatch_forward (st : State) (ev : Event) :
  (rank (step st) <= rank (step (dispatch st ev)))%nat
  /\ (step st = editStep -> dispatch st ev = st)
  /\ (step st <> layoutStep -> selectedLayout (dispatch st ev) = selectedLayout st).
Proof.
  unfold Booth.dispatch.
  destruct ev as [l|e].
  - destruct (view st) eqn:Hview; try (repeat split; auto; fail).
    apply layoutView_inv in Hview. rewrite Hview. cbn. repeat split; try lia; congruence.
  - destruct (view st) as [|n| |] eqn:Hview; try (repeat split; auto; fail).
    apply cameraView_inv in Hview as (Hstep & l & Hl & ->).
    destruct (CameraBurst.step _ _ _ _ _) as [c out].
    assert (H : forall (sigs : list Signal) (s : State),
               (rank (step st) <= rank (step s))%nat ->
               selectedLayout s = selectedLayout st ->
               (rank (step st) <= rank (step (fold_left (fun s sig => onComplete sig s) sigs s)))%nat
               /\ selectedLayout (fold_left (fun s sig => onComplete sig s) sigs s)
                  = selectedLayout st).
    { induction sigs as [|[ps f] sigs IH]; intros s Hr Hs; [auto|].
      cbn [fold_left onComplete]. apply IH; [|exact Hs].
      cbn. rewrite Hstep. cbn. lia. }
    destruct (H out (setCamera c st)) as (Hr & Hs); [reflexivity | reflexivity |].
    split; [exact Hr|]. split; [congruence | intros _; exact Hs].
Qed.

Lemma run_forward (evs : list Event) :
  forall st,
    (rank (step st) <= rank (step (run st evs)))%nat
    /\ (step st = editStep -> run st evs = st)
    /\ (step st <> layoutStep -> selectedLayout (run st evs) = selectedLayout st).
Proof.
  induction evs as [|ev evs IH]; intros st; [repeat split; auto|].
  change (run st (ev :: evs)) with (run (dispatch st ev) evs).
  destruct (dispatch_forward st ev) as (Hr & He & Hs).
  destruct (IH (dispatch st ev)) as (Hr' & He' & Hs').
  split; [lia|]. split.
  - intros Hedit. rewrite (He Hedit). apply IH, Hedit.
  - intros Hnl. rewrite Hs'; [apply Hs, Hnl|].
    intros Hlay. rewrite Hlay in Hr. destruct (step st); try contradiction; cbn in Hr; lia.
Qed.

(** The page follows the camera it has mounted until the camera signals. *)
Lemma run_camera (l : LayoutType) (evs : list CameraBurst.Event) :
  forall (st : State) (c' : CameraBurst.State) (out : list Signal),
    step st = cameraStep -> selectedLayout st = Some l ->
    CameraBurst.underway (LAYOUT_CONFIG l) (camera st) ->
    nonEmptyBursts (CameraBurst.photos (camera st)) ->
    CameraBurst.run (LAYOUT_CONFIG l) timerDuration cam (camera st) evs = (c', out) ->
    (out = [] /\ run st (map CameraEvent evs) = setCamera c' st)
    \/ (out = [OnComplete (CameraBurst.photos c') (CameraBurst.filter c')]
        /\ view (run st (map CameraEvent evs))
           = PhotoEditorView (CameraBurst.photos c') l (CameraBurst.filter c')).
Proof.
  induction evs as [|e evs IH]; intros st c' out Hstep Hl Hunder Hne Hrun.
  - cbn in Hrun. injection Hrun as <- <-. left. split; [reflexivity|].
    destruct st; reflexivity.
  - cbn [CameraBurst.run] in Hrun.
    destruct (dispatch_camera st l e Hstep Hl Hunder Hne) as (Hne1 & Hcases).
    cbv zeta in Hne1, Hcases.
    destruct (CameraBurst.step (LAYOUT_CONFIG l) timerDuration cam (camera st) e)
      as [c1 out1] eqn:Hcam.
    destruct (CameraBurst.run (LAYOUT_CONFIG l) timerDuration cam c1 evs)
      as [c2 out2] eqn:Hrest.
    injection Hrun as <- <-. cbn [fst snd] in *.
    change (run st (map CameraEvent (e :: evs)))
      with (run (dispatch st (CameraEvent e)) (map CameraEvent evs)).
    destruct Hcases as [(Hd & Hu1 & ->)|(Hd & Hf1 & ->)]; rewrite Hd.
    + destruct (IH (setCamera c1 st) c2 out2 Hstep Hl Hu1 Hne1 Hrest) as [(-> & Hr)|(-> & Hv)].
      * left. split; [reflexivity|]. rewrite Hr. reflexivity.
      * right. split; [reflexivity | exact Hv].
    + destruct (run_finished (LAYOUT_CONFIG l) timerDuration cam evs c1 c2 out2
                  (LAYOUT_CONFIG_pos l) Hf1 Hrest) as (-> & _ & Hp & Hf).
      right. rewrite Hp, Hf. split; [reflexivity|].
      set (st1 := handleCaptureComplete _ _ _).
      destruct (run_forward (map CameraEvent evs) st1) as (_ & Hfix & _).
      rewrite Hfix by reflexivity. unfold view, st1. cbn. rewrite Hl. reflexivity.
Qed.

End BoothPage.

Section BoothSession.

Import Booth.

(** A nominal session on the page ends in the editor. *)
Lemma booth_session_runs (cam : Webcam) (l : LayoutType) (f : FilterType) :
  CameraBurst.camReady cam ->
  exists ps,
    view (run cam initial
            (SelectLayout l
             :: map CameraEvent (CameraBurst.session f (LAYOUT_CONFIG l) 3)))
    = PhotoEditorView ps l f
    /\ length ps = LAYOUT_CONFIG l
    /\ Forall (CameraFacts.burstOf cam) ps.
Proof.
  intros Hcam.
  pose proof (LAYOUT_CONFIG_pos l) as Hpos.
  set (st0 := CameraBurst.setIsCapturing true
                (CameraBurst.setPhotos [] (CameraBurst.setFilter f CameraBurst.initial))).
  assert (Hsession : exists c',
             CameraBurst.run (LAYOUT_CONFIG l) timerDuration cam CameraBurst.initial
               (CameraBurst.session f (LAYOUT_CONFIG l) 3)
             = (c', [OnComplete (CameraBurst.photos c') f])
             /\ length (CameraBurst.photos c') = LAYOUT_CONFIG l
             /\ CameraBurst.filter c' = f).
  { unfold timerDuration.
    destruct (LAYOUT_CONFIG l) as [|m] eqn:Hcount; [lia|].
    destruct (session_completes_from (S m) 3 cam m st0 Hcam ltac:(lia) eq_refl eq_refl)
      as (c' & Hrun & Hlen & Hf & _).
    exists c'. unfold CameraBurst.session.
    cbn [CameraBurst.run CameraBurst.step]. cbn -[Nat.mul CameraBurst.ticks].
    change (CameraBurst.setTimer (Some 3%Z)
              (CameraBurst.setCountdown (Some 3%Z)
                 (CameraBurst.setIsCapturing true
                    (CameraBurst.setPhotos [] (CameraBurst.setFilter f CameraBurst.initial)))))
      with (CameraBurst.counting 3 st0).
    change (Z.to_nat 3) with 3 in Hrun. rewrite Hrun. cbn [app]. auto. }
  destruct Hsession as (c' & Hrun & Hlen & Hf).
  set (st1 := Booth.dispatch cam initial (SelectLayout l)).
  assert (Hunder : CameraBurst.underway (LAYOUT_CONFIG l) (camera st1)).
  { split; [cbn; lia | apply initial_inv]. }
  destruct (run_camera cam l (CameraBurst.session f (LAYOUT_CONFIG l) 3) st1 c' _
              eq_refl eq_refl Hunder ltac:(constructor) Hrun) as [(Hnil & _)|(_ & Hview)];
    [discriminate|].
  exists (CameraBurst.photos c').
  change (run cam initial (SelectLayout l :: ?evs)) with (run cam st1 evs).
  rewrite Hview, Hf. split; [reflexivity|]. split; [exact Hlen|].
  pose proof (run_bursts (LAYOUT_CONFIG l) timerDuration cam
                (CameraBurst.session f (LAYOUT_CONFIG l) 3) CameraBurst.initial
                ltac:(constructor)) as Hb.
  rewrite Hrun in Hb. exact Hb.
Qed.

End BoothSession.

Section BoothTheorems.

Import Booth.

(** X21: whatever happens on the booth page, it renders something at
    every moment, and when it renders the editor, the editor gets as many
    bursts as the chosen layout has photos, every burst with a frame at
    least: every image of the strip has a source, with the last frame shown
    and with any frame position of an export shown, and the length the GIF
    export reads from the first burst is the length of that burst. *)
Theorem editor_is_mounted_on_a_full_photo_set (cam : Webcam) (evs : list Event) :
  match view (run cam initial evs) with
  | PhotoEditorView ps l f =>
      length ps = LAYOUT_CONFIG l
      /\ nonEmptyBursts ps
      /\ Forall is_Some (map (Editor.src None) ps)
      /\ (forall i, (0 <= i)%Z -> Forall is_Some (map (Editor.src (Some i)) ps))
      /\ (exists first rest, ps = first :: rest /\ Editor.burstLengthOf ps = length first)
  | CameraView n => exists l, n = LAYOUT_CONFIG l
  | LayoutSelectorView => True
  | NothingView => False
  end.
Proof.
  pose proof (run_wellFormed cam evs initial I) as Hwf.
  unfold wellFormed in Hwf. unfold view.
  destruct (step (run cam initial evs)).
  - exact I.
  - destruct Hwf as (l & -> & _). eauto.
  - destruct Hwf as (l & -> & Hlen & Hne).
    assert (Hne' : Forall (fun burst : list string => burst <> []) (capturedPhotos (run cam initial evs))).
    { eapply Forall_impl; [exact Hne|]. intros burst Hb ->. cbn in Hb. lia. }
    split; [exact Hlen|]. split; [exact Hne|].
    split.
    { apply List.Forall_map. eapply Forall_impl; [exact Hne'|].
      intros burst Hb. unfold Editor.src, Editor.frameIndex. rewrite at_index_last.
      apply last_is_Some, Hb. }
    split; [intros i Hi; apply images_in_bounds; assumption|].
    pose proof (LAYOUT_CONFIG_pos l) as Hpos.
    destruct (capturedPhotos (run cam initial evs)) as [|first rest]; [cbn in Hlen; lia|].
    exists first, rest. split; [reflexivity|].
    apply Forall_cons in Hne as (Hfirst & _). cbn [Editor.burstLengthOf].
    destruct (length first) as [|k]; [lia | reflexivity].
Qed.

(** X22: the booth page only moves forward, from the layout to the camera
    to the editor: no event takes it back a step, once the editor is shown
    no event of the page changes anything (only a reload starts over), and
    the layout, once chosen, stays the chosen one. *)
Theorem booth_steps_forward (cam : Webcam) (st : State) (evs : list Event) :
  (rank (step st) <= rank (step (run cam st evs)))%nat
  /\ (step st = editStep -> run cam st evs = st)
  /\ (step st <> layoutStep -> selectedLayout (run cam st evs) = selectedLayout st).
Proof. apply run_forward. Qed.

(** X23: a whole session on the booth page.  With a camera that has a
    frame in every burst, choosing a layout, picking a filter, starting the
    capture and letting the countdowns run (three ticks a shot, as many
    shots as the layout has photos) brings up the editor, with that layout,
    that filter, and as many bursts as the layout has photos, each the
    frames among thirty consecutive screenshots. *)
Theorem booth_session_reaches_the_editor (cam : Webcam) (l : LayoutType) (f : FilterType) :
  CameraBurst.camReady cam ->
  exists ps,
    view (run cam initial
            (SelectLayout l
             :: map CameraEvent (CameraBurst.session f (LAYOUT_CONFIG l) 3)))
    = PhotoEditorView ps l f
    /\ length ps = LAYOUT_CONFIG l
    /\ Forall (CameraFacts.burstOf cam) ps.
Proof. apply booth_session_runs. Qed.

End BoothTheorems.

Lemma booth_session_reaches_the_editor_witness :
  exists ps,
    Booth.view (Booth.run Examples.liveCam Booth.initial
                  (Booth.SelectLayout Layout3Diagonal
                   :: map Booth.CameraEvent
                        (CameraBurst.session bw (LAYOUT_CONFIG Layout3Diagonal) 3)))
    = Booth.PhotoEditorView ps Layout3Diagonal bw
    /\ length ps = LAYOUT_CONFIG Layout3Diagonal
    /\ Forall (CameraFacts.burstOf Examples.liveCam) ps.
Proof. apply (booth_session_reaches_the_editor Examples.liveCam Layout3Diagonal bw liveCam_ready). Defined.

(** ** From the countdown to the GIF *)

Section CountdownTicks.

Import CameraBurst.

Variable photoCount : nat.
Variable timerDuration : Z.
Variable cam : Webcam.

#[local] Abbreviation run := (CameraBurst.run photoCount timerDuration cam).
#[local] Arguments burstLoop : simpl never.

(** X24: a countdown of [d] seconds takes [d] ticks.  From a countdown
    that has just started at [d >= 1], the first [d - 1] ticks change
    nothing but the countdown, which is then 1, and signal nothing; the next
    tick ends the countdown and takes the burst: thirty more screenshots are
    asked for, and either a burst is added to the photos or the photos are
    as before.  (With [d <= 1] the very first tick takes the burst.) *)
Theorem countdown_fires_on_its_last_tick (st : State) (d : Z) :
  (1 <= d)%Z ->
  let before := run (counting d st) (ticks (Z.to_nat d - 1)) in
  let after := run (counting d st) (ticks (Z.to_nat d)) in
  before = (counting 1 st, [])
  /\ shots (fst after) = shots st + BURST_COUNT
  /\ (photos (fst after) = photos st
      \/ exists burst, photos (fst after) = photos st ++ [burst] /\ (1 <= length burst)%nat).
Proof.
  intros Hd before after.
  assert (Hbefore : before = (counting 1 st, [])).
  { unfold before. rewrite (countdown_ticks photoCount timerDuration cam) by lia.
    f_equal. f_equal. lia. }
  split; [exact Hbefore|].
  assert (Hsplit : ticks (Z.to_nat d) = ticks (Z.to_nat d - 1) ++ [CountdownTick]).
  { replace (Z.to_nat d) with ((Z.to_nat d - 1) + 1) at 1 by lia. apply ticks_app. }
  unfold after. rewrite Hsplit, run_app. fold before. rewrite Hbefore.
  cbn [CameraBurst.run CameraBurst.step counting timer setTimer setCountdown].
  unfold tick. change (1 - 1 <=? 0)%Z with true. cbv iota.
  unfold captureBurst.
  change (shots (setTimer None (setCountdown (Some (1 - 1)%Z) (counting 1 st)))) with (shots st).
  change (photos (setShots (shots st + BURST_COUNT)
                    (setTimer None (setCountdown (Some (1 - 1)%Z) (counting 1 st)))))
    with (photos st).
  destruct (0 <? length (burstLoop cam BURST_COUNT (shots st) []))%nat eqn:Hne.
  - cbv beta iota zeta.
    destruct (CameraBurst.render photoCount timerDuration _) as [st1 out1] eqn:Hr.
    apply render_effect in Hr as (Hp & _ & Hs & _).
    cbn [fst]. rewrite Hp, Hs. cbn [shots photos setShots setFlash setPhotos].
    split; [reflexivity|]. right. eexists. split; [reflexivity|].
    apply Nat.ltb_lt in Hne. exact Hne.
  - cbv beta iota zeta. cbn [fst shots photos setShots setTimer setCountdown].
    split; [reflexivity|]. left. reflexivity.
Qed.

End CountdownTicks.

Lemma countdown_fires_on_its_last_tick_witness :
  CameraBurst.run 4 3 Examples.liveCam
    (CameraBurst.counting 3 (CameraBurst.setIsCapturing true CameraBurst.initial))
    (CameraBurst.ticks (Z.to_nat 3 - 1))
  = (CameraBurst.counting 1 (CameraBurst.setIsCapturing true CameraBurst.initial), []).
Proof.
  refine (proj1 (countdown_fires_on_its_last_tick 4 3 Examples.liveCam
                   (CameraBurst.setIsCapturing true CameraBurst.initial) 3 _)).
  lia.
Defined.

Section MissingImages.

Import Editor.

(** X25: when an image of the strip has no source.  The image of a
    burst has a source unless the burst is empty or a negative frame index
    is displayed; an empty burst (the countdown camera can commit one) has
    none whatever is displayed. *)
Theorem image_has_no_source_iff (displayFrameIndex : option Z) (burst : list string) :
  src displayFrameIndex burst = None
  <-> burst = [] \/ exists i, displayFrameIndex = Some i /\ (i < 0)%Z.
Proof.
  split.
  - intros Hnone. destruct burst as [|s burst]; [left; reflexivity|]. right.
    destruct displayFrameIndex as [i|].
    + destruct (Z.ltb_spec i 0) as [Hneg|Hpos]; [eauto|].
      destruct (src_in_bounds (s :: burst) i ltac:(discriminate) Hpos) as (_ & _ & Hsome).
      rewrite Hnone in Hsome. destruct Hsome as [x Hx]. discriminate.
    + unfold src, frameIndex in Hnone. rewrite at_index_last in Hnone.
      destruct (last_is_Some (s :: burst) ltac:(discriminate)) as [x Hx]. congruence.
  - intros [->|(i & -> & Hi)].
    + unfold src, frameIndex, at_index. cbn [length].
      destruct displayFrameIndex as [i|].
      * replace (Z.min i (Z.of_nat 0 - 1) <? 0)%Z with true; [reflexivity|].
        symmetry. apply Z.ltb_lt. lia.
      * reflexivity.
    + unfold src, frameIndex, at_index.
      replace (Z.min i (Z.of_nat (length burst) - 1) <? 0)%Z with true; [reflexivity|].
      symmetry. apply Z.ltb_lt. lia.
Qed.

End MissingImages.

Section EndToEnd.

Import Editor.

Context {Canvas : Type}.
Variable html2canvas : Composite -> JS.number -> string -> option Canvas.

Lemma validFrames_full (l : list (option string)) :
  Forall (fun o => validFrame o = true) l -> length (validFrames l) = length l.
Proof.
  induction 1 as [|o l Ho _ IH]; [reflexivity|].
  change (o :: l) with ([o] ++ l). rewrite validFrames_app, length_app, IH.
  unfold validFrames. cbn [omap list_omap]. rewrite Ho.
  destruct o; [reflexivity | discriminate].
Qed.


End EndToEnd.

Lemma all_valid_liveCam : forall t, validFrame (Examples.liveCam t) = true.
Proof. intros t. reflexivity. Qed.


Section ZeroPhotos.

(** X27: a camera that is asked for no photo at all.  The burst camera
    completes at once: the click on Start signals [onComplete] with no
    photos and the chosen filter, starts no countdown, and shows the
    controls again.  The countdown camera starts no countdown either, but
    nothing resets [isCapturing]: its controls are gone for good. *)
Theorem zero_photo_session (timerDuration : Z) (cam : Webcam) :
  (forall st : CameraBurst.State,
      CameraBurst.controlsShown st = true ->
      let '(st', out) := CameraBurst.step 0 timerDuration cam st CameraBurst.ClickStart in
      out = [OnComplete [] (CameraBurst.filter st)]
      /\ CameraBurst.photos st' = []
      /\ CameraBurst.timer st' = None
      /\ CameraBurst.controlsShown st' = true)
  /\ (forall (st : CameraCountdown.State) (evs : list CameraCountdown.Event),
         CameraCountdown.controlsShown st = true ->
         let st' := CameraCountdown.step 0 timerDuration cam st CameraCountdown.ClickStart in
         CameraCountdown.timers st' = None
         /\ CameraCountdown.photos (CameraCountdown.run 0 timerDuration cam st' evs) = []
         /\ CameraCountdown.controlsShown (CameraCountdown.run 0 timerDuration cam st' evs)
            = false).
Proof.
  split.
  - intros st Hc. cbn [CameraBurst.step]. rewrite Hc.
    unfold CameraBurst.startSession, CameraBurst.render, CameraBurst.completionEffect,
      CameraBurst.countdownEffect.
    cbn. repeat split.
  - intros st evs Hc. cbn [CameraCountdown.step]. rewrite Hc.
    unfold CameraCountdown.startSession, CameraCountdown.countdownEffect. cbn.
    set (st' := CameraCountdown.setTimers None _).
    split; [reflexivity|].
    assert (Hb : CameraFacts.bounded 0 st').
    { split; [cbn; lia | intros c Hc'; discriminate]. }
    split.
    + rewrite (run_full 0 timerDuration cam evs st' Hb eq_refl). reflexivity.
    + pose proof (run_isCapturing 0 timerDuration cam evs st' eq_refl) as Hcap.
      unfold CameraCountdown.controlsShown. rewrite Hcap. reflexivity.
Qed.

End ZeroPhotos.

(** ** The theorems above at concrete inputs *)

Section Illustrations.


Lemma bursts_are_the_valid_screenshots_witness :
  validFrames (map Some ["data:image/jpeg;base64,AA"; "data:image/jpeg;base64,BB"])
  = ["data:image/jpeg;base64,AA"; "data:image/jpeg;base64,BB"].
Proof.
  apply (proj2 (proj2 (proj2 bursts_are_the_valid_screenshots))).
  repeat constructor.
Defined.

Lemma countdown_camera_stops_at_photoCount_witness :
  CameraCountdown.isCapturing
    (CameraCountdown.run 4 3 Examples.liveCam
       (CameraCountdown.run 4 3 Examples.liveCam CameraCountdown.initial
          [CameraCountdown.ClickStart])
       Examples.oneShot)
  = true.
Proof.
  destruct (countdown_camera_stops_at_photoCount 4 3 Examples.liveCam
              [CameraCountdown.ClickStart] Examples.oneShot)
    as (_ & _ & Hcap & _).
  exact (proj1 (Hcap eq_refl)).
Defined.

Lemma booth_steps_forward_witness :
  Booth.run Examples.liveCam
    (Booth.handleCaptureComplete [["a0"; "a1"]] bw
       (Booth.handleLayoutSelect Layout3Diagonal Booth.initial))
    [Booth.SelectLayout Layout6Grid; Booth.CameraEvent CameraBurst.ClickStart]
  = Booth.handleCaptureComplete [["a0"; "a1"]] bw
      (Booth.handleLayoutSelect Layout3Diagonal Booth.initial).
Proof.
  exact (proj1 (proj2 (booth_steps_forward Examples.liveCam
                         (Booth.handleCaptureComplete [["a0"; "a1"]] bw
                            (Booth.handleLayoutSelect Layout3Diagonal Booth.initial))
                         [Booth.SelectLayout Layout6Grid;
                          Booth.CameraEvent CameraBurst.ClickStart]))
           eq_refl).
Defined.

Lemma zero_photo_session_witness :
  snd (CameraBurst.step 0 3 Examples.liveCam CameraBurst.initial CameraBurst.ClickStart)
  = [OnComplete [] normal].
Proof.
  pose proof (proj1 (zero_photo_session 3 Examples.liveCam) CameraBurst.initial eq_refl) as H.
  destruct (CameraBurst.step 0 3 Examples.liveCam CameraBurst.initial CameraBurst.ClickStart)
    as [st' out].
  exact (proj1 H).
Defined.

End Illustrations.

Section GrayscaleTwice.

Import Filter.

Lemma grayscalePixel_gray (v : Z) :
  (0 <= v <= 255)%Z -> grayscalePixel v v v = (v, v, v).
Proof.
  intros Hv.
  assert (Hall : forallb
            (fun n => let '(r, g, b) := grayscalePixel (Z.of_nat n) (Z.of_nat n) (Z.of_nat n) in
                      Z.eqb r (Z.of_nat n) && Z.eqb g (Z.of_nat n) && Z.eqb b (Z.of_nat n))
            (seq 0 256) = true) by (vm_compute; reflexivity).
  rewrite forallb_forall in Hall.
  specialize (Hall (Z.to_nat v)). rewrite Z2Nat.id in Hall by lia.
  assert (Hin : In (Z.to_nat v) (seq 0 256)) by (apply in_seq; lia).
  specialize (Hall Hin).
  destruct (grayscalePixel v v v) as [[r g] b].
  apply andb_true_iff in Hall as (Hall & Hb). apply andb_true_iff in Hall as (Hr & Hg).
  apply Z.eqb_eq in Hr, Hg, Hb. congruence.
Qed.

Lemma grayscalePixel_twice (r g b : Z) :
  PixelWise.onPixel grayscalePixel (grayscalePixel r g b) = grayscalePixel r g b.
Proof.
  unfold grayscalePixel at 2 3. unfold PixelWise.onPixel. cbn [fst snd].
  apply grayscalePixel_gray. apply ToUint8Clamp_byte.
Qed.

(** X28: the grayscale pass is idempotent.  With a filter string that
    selects the grayscale pass and no other, filtering a canvas a second
    time changes nothing, whatever the pixels (a byte that is already the
    luminance of its pixel is its own luminance). *)
Theorem grayscale_pass_is_idempotent (canvas : Canvas) (fv : string) :
  Str.includes fv "grayscale" = true ->
  Str.includes fv "contrast" = false ->
  Str.includes fv "sepia" = false ->
  Str.includes fv "brightness" = false ->
  Str.includes fv "saturate" = false ->
  applyFilterToCanvas (applyFilterToCanvas canvas fv) fv = applyFilterToCanvas canvas fv
  /\ data (applyFilterToCanvas canvas fv)
     = (if context2d canvas then forPixels grayscalePixel (data canvas) else data canvas).
Proof.
  intros Hg Hc Hs Hb Ht.
  assert (Hne : String.eqb fv EmptyString = false).
  { destruct (String.eqb_spec fv EmptyString) as [->|]; [discriminate | reflexivity]. }
  assert (Hpass : forall d,
             saturatePass fv (brightnessPass fv (sepiaPass fv (contrastPass fv (grayscalePass fv d))))
             = forPixels grayscalePixel d).
  { intros d. unfold saturatePass, brightnessPass, sepiaPass, contrastPass, grayscalePass.
    rewrite Hg, Hc, Hs, Hb, Ht. reflexivity. }
  unfold applyFilterToCanvas. rewrite Hne.
  destruct canvas as [w h ctx d]. cbn [context2d data width height].
  destruct ctx; cbn [negb]; [|split; reflexivity].
  cbn [context2d data width height negb]. rewrite !Hpass.
  split; [|reflexivity]. f_equal.
  rewrite forPixels_compose. apply forPixels_ext. intros r g b. apply grayscalePixel_twice.
Qed.

End GrayscaleTwice.

Lemma grayscale_pass_is_idempotent_witness :
  Filter.applyFilterToCanvas
    (Filter.applyFilterToCanvas Examples.twoPixels "grayscale(100%)") "grayscale(100%)"
  = Filter.applyFilterToCanvas Examples.twoPixels "grayscale(100%)".
Proof.
  exact (proj1 (grayscale_pass_is_idempotent Examples.twoPixels "grayscale(100%)"
                  eq_refl eq_refl eq_refl eq_refl eq_refl)).
Defined.

Section CountingTicks.

Import CameraCountdown CountdownFacts.

Variable photoCount : nat.
Variable d : Z.
Variable cam : Webcam.

Hypothesis d_pos : (1 <= d)%Z.

#[local] Abbreviation step := (CameraCountdown.step photoCount d cam).
#[local] Abbreviation run := (CameraCountdown.run photoCount d cam).
#[local] Abbreviation counted := (CountdownFacts.counted photoCount d).

(** One event moves the count on by one tick when it is a tick of the
    countdown, and not at all otherwise. *)
Lemma step_counted (st : State) (ev : Event) (q r : nat) :
  counted q r st ->
  exists q' r',
    counted q' r' (step st ev)
    /\ q' * Z.to_nat d + r' = q * Z.to_nat d + r + (if isCountdownTick ev then 1 else 0).
Proof.
  intros Hst. pose proof Hst as (Hr & Hcap & Hlen & Hsome & Hnone).
  assert (Hctl : controlsShown st = false) by (unfold controlsShown; rewrite Hcap; reflexivity).
  assert (Hsame : forall st', isCapturing st' = isCapturing st -> photos st' = photos st ->
                              timers st' = timers st -> counted q r st').
  { intros st' H1 H2 H3. unfold CountdownFacts.counted. rewrite H1, H2, H3. auto. }
  destruct ev as [|f| | |]; cbn [CameraCountdown.step isCountdownTick]; rewrite ?Hctl.
  - exists q, r. split; [split; auto | lia].
  - exists q, r. split; [split; auto | lia].
  - exists q, r. split; [|lia].
    assert (Hsnap : counted q r (snap cam st)) by (apply Hsame; reflexivity).
    clear - Hst Hsnap. destruct (timers st); assumption.
  - destruct (Nat.lt_ge_cases q photoCount) as [Hq|Hq].
    + rewrite (Hsome Hq). unfold tick.
      destruct (d - Z.of_nat r - 1 <=? 0)%Z eqn:Hlast.
      * apply Z.leb_le in Hlast.
        exists (S q), 0. split; [|lia].
        unfold CameraCountdown.countdownEffect.
        cbn [isCapturing photos setPhotos setFlash snap setShots setBurstRef setTimers
               setCountdown].
        rewrite Hcap, length_app, Hlen. cbn [length andb].
        replace (Nat.min photoCount q + 1) with (S q) by lia.
        destruct (S q <? photoCount)%nat eqn:Hnext.
        -- apply Nat.ltb_lt in Hnext.
           split; [lia|]. split; [exact Hcap|].
           split; [cbn; rewrite length_app, Hlen; cbn; lia|].
           split; [intros _; cbn; f_equal; lia | intros; lia].
        -- apply Nat.ltb_ge in Hnext.
           split; [lia|]. split; [exact Hcap|].
           split; [cbn; rewrite length_app, Hlen; cbn; lia|].
           split; [intros; lia | intros _; reflexivity].
      * apply Z.leb_gt in Hlast.
        exists q, (S r). split; [|lia].
        split; [lia|]. split; [exact Hcap|].
        split; [cbn; rewrite Hlen; reflexivity|].
        split; [intros _; cbn; f_equal; lia | intros; lia].
    + rewrite (Hnone Hq).
      destruct (Nat.lt_ge_cases (S r) (Z.to_nat d)) as [Hr'|Hr'].
      * exists q, (S r). split; [|lia].
        split; [lia|]. split; [exact Hcap|].
        split; [rewrite Hlen; reflexivity|].
        split; [intros; lia | intros _; exact (Hnone Hq)].
      * exists (S q), 0. split; [|lia].
        split; [lia|]. split; [exact Hcap|].
        split; [rewrite Hlen; lia|].
        split; [intros; lia | intros _; exact (Hnone Hq)].
  - exists q, r. split; [|lia]. apply Hsame; reflexivity.
Qed.

Lemma run_counted (evs : list Event) :
  forall (st : State) (q r : nat),
    counted q r st ->
    exists q' r',
      counted q' r' (run st evs)
      /\ q' * Z.to_nat d + r' = q * Z.to_nat d + r + countdownTicks evs.
Proof.
  induction evs as [|ev evs IH]; intros st q r Hst.
  - exists q, r. split; [exact Hst | cbn; lia].
  - destruct (step_counted st ev q r Hst) as (q1 & r1 & H1 & Hn1).
    destruct (IH (step st ev) q1 r1 H1) as (q2 & r2 & H2 & Hn2).
    exists q2, r2. split; [exact H2|].
    unfold countdownTicks in *. cbn [List.filter].
    destruct (isCountdownTick ev); cbn [length]; lia.
Qed.

End CountingTicks.

Section CountingTicksTheorem.

Import CameraCountdown CountdownFacts.

(** X29: the countdown camera counts the ticks of its countdown and
    nothing else.  After a click on Start, whatever the webcam gives (even
    no frame at all) and whatever other events come in between, the number
    of bursts taken is the number of whole countdowns the ticks so far make
    up, [ticks / timerDuration], capped at [photoCount]; and the camera is
    still capturing. *)
Theorem countdown_camera_counts_its_ticks (photoCount : nat) (d : Z) (cam : Webcam)
    (st : State) (evs : list Event) :
  (1 <= d)%Z ->
  controlsShown st = true ->
  let st' := run photoCount d cam st (ClickStart :: evs) in
  length (photos st') = Nat.min photoCount (countdownTicks evs / Z.to_nat d)
  /\ isCapturing st' = true.
Proof.
  intros Hd Hctl st'.
  assert (Hstart : counted photoCount d 0 0 (step photoCount d cam st ClickStart)).
  { cbn [CameraCountdown.step]. rewrite Hctl.
    unfold startSession, CameraCountdown.countdownEffect.
    cbn [isCapturing photos setIsCapturing setPhotos length andb].
    destruct (0 <? photoCount)%nat eqn:Hpc.
    - apply Nat.ltb_lt in Hpc. repeat split; cbn; try lia. intros _. f_equal. lia.
    - apply Nat.ltb_ge in Hpc. repeat split; cbn; try lia. }
  destruct (run_counted photoCount d cam Hd evs _ 0 0 Hstart) as (q & r & Hq & Hn).
  change (run photoCount d cam (step photoCount d cam st ClickStart) evs) with st' in Hq.
  destruct Hq as (Hr & Hcap & Hlen & _).
  split; [|exact Hcap].
  rewrite Hlen. f_equal.
  apply (Nat.div_unique _ _ q r); [exact Hr | lia].
Qed.

End CountingTicksTheorem.

Lemma countdown_camera_counts_its_ticks_witness :
  length (CameraCountdown.photos
            (CameraCountdown.run 4 3 Examples.deadCam CameraCountdown.initial
               (CameraCountdown.ClickStart :: Examples.oneShot)))
  = Nat.min 4 (CountdownFacts.countdownTicks Examples.oneShot / Z.to_nat 3).
Proof.
  refine (proj1 (countdown_camera_counts_its_ticks 4 3 Examples.deadCam
                   CameraCountdown.initial Examples.oneShot _ eq_refl)).
  lia.
Defined.
